(** * GroupReminderBot: the scheduling, persistence and dispatch core of bot.py

    A shallow embedding of [src/bot.py].  The SQLite tables are lists of rows
    in rowid order, the APScheduler job store is a finite map from the job id
    string to the job, and every function of the bot is a computation in a
    small state-and-exception monad over the [world] (tables, job store, the
    trace of Discord calls, the log).  A Python exception leaves the world as
    it was at the point of the raise: every SQL statement of the source is
    committed on its own and the job store is mutated in place.

    The source reads the clock ([datetime.now(timezone.utc)]) at each
    comparison; a function of this file takes one reading, [now], for the
    whole call.  The texts of the embeds and the emoji of the messages are left
    out. *)

From Stdlib Require Import ZArith Ascii String.
From stdpp Require Import base tactics option list gmap strings pretty sorting.

Local Open Scope string_scope.
Local Open Scope Z_scope.
Local Open Scope list_scope.

(** ** Python strings and integers

    Strings are restricted to ASCII.  The interpreter's limit on the number of
    digits accepted by [int] (4300 by default) is left out. *)
Module Py.

(** [str.isspace] on an ASCII character: TAB, LF, VT, FF, CR, FS, GS, RS, US and
    the space. *)
Definition isspace (c : ascii) : bool :=
  let n := Z.of_N (N_of_ascii c) in
  ((9 <=? n) && (n <=? 13)) || ((28 <=? n) && (n <=? 32)).

(** The white space that [int] skips around a literal: TAB, LF, VT, FF, CR and
    the space.  FS, GS, RS and US are white space for [str.strip] and
    [str.split] only: [int("\x1c5")] raises [ValueError]. *)
Definition int_space (c : ascii) : bool :=
  let n := Z.of_N (N_of_ascii c) in
  ((9 <=? n) && (n <=? 13)) || (n =? 32).

Fixpoint lstrip_with (space : ascii → bool) (s : string) : string :=
  match s with
  | String c s' => if space c then lstrip_with space s' else s
  | EmptyString => EmptyString
  end.

Fixpoint rstrip_with (space : ascii → bool) (s : string) : string :=
  match s with
  | EmptyString => EmptyString
  | String c s' =>
      match rstrip_with space s' with
      | EmptyString => if space c then EmptyString else String c EmptyString
      | t => String c t
      end
  end.

Definition strip_with (space : ascii → bool) (s : string) : string :=
  rstrip_with space (lstrip_with space s).

(** [s.strip()] *)
Definition strip (s : string) : string := strip_with isspace s.

(** [s.split(sep)] for a one-character separator: empty fields are kept. *)
Fixpoint split_on (sep : ascii) (s : string) : list string :=
  match s with
  | EmptyString => [EmptyString]
  | String c s' =>
      if Ascii.eqb c sep then EmptyString :: split_on sep s'
      else match split_on sep s' with
           | w :: ws => String c w :: ws
           | [] => [String c EmptyString]
           end
  end.

(** [s.split()]: the maximal runs of non-space characters. *)
Fixpoint split (s : string) : list string :=
  match s with
  | EmptyString => []
  | String c s' =>
      if isspace c then split s'
      else match s' with
           | EmptyString => [String c EmptyString]
           | String c' _ =>
               if isspace c' then String c EmptyString :: split s'
               else match split s' with
                    | w :: ws => String c w :: ws
                    | [] => [String c EmptyString]
                    end
           end
  end.

Definition digit_of (c : ascii) : option Z :=
  let n := Z.of_N (N_of_ascii c) in
  if (48 <=? n) && (n <=? 57) then Some (n - 48) else None.

(** The digits of a decimal literal; a single underscore may separate two
    digits.  [after_digit] tells whether the previous character was a digit. *)
Fixpoint int_digits (acc : Z) (after_digit : bool) (s : string) : option Z :=
  match s with
  | EmptyString => if after_digit then Some acc else None
  | String c s' =>
      if Ascii.eqb c "_"
      then (if after_digit then int_digits acc false s' else None)
      else match digit_of c with
           | Some d => int_digits (10 * acc + d) true s'
           | None => None
           end
  end.

(** [int(s)]; [None] stands for [ValueError]. *)
Definition int (s : string) : option Z :=
  match strip_with int_space s with
  | String "-" s' => Z.opp <$> int_digits 0 false s'
  | String "+" s' => int_digits 0 false s'
  | s' => int_digits 0 false s'
  end.

(** [str(n)] for an integer. *)
Definition str (n : Z) : string := pretty n.

(** [sep.join(l)] *)
Definition join (sep : string) (l : list string) : string := String.concat sep l.

(** Truth value of an optional integer ([None] and [0] are false) and of an
    optional string ([None] and [''] are false). *)
Definition truthy_int (o : option Z) : bool :=
  match o with Some n => negb (n =? 0) | None => false end.

Definition truthy_str (o : option string) : bool :=
  match o with Some EmptyString | None => false | Some _ => true end.

(** [sorted(set(l), reverse=True)]: duplicates removed, largest first. *)
Fixpoint insert_desc (x : Z) (l : list Z) : list Z :=
  match l with
  | [] => [x]
  | y :: l' => if y <? x then x :: l
               else if y =? x then l
               else y :: insert_desc x l'
  end.

Definition sorted_set_desc (l : list Z) : list Z := foldr insert_desc [] l.

End Py.

(** ** datetime

    An aware UTC [datetime] is the number of microseconds since the epoch.
    The column [when_utc] holds [dt.isoformat()] of such a value, and
    [datetime.fromisoformat] reads the same value back, so the column is
    modelled by the instant itself.  Python's datetimes range over the years 1
    to 9999 and arithmetic that leaves the range raises [OverflowError]. *)
Module Datetime.

(** [datetime.min] (0001-01-01T00:00:00) and [datetime.max]
    (9999-12-31T23:59:59.999999). *)
Definition MIN : Z := -62135596800000000.
Definition MAX : Z := 253402300799999999.
Definition MINUTE : Z := 60000000.

(** [timedelta(minutes=m)] in microseconds; the number of days of a timedelta
    has magnitude at most 999999999.  [None] stands for [OverflowError]. *)
Definition timedelta_minutes (m : Z) : option Z :=
  let days := m `div` 1440 in
  if (-999999999 <=? days) && (days <=? 999999999) then Some (m * MINUTE) else None.

(** [dt - td] *)
Definition sub (dt td : Z) : option Z :=
  let r := dt - td in
  if (MIN <=? r) && (r <=? MAX) then Some r else None.

(** [dt - timedelta(minutes=m)] *)
Definition sub_minutes (dt m : Z) : option Z :=
  td ← timedelta_minutes m; sub dt td.

End Datetime.

(** ** The tables of remindbot.db *)

(** A row of [events]. *)
Record event_row := EventRow {
  ev_id : Z;
  ev_guild_id : Z;
  ev_channel_id : Z;
  ev_title : string;
  ev_when_utc : option Z;
  ev_cron : option string;
  ev_mention_role_id : option Z;
  ev_created_by : Z;
  ev_created_at : Z;
  ev_lead_minutes : option string;
  ev_message_id : option Z
}.

(** A row of [reminders]. *)
Record reminder_row := ReminderRow {
  rem_id : Z;
  rem_guild_id : option Z;
  rem_channel_id : option Z;
  rem_user_id : option Z;
  rem_message : string;
  rem_when_utc : Z;
  rem_mention_role_id : option Z;
  rem_created_at : Z
}.

(** A row of [event_rsvps]; its primary key is [(event_id, user_id)]. *)
Record rsvp_row := RsvpRow {
  rsvp_event_id : Z;
  rsvp_user_id : Z;
  rsvp_status : string;
  rsvp_updated_at : Z
}.

(** ** The scheduler's jobs *)

Inductive trigger :=
| DateTrigger (run_date : Z)
| CronTrigger (minute hour day month day_of_week : string).

(** What a job runs: the source's lambdas, with the values their default
    arguments captured when the job was added. *)
Inductive callback :=
| send_event_task (guild_id channel_id : Z) (title : string) (mention_role_id : option Z)
| send_reminder_task (reminder_id : Z).

Record job := Job { job_trigger : trigger; job_func : callback }.

(** [f"event:{ev_id}"], [f"event:{ev_id}:lead:{m}"], [f"reminder:{rem_id}"] *)
Definition event_job_id (ev_id : Z) : string := "event:" +:+ Py.str ev_id.
Definition lead_job_id (ev_id m : Z) : string :=
  "event:" +:+ Py.str ev_id +:+ ":lead:" +:+ Py.str m.
Definition reminder_job_id (rem_id : Z) : string := "reminder:" +:+ Py.str rem_id.

(** ** Discord *)

(** A call to the Discord API. *)
Inductive discord_call :=
| channel_send (channel_id : Z) (content : string)
| channel_send_embed (channel_id event_id : Z) (title : string)
| fetch_user (user_id : Z)
| user_send (user_id : Z) (content : string)
| message_edit (message_id event_id : Z).

Record channel := Channel { ch_id : Z; ch_is_text : bool }.

(** What a command handler reads of its [interaction]. *)
Record interaction := Interaction {
  i_guild_id : option Z;
  i_user_id : Z;
  i_channel : option channel
}.

(** The texts sent with [interaction.response.send_message]. *)
Inductive reply :=
| PickTextChannel
| ProvideWhenOrCron
| CouldNotParseTime
| BadLeadMinutes
| EventCreatedAndAnnounced (title : string) (lead_list : list Z)
| RecurringEventCreated (title cron : string)
| BadCronExpression
| EventDeleted (event_id : Z)
| EventNotFound
| ReminderSet
| ReminderDeleted (reminder_id : Z)
| ReminderNotFound
| RsvpUpdated (status : string).

Inductive log_entry :=
| BadCronForEvent (ev_id : Z).

(** ** The world and the monad of the bot's functions *)

Record world := World {
  events : list event_row;
  events_seq : Z;          (* sqlite_sequence of events (AUTOINCREMENT) *)
  reminders : list reminder_row;
  reminders_seq : Z;
  event_rsvps : list rsvp_row;
  user_prefs : list (Z * string);
  jobs : gmap string job;  (* the scheduler's job store *)
  discord_calls : list discord_call;  (* the calls made so far, oldest first *)
  log : list log_entry
}.

Definition set_events (f : list event_row → list event_row) (w : world) : world :=
  World (f (events w)) (events_seq w) (reminders w) (reminders_seq w)
        (event_rsvps w) (user_prefs w) (jobs w) (discord_calls w) (log w).
Definition set_events_seq (n : Z) (w : world) : world :=
  World (events w) n (reminders w) (reminders_seq w)
        (event_rsvps w) (user_prefs w) (jobs w) (discord_calls w) (log w).
Definition set_reminders (f : list reminder_row → list reminder_row) (w : world) : world :=
  World (events w) (events_seq w) (f (reminders w)) (reminders_seq w)
        (event_rsvps w) (user_prefs w) (jobs w) (discord_calls w) (log w).
Definition set_reminders_seq (n : Z) (w : world) : world :=
  World (events w) (events_seq w) (reminders w) n
        (event_rsvps w) (user_prefs w) (jobs w) (discord_calls w) (log w).
Definition set_event_rsvps (f : list rsvp_row → list rsvp_row) (w : world) : world :=
  World (events w) (events_seq w) (reminders w) (reminders_seq w)
        (f (event_rsvps w)) (user_prefs w) (jobs w) (discord_calls w) (log w).
Definition set_jobs (f : gmap string job → gmap string job) (w : world) : world :=
  World (events w) (events_seq w) (reminders w) (reminders_seq w)
        (event_rsvps w) (user_prefs w) (f (jobs w)) (discord_calls w) (log w).
Definition set_discord_calls (f : list discord_call → list discord_call) (w : world) : world :=
  World (events w) (events_seq w) (reminders w) (reminders_seq w)
        (event_rsvps w) (user_prefs w) (jobs w) (f (discord_calls w)) (log w).
Definition set_log (f : list log_entry → list log_entry) (w : world) : world :=
  World (events w) (events_seq w) (reminders w) (reminders_seq w)
        (event_rsvps w) (user_prefs w) (jobs w) (discord_calls w) (f (log w)).

(** INSERT INTO events: the row gets the next rowid of the AUTOINCREMENT
    sequence, which the caller reads as [cursor.lastrowid]. *)
Definition insert_event (r : event_row) (w : world) : world :=
  set_events_seq (ev_id r) (set_events (λ l, l ++ [r]) w).

Definition insert_reminder (r : reminder_row) (w : world) : world :=
  set_reminders_seq (rem_id r) (set_reminders (λ l, l ++ [r]) w).

(** A new database file after [init_db], and a scheduler with no job. *)
Definition fresh_world : world := World [] 0 [] 0 [] [] ∅ [] [].

Inductive exn :=
| OverflowError      (* datetime arithmetic out of range *)
| ValueError         (* int(), tuple unpacking, CronTrigger *)
| AttributeError
| TypeError          (* a call that does not match the signature *)
| NameError          (* a global name that is not defined *)
| IntegrityError     (* sqlite3: NOT NULL or FOREIGN KEY constraint failed *)
| JobLookupError     (* apscheduler: no job by that id *)
| HTTPException.     (* discord: Forbidden, NotFound, ... *)

Inductive result (A : Type) :=
| Ok (a : A)
| Raise (e : exn).
Arguments Ok {A} a.
Arguments Raise {A} e.

Definition M (A : Type) : Type := world → result A * world.

Definition ret {A} (a : A) : M A := λ w, (Ok a, w).
Definition bind {A B} (m : M A) (k : A → M B) : M B := λ w,
  match m w with
  | (Ok a, w') => k a w'
  | (Raise e, w') => (Raise e, w')
  end.
Definition raise {A} (e : exn) : M A := λ w, (Raise e, w).
(** [try: m  except Exception as e: h e] *)
Definition try_except {A} (m : M A) (h : exn → M A) : M A := λ w,
  match m w with
  | (Ok a, w') => (Ok a, w')
  | (Raise e, w') => h e w'
  end.
Definition gets {A} (f : world → A) : M A := λ w, (Ok (f w), w).
Definition modify (f : world → world) : M unit := λ w, (Ok tt, f w).
(** A value whose computation may raise [e]. *)
Definition or_raise {A} (e : exn) (o : option A) : M A :=
  match o with Some a => ret a | None => raise e end.

Declare Scope py_scope.
Delimit Scope py_scope with py.
Bind Scope py_scope with M.
Notation "x <- m ;; k" := (bind m (λ x, k))
  (at level 100, m at next level, right associativity) : py_scope.
Notation "m ;;; k" := (bind m (λ _, k))
  (at level 100, right associativity) : py_scope.
Local Open Scope py_scope.

(** [for x in l: body x] *)
Fixpoint for_each {A} (l : list A) (body : A → M unit) : M unit :=
  match l with
  | [] => ret tt
  | x :: l' => body x ;;; for_each l' body
  end.

(** [scheduler.add_job(..., id=id, replace_existing=True)] *)
Definition add_job (id : string) (j : job) : M unit :=
  modify (set_jobs (insert id j)).

(** [scheduler.remove_job(id)] raises [JobLookupError] when no job has the id. *)
Definition remove_job (id : string) : M unit := λ w,
  match jobs w !! id with
  | Some _ => modify (set_jobs (delete id)) w
  | None => raise JobLookupError w
  end.

(** [try: scheduler.remove_job(id)  except Exception: pass] *)
Definition try_remove_job (id : string) : M unit :=
  try_except (remove_job id) (λ _, ret tt).

(** ** The collaborators

    What the bot calls and this file does not define: dateparser, APScheduler's
    validation of cron fields, and Discord.  [discord_returns n c] tells whether
    the call [c], made after [n] earlier calls to Discord, returns; when it is
    false the call raises. *)
Record collaborators := Collaborators {
  parse_human_time : string → string → option Z;
  cron_trigger_ok : string → string → string → string → string → bool;
  get_guild : Z → bool;
  get_channel : Z → Z → option channel;
  discord_returns : nat → discord_call → bool;
  sent_message_id : nat → Z
}.

(** ** Lead offsets *)

(** [{int(x.strip()) for x in s.split(',') if x.strip()}] as the list of its
    values in the order of [s]; [None] when an [int] raises. *)
Definition parse_ints (s : string) : option (list Z) :=
  mapM (λ x, Py.int (Py.strip x))
       (filter (λ x, Py.strip x ≠ EmptyString) (Py.split_on "," s)).

(** [sorted({...}, reverse=True)] and then [[m for m in ... if m > 0]] *)
Definition lead_list_of (s : string) : option (list Z) :=
  l ← parse_ints s; Some (filter (λ m, 0 < m) (Py.sorted_set_desc l)).

(** The offsets reconciliation reads from a row: the column when it is not
    empty, and the empty list when parsing it raises. *)
Definition stored_leads (lead_str : option string) : list Z :=
  match lead_str with
  | Some s => if Py.truthy_str lead_str then default [] (lead_list_of s) else []
  | None => []
  end.

(** The [if lead_minutes:] block of [event_create]: the list of offsets, or
    [None] when it answers "Bad lead_minutes". *)
Definition lead_list_arg (lead_minutes : option string) : option (list Z) :=
  match lead_minutes with
  | Some s => if Py.truthy_str lead_minutes then lead_list_of s else Some []
  | None => Some []
  end.

(** [','.join(map(str, lead_list)) if lead_list else None] *)
Definition lead_column (lead_list : list Z) : option string :=
  match lead_list with
  | [] => None
  | _ => Some (Py.join "," (Py.str <$> lead_list))
  end.

Section Bot.

Variable C : collaborators.

(** One call to Discord: it is recorded, and it returns or raises. *)
Definition discord (c : discord_call) : M nat := λ w,
  let n := length (discord_calls w) in
  let w' := set_discord_calls (λ l, l ++ [c]) w in
  if discord_returns C n c then (Ok n, w') else (Raise HTTPException, w').

(** [user_timezone(user_id)] *)
Definition user_timezone (user_id : Z) : M string :=
  gets (λ w, match find (λ p, bool_decide (p.1 = user_id)) (user_prefs w) with
             | Some p => p.2
             | None => "America/Chicago"
             end).

(** [f" <@&{mention_role_id}>" if mention_role_id else ""] *)
Definition mention_suffix (mention_role_id : option Z) : string :=
  match mention_role_id with
  | Some r => if Py.truthy_int mention_role_id then " <@&" +:+ Py.str r +:+ ">" else ""
  | None => ""
  end.

(** [send_event(guild_id, channel_id, title, mention_role_id)] *)
Definition send_event (guild_id channel_id : Z) (title : string)
    (mention_role_id : option Z) : M unit :=
  if negb (get_guild C guild_id) then ret tt else
  match get_channel C guild_id channel_id with
  | Some ch =>
      if ch_is_text ch then
        _ <- discord (channel_send channel_id
               ("**Event Reminder:** " +:+ title +:+ mention_suffix mention_role_id)) ;;
        ret tt
      else ret tt
  | None => ret tt
  end.

(** [send_reminder(reminder_id)] *)
Definition send_reminder (reminder_id : Z) : M unit :=
  row <- gets (λ w, find (λ r, bool_decide (rem_id r = reminder_id)) (reminders w)) ;;
  match row with
  | None => ret tt
  | Some r =>
      let content := "**Reminder:** " +:+ rem_message r +:+ mention_suffix (rem_mention_role_id r) in
      (if Py.truthy_int (rem_channel_id r) then
         match rem_guild_id r, rem_channel_id r with
         | Some g, Some c =>
             if Py.truthy_int (rem_guild_id r) && get_guild C g then
               match get_channel C g c with
               | Some ch =>
                   if ch_is_text ch then _ <- discord (channel_send c content) ;; ret tt
                   else ret tt
               | None => ret tt
               end
             else ret tt
         | _, _ => ret tt
         end
       else
         match rem_user_id r with
         | Some u =>
             _ <- discord (fetch_user u) ;;
             _ <- discord (user_send u content) ;;
             ret tt
         | None => raise HTTPException   (* [bot.fetch_user(None)] *)
         end) ;;;
      modify (set_reminders (filter (λ r', rem_id r' ≠ reminder_id)))
  end.

(** The arguments of a Python call, as far as the calls of
    [update_announcement_message] go. *)
Inductive pyarg :=
| ArgInt (n : Z)
| ArgMessage (message_id author_id : Z).

(** [update_announcement_message(event_id, message)], applied to its positional
    arguments.  Its body looks the event up and, when the row exists, calls
    [get_rsvp_counts], a name the module never defines; the statements after
    that call are never reached. *)
Definition update_announcement_message (args : list pyarg) : M unit :=
  match args with
  | [ArgInt event_id; ArgMessage _ _] =>
      row <- gets (λ w, find (λ r, bool_decide (ev_id r = event_id)) (events w)) ;;
      match row with
      | None => ret tt
      | Some _ => raise NameError
      end
  | _ => raise TypeError
  end.

(** [announce_event(event_id, channel, requester_user_id)] *)
Definition announce_event (event_id : Z) (ch : channel) (requester_user_id : Z) : M unit :=
  row <- gets (λ w, find (λ r, bool_decide (ev_id r = event_id)) (events w)) ;;
  match row with
  | None => ret tt
  | Some r =>
      _ <- user_timezone requester_user_id ;;
      n <- discord (channel_send_embed (ch_id ch) event_id (ev_title r)) ;;
      modify (set_events (fmap (λ r' : event_row,
        if bool_decide (ev_id r' = event_id)
        then EventRow (ev_id r') (ev_guild_id r') (ev_channel_id r') (ev_title r')
               (ev_when_utc r') (ev_cron r') (ev_mention_role_id r') (ev_created_by r')
               (ev_created_at r') (ev_lead_minutes r') (Some (sent_message_id C n))
        else r')))
  end.

(** The INSERT ... ON CONFLICT(event_id, user_id) DO UPDATE of [_set_status].
    A new row needs its event to exist: the connection runs with
    [PRAGMA foreign_keys = ON]. *)
Definition upsert_rsvp (event_id user_id : Z) (status : string) (now : Z) : M unit := λ w,
  if existsb (λ v, bool_decide (rsvp_event_id v = event_id ∧ rsvp_user_id v = user_id))
       (event_rsvps w)
  then modify (set_event_rsvps (fmap (λ v : rsvp_row,
         if bool_decide (rsvp_event_id v = event_id ∧ rsvp_user_id v = user_id)
         then RsvpRow event_id user_id status now else v))) w
  else if existsb (λ r, bool_decide (ev_id r = event_id)) (events w)
  then modify (set_event_rsvps (λ l, l ++ [RsvpRow event_id user_id status now])) w
  else raise IntegrityError w.

(** [RSVPView(event_id)._set_status(interaction, status)] at the time [now] *)
Definition _set_status (now : Z) (event_id : Z) (i : interaction) (status : string) : M reply :=
  upsert_rsvp event_id (i_user_id i) status now ;;;
  update_announcement_message [ArgInt event_id] ;;;
  ret (RsvpUpdated status).

(** The loop over the lead offsets, written twice in the source (in
    [schedule_loaded_jobs] and in [event_create]). *)
Definition schedule_leads (now ev_id guild_id channel_id : Z) (title : string)
    (mention_role_id : option Z) (run_dt : Z) (mins_list : list Z) : M unit :=
  for_each mins_list (λ m,
    lead_dt <- or_raise OverflowError (Datetime.sub_minutes run_dt m) ;;
    if bool_decide (now < lead_dt) then
      add_job (lead_job_id ev_id m)
        (Job (DateTrigger lead_dt)
             (send_event_task guild_id channel_id
                (title +:+ " starts in " +:+ Py.str m +:+ " min") mention_role_id))
    else ret tt).

(** [minute, hour, dom, month, dow = cron_expr.split()] and the [CronTrigger]
    built from the five fields; both raise [ValueError]. *)
Definition cron_trigger_of (cron_expr : string) : option trigger :=
  match Py.split cron_expr with
  | [minute; hour; dom; month; dow] =>
      if cron_trigger_ok C minute hour dom month dow
      then Some (CronTrigger minute hour dom month dow)
      else None
  | _ => None
  end.

Definition cron_trigger (cron_expr : string) : M trigger :=
  or_raise ValueError (cron_trigger_of cron_expr).

(** [schedule_loaded_jobs()], with [now] the reading of the clock. *)
Definition schedule_loaded_jobs (now : Z) : M unit :=
  rows <- gets (λ w, filter (λ r, is_Some (ev_when_utc r)) (events w)) ;;
  for_each rows (λ r,
    match ev_when_utc r with
    | None => ret tt
    | Some run_dt =>
        (if bool_decide (now < run_dt) then
           add_job (event_job_id (ev_id r))
             (Job (DateTrigger run_dt)
                  (send_event_task (ev_guild_id r) (ev_channel_id r) (ev_title r)
                     (ev_mention_role_id r)))
         else ret tt) ;;;
        schedule_leads now (ev_id r) (ev_guild_id r) (ev_channel_id r) (ev_title r)
          (ev_mention_role_id r) run_dt (stored_leads (ev_lead_minutes r))
    end) ;;;
  rows <- gets (λ w, filter (λ r, is_Some (ev_cron r)) (events w)) ;;
  for_each rows (λ r,
    match ev_cron r with
    | None => ret tt
    | Some cron_expr =>
        try_except
          (t <- cron_trigger cron_expr ;;
           add_job (event_job_id (ev_id r))
             (Job t (send_event_task (ev_guild_id r) (ev_channel_id r) (ev_title r)
                       (ev_mention_role_id r))))
          (λ _, modify (set_log (λ l, l ++ [BadCronForEvent (ev_id r)])))
    end) ;;;
  rows <- gets reminders ;;
  for_each rows (λ r,
    if bool_decide (now < rem_when_utc r) then
      add_job (reminder_job_id (rem_id r))
        (Job (DateTrigger (rem_when_utc r)) (send_reminder_task (rem_id r)))
    else ret tt).

(** [event_create(interaction, title, when, channel, mention_role, cron,
    lead_minutes)] at the time [now]; a role is given by its id. *)
Definition event_create (now : Z) (i : interaction) (title : string)
    (when : option string) (channel_arg : option channel) (mention_role : option Z)
    (cron : option string) (lead_minutes : option string) : M reply :=
  match (match channel_arg with Some c => Some c | None => i_channel i end) with
  | None => ret PickTextChannel
  | Some ch =>
  if negb (ch_is_text ch) then ret PickTextChannel else
  if negb (Py.truthy_str when) && negb (Py.truthy_str cron) then ret ProvideWhenOrCron else
  parsed <- match when with
            | Some s =>
                if Py.truthy_str when then
                  tz <- user_timezone (i_user_id i) ;;
                  ret (match parse_human_time C s tz with
                       | Some dt_utc => Some (Some dt_utc)
                       | None => None
                       end)
                else ret (Some None)
            | None => ret (Some None)
            end ;;
  match parsed with
  | None => ret CouldNotParseTime
  | Some when_utc_iso =>
  match lead_list_arg lead_minutes with
  | None => ret BadLeadMinutes
  | Some lead_list =>
  (* INSERT INTO events; [guild_id] is NOT NULL *)
  guild_id <- or_raise IntegrityError (i_guild_id i) ;;
  ev_id <- gets (λ w, events_seq w + 1) ;;
  modify (insert_event
    (EventRow ev_id guild_id (ch_id ch) title when_utc_iso cron mention_role
       (i_user_id i) now (lead_column lead_list) None)) ;;;
  match when_utc_iso with
  | Some run_dt =>
      add_job (event_job_id ev_id)
        (Job (DateTrigger run_dt) (send_event_task guild_id (ch_id ch) title mention_role)) ;;;
      schedule_leads now ev_id guild_id (ch_id ch) title mention_role run_dt lead_list ;;;
      _ <- user_timezone (i_user_id i) ;;
      announce_event ev_id ch (i_user_id i) ;;;
      ret (EventCreatedAndAnnounced title lead_list)
  | None =>
      try_except
        (match cron with
         | None => raise AttributeError
         | Some cron_expr =>
             t <- cron_trigger cron_expr ;;
             add_job (event_job_id ev_id)
               (Job t (send_event_task guild_id (ch_id ch) title mention_role)) ;;;
             ret (RecurringEventCreated title cron_expr)
         end)
        (λ _, ret BadCronExpression)
  end
  end
  end
  end.

(** [WHERE id=? AND guild_id=?] with [(event_id, interaction.guild_id)]; the
    comparison with a NULL parameter holds for no row. *)
Definition event_selected (i : interaction) (event_id : Z) (r : event_row) : Prop :=
  ev_id r = event_id ∧ i_guild_id i = Some (ev_guild_id r).

(** [WHERE id=? AND user_id=?] with [(reminder_id, interaction.user.id)] *)
Definition reminder_selected (i : interaction) (reminder_id : Z) (r : reminder_row) : Prop :=
  rem_id r = reminder_id ∧ rem_user_id r = Some (i_user_id i).

#[global] Instance event_selected_dec i event_id r : Decision (event_selected i event_id r).
Proof. unfold event_selected. apply _. Defined.

#[global] Instance reminder_selected_dec i reminder_id r :
  Decision (reminder_selected i reminder_id r).
Proof. unfold reminder_selected. apply _. Defined.

(** [event_delete(interaction, event_id)] *)
Definition event_delete (i : interaction) (event_id : Z) : M reply :=
  let selected := event_selected i event_id in
  try_remove_job (event_job_id event_id) ;;;
  row <- gets (λ w, find (λ r, bool_decide (selected r)) (events w)) ;;
  match row with
  | Some r =>
      match ev_lead_minutes r with
      | Some s =>
          if Py.truthy_str (ev_lead_minutes r) then
            try_except
              (l <- or_raise ValueError (parse_ints s) ;;
               for_each (remove_dups l) (λ m, try_remove_job (lead_job_id event_id m)))
              (λ _, ret tt)
          else ret tt
      | None => ret tt
      end
  | None => ret tt
  end ;;;
  (* DELETE FROM events; the rows of event_rsvps go with their event *)
  deleted <- gets (λ w, length (filter selected (events w))) ;;
  modify (λ w,
    set_events (filter (λ r, ¬ selected r))
      (if bool_decide (deleted = 0%nat) then w
       else set_event_rsvps (filter (λ v, rsvp_event_id v ≠ event_id)) w)) ;;;
  if bool_decide (deleted = 0%nat) then ret EventNotFound else ret (EventDeleted event_id).

(** [remind_add(interaction, when, message, channel, mention_role)] *)
Definition remind_add (now : Z) (i : interaction) (when message : string)
    (channel_arg : option channel) (mention_role : option Z) : M reply :=
  tz <- user_timezone (i_user_id i) ;;
  match parse_human_time C when tz with
  | None => ret CouldNotParseTime
  | Some dt_utc =>
      rem_id <- gets (λ w, reminders_seq w + 1) ;;
      modify (insert_reminder
        (ReminderRow rem_id (i_guild_id i) (ch_id <$> channel_arg) (Some (i_user_id i))
           message dt_utc mention_role now)) ;;;
      add_job (reminder_job_id rem_id)
        (Job (DateTrigger dt_utc) (send_reminder_task rem_id)) ;;;
      ret ReminderSet
  end.

(** [remind_delete(interaction, reminder_id)] *)
Definition remind_delete (i : interaction) (reminder_id : Z) : M reply :=
  let selected := reminder_selected i reminder_id in
  try_remove_job (reminder_job_id reminder_id) ;;;
  deleted <- gets (λ w, length (filter selected (reminders w))) ;;
  modify (set_reminders (filter (λ r, ¬ selected r))) ;;;
  if bool_decide (deleted = 0%nat) then ret ReminderNotFound
  else ret (ReminderDeleted reminder_id).

(** What a job does when it runs. *)
Definition run_callback (f : callback) : M unit :=
  match f with
  | send_event_task g c t r => send_event g c t r
  | send_reminder_task r => send_reminder r
  end.

(** The scheduler runs the job [id].  Only a job of the job store can run; a
    job with a [DateTrigger] leaves the store when it runs. *)
Definition fire (id : string) (w : world) : option (result unit * world) :=
  match jobs w !! id with
  | None => None
  | Some j =>
      Some ((match job_trigger j with
             | DateTrigger _ => modify (set_jobs (delete id))
             | CronTrigger _ _ _ _ _ => ret tt
             end ;;; run_callback (job_func j)) w)
  end.

End Bot.

(** ** The rest of bot.py *)

(** [s.count(c)] for a one-character [c]. *)
Fixpoint count_char (c : ascii) (s : string) : nat :=
  match s with
  | EmptyString => 0%nat
  | String c' s' => if Ascii.eqb c' c then S (count_char c s') else count_char c s'
  end.

(** [s.startswith(p)] *)
Fixpoint startswith (p s : string) : bool :=
  match p, s with
  | EmptyString, _ => true
  | String a p', String b s' => Ascii.eqb a b && startswith p' s'
  | String _ _, EmptyString => false
  end.

(** [token_looks_valid(t)]:
    [bool(t) and t.count(".") == 2 and not t.startswith("mfa.")] *)
Definition token_looks_valid (t : string) : bool :=
  Py.truthy_str (Some t) && (count_char "." t =? 2)%nat && negb (startswith "mfa." t).

(** The row with another [message_id]. *)
Definition with_message_id (r : event_row) (message_id : option Z) : event_row :=
  EventRow (ev_id r) (ev_guild_id r) (ev_channel_id r) (ev_title r) (ev_when_utc r) (ev_cron r)
    (ev_mention_role_id r) (ev_created_by r) (ev_created_at r) (ev_lead_minutes r) message_id.

Definition set_user_prefs (f : list (Z * string) → list (Z * string)) (w : world) : world :=
  World (events w) (events_seq w) (reminders w) (reminders_seq w)
        (event_rsvps w) (f (user_prefs w)) (jobs w) (discord_calls w) (log w).

(** The answers of the commands below.  A listing is given by the values its
    lines interpolate. *)
Inductive timezone_reply :=
| UnknownTimezone
| TimezoneSet (tz : string).

Inductive rsvps_reply :=
| NoRsvpsYet
| RsvpLines (going maybe not : list Z).

Record event_line := EventLine {
  el_id : Z;
  el_title : string;
  el_when : string + option string;   (* the formatted instant, or the cron column *)
  el_where : string;
  el_role_txt : string;
  el_lead_txt : string
}.

Inductive event_list_reply :=
| NoEventsYet
| EventLines (lines : list event_line).

Record reminder_line := ReminderLine {
  rl_id : Z;
  rl_when : string;
  rl_where : string;
  rl_role_txt : string;
  rl_message : string
}.

Inductive remind_list_reply :=
| NoReminders
| ReminderLines (lines : list reminder_line).

Inductive announce_reply :=
| AnnouncePickTextChannel
| AnnounceEventNotFound
| Announced (channel_id : Z).

(** [ORDER BY CASE WHEN when_utc IS NULL THEN 1 ELSE 0 END, when_utc ASC]: the
    dated rows first, by instant, then the others.  The column holds the
    [isoformat] of a UTC datetime, whose order as text is the order of the
    instants.  SQLite leaves the order of equal rows open; [merge_sort] settles
    it one way. *)
Definition event_order (r1 r2 : event_row) : Prop :=
  match ev_when_utc r1, ev_when_utc r2 with
  | Some a, Some b => a ≤ b
  | Some _, None => True
  | None, Some _ => False
  | None, None => True
  end.

#[global] Instance event_order_dec r1 r2 : Decision (event_order r1 r2).
Proof. unfold event_order. destruct (ev_when_utc r1), (ev_when_utc r2); apply _. Defined.

(** [ORDER BY when_utc ASC] on [reminders] *)
Definition reminder_order (r1 r2 : reminder_row) : Prop := rem_when_utc r1 ≤ rem_when_utc r2.

#[global] Instance reminder_order_dec r1 r2 : Decision (reminder_order r1 r2).
Proof. unfold reminder_order. apply _. Defined.

(** [SELECT status, GROUP_CONCAT(user_id) FROM event_rsvps WHERE event_id=?
    GROUP BY status]: one row for each status the event has a vote with, holding
    the decimal user ids joined by commas.  SQLite leaves the order of the ids
    open; the model takes the order of the table. *)
Definition rsvp_groups (event_id : Z) (l : list rsvp_row) : list (string * string) :=
  let rows := filter (λ v, rsvp_event_id v = event_id) l in
  (λ s, (s, Py.join "," (Py.str <$>
               (rsvp_user_id <$> filter (λ v, rsvp_status v = s) rows))))
    <$> remove_dups (rsvp_status <$> rows).

(** One round of the loop of [compute_rsvp_counts]; [None] when an [int]
    raises. *)
Definition counts_step (counts : gmap string (list Z)) (row : string * string)
    : option (gmap string (list Z)) :=
  if negb (Py.truthy_str (Some row.2)) then Some counts
  else ids ← mapM Py.int (Py.split_on "," row.2); Some (<[row.1 := ids]> counts).

(** [{"going": [], "maybe": [], "not": []}] *)
Definition empty_counts : gmap string (list Z) :=
  <["going" := []]> (<["maybe" := []]> (<["not" := []]> ∅)).

(** [compute_rsvp_counts(event_id)] *)
Definition compute_rsvp_counts (event_id : Z) : M (gmap string (list Z)) :=
  rows <- gets (λ w, rsvp_groups event_id (event_rsvps w)) ;;
  or_raise ValueError
    (foldl (λ acc row, acc ≫= λ counts, counts_step counts row) (Some empty_counts) rows).

(** [format_rsvp_lines(counts)]: the three lists its lines show, as
    [counts.get(..., [])] reads them. *)
Definition format_rsvp_lines (counts : gmap string (list Z)) : list Z * list Z * list Z :=
  (default [] (counts !! "going"), default [] (counts !! "maybe"), default [] (counts !! "not")).

(** [any(counts.values())] *)
Definition any_values (counts : gmap string (list Z)) : bool :=
  existsb (λ kv, negb (bool_decide (kv.2 = []))) (map_to_list counts).

(** [event_rsvps(interaction, event_id)] *)
Definition event_rsvps_command (i : interaction) (event_id : Z) : M rsvps_reply :=
  counts <- compute_rsvp_counts event_id ;;
  if negb (any_values counts) then ret NoRsvpsYet
  else let '(g, m, n) := format_rsvp_lines counts in ret (RsvpLines g m n).

Section Commands.

Variable C : collaborators.

(** [pytz.timezone(tz)] returns for the names it knows and raises for the
    others. *)
Variable known_timezone : string → bool.

(** [fmt_when_for_user(dt_utc, tz_name)]; [None] stands for the
    [OverflowError] of a local time outside the years 1 to 9999. *)
Variable fmt_when_for_user : Z → string → option string.

(** [timezone_set(interaction, tz)] *)
Definition timezone_set (i : interaction) (tz : string) : M timezone_reply :=
  if negb (known_timezone tz) then ret UnknownTimezone else
  modify (set_user_prefs (λ l,
    if existsb (λ p, bool_decide (p.1 = i_user_id i)) l
    then (λ p : Z * string, if bool_decide (p.1 = i_user_id i) then (i_user_id i, tz) else p) <$> l
    else l ++ [(i_user_id i, tz)])) ;;;
  ret (TimezoneSet tz).

(** One line of [event_list]. *)
Definition event_line_of (user_tz : string) (r : event_row) : option event_line :=
  let where_ := "in <#" +:+ Py.str (ev_channel_id r) +:+ ">" in
  let role_txt :=
    match ev_mention_role_id r with
    | Some role_id =>
        if Py.truthy_int (ev_mention_role_id r)
        then " (mentions <@&" +:+ Py.str role_id +:+ ">)" else ""
    | None => ""
    end in
  let lead_txt :=
    match ev_lead_minutes r with
    | Some lead_str =>
        if Py.truthy_str (ev_lead_minutes r) then " [lead: " +:+ lead_str +:+ "]" else ""
    | None => ""
    end in
  match ev_when_utc r with
  | Some dt_utc =>
      pretty ← fmt_when_for_user dt_utc user_tz;
      Some (EventLine (ev_id r) (ev_title r) (inl pretty) where_ role_txt lead_txt)
  | None => Some (EventLine (ev_id r) (ev_title r) (inr (ev_cron r)) where_ role_txt lead_txt)
  end.

(** The rows [event_list] selects: [WHERE guild_id=? ORDER BY ... LIMIT 20]. *)
Definition listed_events (i : interaction) (w : world) : list event_row :=
  take 20 (merge_sort event_order
             (filter (λ r, i_guild_id i = Some (ev_guild_id r)) (events w))).

(** [event_list(interaction)] *)
Definition event_list (i : interaction) : M event_list_reply :=
  rows <- gets (listed_events i) ;;
  match rows with
  | [] => ret NoEventsYet
  | _ =>
      user_tz <- user_timezone (i_user_id i) ;;
      lines <- or_raise OverflowError (mapM (event_line_of user_tz) rows) ;;
      ret (EventLines lines)
  end.

(** One line of [remind_list]. *)
Definition reminder_line_of (tz : string) (r : reminder_row) : option reminder_line :=
  pretty ← fmt_when_for_user (rem_when_utc r) tz;
  let where_ :=
    match rem_channel_id r with
    | Some channel_id =>
        if Py.truthy_int (rem_channel_id r) then "in <#" +:+ Py.str channel_id +:+ ">"
        else "in DM"
    | None => "in DM"
    end in
  let role_txt :=
    match rem_mention_role_id r with
    | Some role_id =>
        if Py.truthy_int (rem_mention_role_id r)
        then " (mentions <@&" +:+ Py.str role_id +:+ ">)" else ""
    | None => ""
    end in
  Some (ReminderLine (rem_id r) pretty where_ role_txt (rem_message r)).

(** The rows [remind_list] selects: [WHERE user_id=? ORDER BY when_utc ASC
    LIMIT 20]. *)
Definition listed_reminders (i : interaction) (w : world) : list reminder_row :=
  take 20 (merge_sort reminder_order
             (filter (λ r, rem_user_id r = Some (i_user_id i)) (reminders w))).

(** [remind_list(interaction)] *)
Definition remind_list (i : interaction) : M remind_list_reply :=
  rows <- gets (listed_reminders i) ;;
  match rows with
  | [] => ret NoReminders
  | _ =>
      tz <- user_timezone (i_user_id i) ;;
      lines <- or_raise OverflowError (mapM (reminder_line_of tz) rows) ;;
      ret (ReminderLines lines)
  end.

(** [event_announce(interaction, event_id, channel)] *)
Definition event_announce (i : interaction) (event_id : Z) (channel_arg : option channel)
    : M announce_reply :=
  match (match channel_arg with Some c => Some c | None => i_channel i end) with
  | None => ret AnnouncePickTextChannel
  | Some ch =>
  if negb (ch_is_text ch) then ret AnnouncePickTextChannel else
  row <- gets (λ w, find (λ r, bool_decide (event_selected i event_id r)) (events w)) ;;
  match row with
  | None => ret AnnounceEventNotFound
  | Some r =>
      creator_tz <- user_timezone (i_user_id i) ;;
      _ <- match ev_when_utc r with
           | Some dt_utc => or_raise OverflowError (fmt_when_for_user dt_utc creator_tz)
           | None => ret "recurring"
           end ;;
      n <- discord C (channel_send_embed (ch_id ch) event_id (ev_title r)) ;;
      modify (set_events (fmap (λ r' : event_row,
        if bool_decide (ev_id r' = event_id)
        then with_message_id r' (Some (sent_message_id C n)) else r'))) ;;;
      ret (Announced (ch_id ch))
  end
  end.

End Commands.

(** ** The schema of remindbot.db

    SQLite compares the names of tables and columns without regard to the
    case of ASCII letters; Python's [in] compares strings exactly.  A schema
    maps the name of a table, in lower case, to the names of its columns, in
    the order and the spelling they were created with. *)

Definition lower_char (c : ascii) : ascii :=
  let n := N_of_ascii c in
  if ((65 <=? n) && (n <=? 90))%N then ascii_of_N (n + 32) else c.

Fixpoint lower (s : string) : string :=
  match s with
  | EmptyString => EmptyString
  | String c s' => String (lower_char c) (lower s')
  end.

(** [CREATE TABLE IF NOT EXISTS table (cols)] *)
Definition create_table_if_not_exists (table : string) (cols : list string) (s : gmap string (list string))
    : gmap string (list string) :=
  match s !! lower table with
  | Some _ => s
  | None => <[lower table := cols]> s
  end.

(** [PRAGMA table_info(table)]: the names of the columns; no row for a table
    that does not exist. *)
Definition table_info (table : string) (s : gmap string (list string)) : list string :=
  default [] (s !! lower table).

(** [ALTER TABLE table ADD COLUMN column ddl]; [None] stands for
    [sqlite3.OperationalError] (no such table, duplicate column name). *)
Definition add_column (table column : string) (s : gmap string (list string)) : option (gmap string (list string)) :=
  cols ← s !! lower table;
  if bool_decide (lower column ∈ lower <$> cols) then None
  else Some (<[lower table := cols ++ [column]]> s).

(** [ensure_column(conn, table, column, ddl)] *)
Definition ensure_column (table column : string) (s : gmap string (list string)) : option (gmap string (list string)) :=
  if bool_decide (column ∈ table_info table s) then Some s
  else add_column table column s.

(** [init_db()]: whether it returns, and the schema it leaves (each statement
    is committed on its own). *)
Definition init_db (s : gmap string (list string)) : bool * gmap string (list string) :=
  let s := create_table_if_not_exists "user_prefs" ["user_id"; "tz"] s in
  let s := create_table_if_not_exists "events"
             ["id"; "guild_id"; "channel_id"; "title"; "when_utc"; "cron"; "mention_role_id";
              "created_by"; "created_at"] s in
  let s := create_table_if_not_exists "reminders"
             ["id"; "guild_id"; "channel_id"; "user_id"; "message"; "when_utc";
              "mention_role_id"; "created_at"] s in
  match ensure_column "events" "lead_minutes" s with
  | None => (false, s)
  | Some s =>
      match ensure_column "events" "message_id" s with
      | None => (false, s)
      | Some s =>
          (true, create_table_if_not_exists "event_rsvps"
                   ["event_id"; "user_id"; "status"; "updated_at"] s)
      end
  end.

(** ** Start-up *)

(** The process: the schema of its database file, [scheduler.running], and
    the world of the handlers. *)
Record process := Process {
  db_schema : gmap string (list string);
  running : bool;
  store : world
}.

Inductive on_ready_result :=
| Started
| InitDbRaised
| SyncRaised
| ReconcileRaised (e : exn).

(** [on_ready()] at the time [now]; [sync_returns] tells whether
    [tree.sync()] returns.  [scheduler.start()] comes before
    [schedule_loaded_jobs()]. *)
Definition on_ready (C : collaborators) (now : Z) (sync_returns : bool) (p : process)
    : on_ready_result * process :=
  match init_db (db_schema p) with
  | (false, s) => (InitDbRaised, Process s (running p) (store p))
  | (true, s) =>
      if negb sync_returns then (SyncRaised, Process s (running p) (store p))
      else if negb (running p) then
        match schedule_loaded_jobs C now (store p) with
        | (Ok _, w) => (Started, Process s true w)
        | (Raise e, w) => (ReconcileRaised e, Process s true w)
        end
      else (Started, Process s (running p) (store p))
  end.

(** ** Auxiliary definitions for the statements *)

(** The jobs a call adds, in the order of the calls to [add_job]. *)
Definition apply_plan (p : list (string * job)) (j : gmap string job) : gmap string job :=
  foldl (λ j kv, <[kv.1 := kv.2]> j) j p.

(** The job of one lead offset: none when the lead instant is not after [now]
    (or is not a datetime at all). *)
Definition lead_job (now ev_id guild_id channel_id : Z) (title : string)
    (mention_role_id : option Z) (run_dt m : Z) : option (string * job) :=
  lead_dt ← Datetime.sub_minutes run_dt m;
  if bool_decide (now < lead_dt) then
    Some (lead_job_id ev_id m,
          Job (DateTrigger lead_dt)
              (send_event_task guild_id channel_id
                 (title +:+ " starts in " +:+ Py.str m +:+ " min") mention_role_id))
  else None.

(** The date job of an event row. *)
Definition date_job (r : event_row) (run_dt : Z) : job :=
  Job (DateTrigger run_dt)
      (send_event_task (ev_guild_id r) (ev_channel_id r) (ev_title r) (ev_mention_role_id r)).

(** Every lead instant of the row is a datetime: the lead loop does not raise. *)
Definition row_leads_in_range (r : event_row) : Prop :=
  match ev_when_utc r with
  | Some run_dt =>
      Forall (λ m, is_Some (Datetime.sub_minutes run_dt m)) (stored_leads (ev_lead_minutes r))
  | None => True
  end.

Definition leads_in_range (w : world) : Prop := Forall row_leads_in_range (events w).

(** The jobs and the log entries [schedule_loaded_jobs] adds for one row. *)
Definition abs_plan (now : Z) (r : event_row) : list (string * job) :=
  match ev_when_utc r with
  | Some run_dt =>
      (if bool_decide (now < run_dt) then [(event_job_id (ev_id r), date_job r run_dt)] else [])
      ++ omap (lead_job now (ev_id r) (ev_guild_id r) (ev_channel_id r) (ev_title r)
                 (ev_mention_role_id r) run_dt) (stored_leads (ev_lead_minutes r))
  | None => []
  end.

Definition cron_job (r : event_row) (t : trigger) : job :=
  Job t (send_event_task (ev_guild_id r) (ev_channel_id r) (ev_title r) (ev_mention_role_id r)).

Definition cron_plan (C : collaborators) (r : event_row) : list (string * job) :=
  match ev_cron r ≫= cron_trigger_of C with
  | Some t => [(event_job_id (ev_id r), cron_job r t)]
  | None => []
  end.

Definition cron_log (C : collaborators) (r : event_row) : list log_entry :=
  match ev_cron r with
  | Some c => match cron_trigger_of C c with Some _ => [] | None => [BadCronForEvent (ev_id r)] end
  | None => []
  end.

Definition reminder_job (r : reminder_row) : job :=
  Job (DateTrigger (rem_when_utc r)) (send_reminder_task (rem_id r)).

Definition reminder_plan (now : Z) (r : reminder_row) : list (string * job) :=
  if bool_decide (now < rem_when_utc r) then [(reminder_job_id (rem_id r), reminder_job r)] else [].

Definition reconcile_plan (C : collaborators) (now : Z) (w : world) : list (string * job) :=
  (filter (λ r, is_Some (ev_when_utc r)) (events w) ≫= abs_plan now)
  ++ (filter (λ r, is_Some (ev_cron r)) (events w) ≫= cron_plan C)
  ++ (reminders w ≫= reminder_plan now).

(** A world after some calls to [add_job] and some warnings. *)
Definition step (p : list (string * job)) (lg : list log_entry) (w : world) : world :=
  set_log (λ l, l ++ lg) (set_jobs (apply_plan p) w).

(** The primary keys of the tables. *)
Definition ids_unique (w : world) : Prop :=
  NoDup (ev_id <$> events w) ∧ NoDup (rem_id <$> reminders w).

Definition rsvp_key (v : rsvp_row) : Z * Z := (rsvp_event_id v, rsvp_user_id v).

Definition rsvp_keys_unique (w : world) : Prop := NoDup (rsvp_key <$> event_rsvps w).

#[global] Instance row_leads_in_range_dec r : Decision (row_leads_in_range r).
Proof. unfold row_leads_in_range. destruct (ev_when_utc r); apply _. Defined.

#[global] Instance leads_in_range_dec w : Decision (leads_in_range w).
Proof. unfold leads_in_range. apply _. Defined.

Definition new_event_row (now : Z) (i : interaction) (g : Z) (ch : channel) (title : string)
    (when_utc : option Z) (cron : option string) (role : option Z) (lead_list : list Z)
    (w : world) : event_row :=
  EventRow (events_seq w + 1) g (ch_id ch) title when_utc cron role (i_user_id i) now
    (lead_column lead_list) None.

(** Two rows that differ at most in [message_id]. *)
Definition same_but_message (r r' : event_row) : Prop :=
  ev_id r' = ev_id r ∧ ev_guild_id r' = ev_guild_id r ∧ ev_channel_id r' = ev_channel_id r ∧
  ev_title r' = ev_title r ∧ ev_when_utc r' = ev_when_utc r ∧ ev_cron r' = ev_cron r ∧
  ev_mention_role_id r' = ev_mention_role_id r ∧ ev_lead_minutes r' = ev_lead_minutes r.

(** The job store after [remove_job] on each of the ids. *)
Definition cancel_all (ids : list string) (j : gmap string job) : gmap string job :=
  foldl (λ j id, delete id j) j ids.

(** The offsets whose lead jobs [event_delete] cancels for a row. *)
Definition cancelled_leads (r : event_row) : list Z :=
  match ev_lead_minutes r with
  | Some s => if Py.truthy_str (ev_lead_minutes r)
              then from_option remove_dups [] (parse_ints s) else []
  | None => []
  end.

(** The tables of the database. *)
Definition durable (w : world) :=
  (events w, events_seq w, reminders w, reminders_seq w, event_rsvps w, user_prefs w).

(** The ids in use, the AUTOINCREMENT sequences and the votes. *)
Definition table_ids (w : world) : list Z * Z * list Z * Z * list rsvp_row :=
  (ev_id <$> events w, events_seq w, rem_id <$> reminders w, reminders_seq w, event_rsvps w).

(** The primary keys are unique and the sequences are not behind the ids. *)
Definition store_ok (w : world) : Prop :=
  ids_unique w ∧ rsvp_keys_unique w ∧
  Forall (λ id, id ≤ events_seq w) (ev_id <$> events w) ∧
  Forall (λ id, id ≤ reminders_seq w) (rem_id <$> reminders w).

(** A computation that keeps a property of the world, however it ends. *)
Definition preserves {A} (P : world → Prop) (m : M A) : Prop := ∀ w, P w → P (m w).2.

(** A computation that adds no row and removes none. *)
Definition keeps_ids {A} (m : M A) : Prop := ∀ w, table_ids (m w).2 = table_ids w.

(** A click, a command or a tick of the scheduler. *)
Inductive action :=
| do_event_create (now : Z) (i : interaction) (title : string) (when : option string)
    (channel_arg : option channel) (mention_role : option Z) (cron lead_minutes : option string)
| do_event_delete (i : interaction) (event_id : Z)
| do_remind_add (now : Z) (i : interaction) (when message : string)
    (channel_arg : option channel) (mention_role : option Z)
| do_remind_delete (i : interaction) (reminder_id : Z)
| do_set_status (now event_id : Z) (i : interaction) (status : string)
| do_schedule_loaded_jobs (now : Z)
| do_fire (id : string).

Definition run_action (C : collaborators) (a : action) (w : world) : world :=
  match a with
  | do_event_create now i title when ch role cron ls =>
      (event_create C now i title when ch role cron ls w).2
  | do_event_delete i event_id => (event_delete i event_id w).2
  | do_remind_add now i when message ch role => (remind_add C now i when message ch role w).2
  | do_remind_delete i reminder_id => (remind_delete i reminder_id w).2
  | do_set_status now event_id i status => (_set_status now event_id i status w).2
  | do_schedule_loaded_jobs now => (schedule_loaded_jobs C now w).2
  | do_fire id => from_option snd w (fire C id w)
  end.

(** The worlds the bot can be in, from a new database. *)
Inductive reachable (C : collaborators) : world → Prop :=
| reachable_fresh : reachable C fresh_world
| reachable_step a w : reachable C w → reachable C (run_action C a w).

(** Every character of the string satisfies [p]. *)
Fixpoint all_chars (p : ascii → bool) (s : string) : bool :=
  match s with
  | EmptyString => true
  | String c s' => p c && all_chars p s'
  end.

Definition is_digit (c : ascii) : bool := bool_decide (is_Some (Py.digit_of c)).

(** Largest first, without repetition. *)
Definition descending (l : list Z) : Prop := StronglySorted (λ a b, b < a) l.

(** What a call leaves outside the job store and the log: the tables and the
    calls made to Discord. *)
Definition observable (w : world) := (durable w, discord_calls w).

(** The time zone [user_timezone] returns for a user. *)
Definition timezone_of (w : world) (user_id : Z) : string :=
  match find (λ p, bool_decide (p.1 = user_id)) (user_prefs w) with
  | Some p => p.2
  | None => "America/Chicago"
  end.

(** The row [remind_add] inserts. *)
Definition new_reminder_row (now : Z) (i : interaction) (message : string)
    (channel_arg : option channel) (mention_role : option Z) (dt_utc : Z) (w : world)
    : reminder_row :=
  ReminderRow (reminders_seq w + 1) (i_guild_id i) (ch_id <$> channel_arg) (Some (i_user_id i))
    message dt_utc mention_role now.

(** The text [send_reminder] sends. *)
Definition reminder_content (message : string) (mention_role : option Z) : string :=
  "**Reminder:** " +:+ message +:+ mention_suffix mention_role.

(** The calls [send_reminder] makes for a row when each of them returns. *)
Definition delivery_calls (C : collaborators) (r : reminder_row) : list discord_call :=
  let content := reminder_content (rem_message r) (rem_mention_role_id r) in
  if Py.truthy_int (rem_channel_id r) then
    match rem_guild_id r, rem_channel_id r with
    | Some g, Some c =>
        if Py.truthy_int (rem_guild_id r) && get_guild C g then
          match get_channel C g c with
          | Some ch => if ch_is_text ch then [channel_send c content] else []
          | None => []
          end
        else []
    | _, _ => []
    end
  else
    match rem_user_id r with
    | Some u => [fetch_user u; user_send u content]
    | None => []
    end.


(** What a computation that only adds jobs and log entries keeps, from the
    world [w] on: the tables and the calls to Discord, the ids of the jobs, and
    the log as a prefix. *)
Definition only_adds_to (w w' : world) : Prop :=
  observable w' = observable w ∧
  (∀ k, is_Some (jobs w !! k) → is_Some (jobs w' !! k)) ∧
  log w `prefix_of` log w'.

(** The text [send_event] sends. *)
Definition event_content (title : string) (mention_role_id : option Z) : string :=
  "**Event Reminder:** " +:+ title +:+ mention_suffix mention_role_id.

(** The voters of an event with a status, in the order of the table. *)
Definition voters (event_id : Z) (status : string) (l : list rsvp_row) : list Z :=
  rsvp_user_id <$> filter (λ v, rsvp_event_id v = event_id ∧ rsvp_status v = status) l.

(** A column of that name exists in another spelling: Python does not find it
    and SQLite refuses to add it. *)
Definition clash (column : string) (cols : list string) : Prop :=
  (column ∉ cols) ∧ (lower column ∈ lower <$> cols).

(** Every table and column of [s] is in [s'], in the same place. *)
Definition extends (s s' : gmap string (list string)) : Prop :=
  ∀ t cols, s !! t = Some cols → ∃ cols', s' !! t = Some cols' ∧ cols `prefix_of` cols'.

(** The columns of [events] when [init_db] reaches [ensure_column]. *)
Definition events_columns (s : gmap string (list string)) : list string :=
  default ["id"; "guild_id"; "channel_id"; "title"; "when_utc"; "cron"; "mention_role_id";
           "created_by"; "created_at"] (s !! "events").

(** A string without the character [:]. *)
Fixpoint no_colon (s : string) : bool :=
  match s with
  | EmptyString => true
  | String c s' => negb (Ascii.eqb c ":") && no_colon s'
  end.

(** ** Example data *)

(** Collaborators for the examples: the time parser reads a number of
    microseconds, every cron field is accepted, every guild and channel
    resolves to a text channel, and Discord answers as [returns] says. *)
Definition demo_collaborators (returns : bool) : collaborators :=
  Collaborators (λ s _, Py.int s) (λ _ _ _ _ _, true) (λ _, true)
    (λ _ c, Some (Channel c true)) (λ _ _, returns) (λ n, 1000 + Z.of_nat n).

Definition demo_interaction : interaction := Interaction (Some 7) 42 (Some (Channel 5 true)).

Definition other_guild_interaction : interaction := Interaction (Some 8) 43 (Some (Channel 6 true)).

Definition demo_event (id : Z) (when_utc : option Z) (cron lead_minutes : option string) :=
  EventRow id 7 5 "standup" when_utc cron None 42 0 lead_minutes None.

(** Four events (a future one with two lead offsets, one with a four-field
    cron, a weekly one, a past one) and a reminder; the clock reads 0 and one
    hour is 3600000000. *)
Definition demo_world : world :=
  World [demo_event 1 (Some 3600000000) None (Some "60,10");
         demo_event 2 None (Some "* * * *") None;
         demo_event 3 None (Some "0 19 * * TUE") None;
         demo_event 4 (Some (-5)) None None] 4
        [ReminderRow 1 (Some 7) (Some 5) (Some 42) "tea" 100 None 0] 1
        [RsvpRow 1 42 "maybe" 0] [] ∅ [] [].

(** An event that stores both an instant, now past, and a cron expression. *)
Definition both_world : world :=
  World [demo_event 1 (Some 100) (Some "0 19 * * TUE") None] 1 [] 0 [] [] ∅ [] [].

(** The example world after a reconciliation at the instant 0. *)
Definition scheduled_world : world :=
  (schedule_loaded_jobs (demo_collaborators true) 0 demo_world).2.

(** Collaborators for which no guild resolves and every call to Discord
    raises. *)
Definition unresolved_collaborators : collaborators :=
  Collaborators (λ s _, Py.int s) (λ _ _ _ _ _, true) (λ _, false)
    (λ _ _, None) (λ _ _, false) (λ n, 1000 + Z.of_nat n).

(** The formatter of the examples prints the instant; three names are known
    time zones. *)
Definition demo_fmt (dt_utc : Z) (tz : string) : option string := Some (Py.str dt_utc).

Definition demo_known_timezone (tz : string) : bool :=
  bool_decide (tz ∈ ["America/Chicago"; "Europe/London"; "Asia/Tokyo"]).

(** Four commands on a new database: an event one hour ahead with the lead
    offset 6000000000, an event with a four-field cron, a weekly event, and a
    reminder. *)
Definition overflow_commands : list action :=
  [do_event_create 0 demo_interaction "standup" (Some "3600000000") (Some (Channel 5 true))
     None None (Some "6000000000");
   do_event_create 0 demo_interaction "standup" None (Some (Channel 5 true))
     None (Some "* * * *") None;
   do_event_create 0 demo_interaction "standup" None (Some (Channel 5 true))
     None (Some "0 19 * * TUE") None;
   do_remind_add 0 demo_interaction "100" "tea" (Some (Channel 5 true)) None].

(** The tables these commands leave, in a process that has just started: the
    job store is empty. *)
Definition overflow_world : world :=
  let w := foldl (λ w a, run_action (demo_collaborators true) a w) fresh_world
             overflow_commands in
  World (events w) (events_seq w) (reminders w) (reminders_seq w) (event_rsvps w)
    (user_prefs w) ∅ [] [].

(** * Properties *)

(** ** Python helpers on examples *)

Example split_on_ex : Py.split_on "," "60, 10,,5" = ["60"; " 10"; ""; "5"].
Proof. reflexivity. Qed.

Example split_ex : Py.split "  0 19 * *  TUE " = ["0"; "19"; "*"; "*"; "TUE"].
Proof. reflexivity. Qed.

Example split_four_fields : Py.split "* * * *" = ["*"; "*"; "*"; "*"].
Proof. reflexivity. Qed.

Example int_ex :
  (Py.int " 60 ", Py.int "-7", Py.int "1_0", Py.int "1__0", Py.int "", Py.int "6x")
  = (Some 60, Some (-7), Some 10, None, None, None).
Proof. reflexivity. Qed.

(** The separator FS (code 28) is stripped by [str.strip] and refused by [int]. *)
Example int_separator_ex :
  let s := String (ascii_of_nat 28) "5" in (Py.strip s, Py.int s) = ("5", None).
Proof. reflexivity. Qed.

Example str_ex : (Py.str 60, Py.str 0, Py.str (-3)) = ("60", "0", "-3").
Proof. reflexivity. Qed.

Example lead_list_of_ex : lead_list_of "10, 60,10,-5,0" = Some [60; 10].
Proof. reflexivity. Qed.

Example lead_list_of_bad : lead_list_of "60,ten" = None.
Proof. reflexivity. Qed.

Example sub_minutes_ex :
  (Datetime.sub_minutes 3600000000 10, Datetime.sub_minutes 3600000000 6000000000)
  = (Some 3000000000, None).
Proof. reflexivity. Qed.

(** ** Job ids are distinct *)

Lemma no_colon_app s t : no_colon (s +:+ t) = no_colon s && no_colon t.
Proof. induction s as [|c s IH]; simpl; [done|]. rewrite IH. by destruct (Ascii.eqb c ":"). Qed.

Lemma pretty_N_go_no_colon x s : no_colon s = true → no_colon (pretty_N_go x s) = true.
Proof.
  revert s. induction (N.lt_wf_0 x) as [x _ IH]; intros s Hs.
  destruct (decide (x = 0)%N) as [->|Hx]; [by rewrite pretty_N_go_0|].
  rewrite pretty_N_go_step by lia. apply IH.
  - apply N.div_lt; lia.
  - simpl. rewrite Hs. unfold pretty_N_char. by repeat case_match.
Qed.

Lemma str_no_colon n : no_colon (Py.str n) = true.
Proof.
  unfold Py.str, pretty, pretty_Z.
  destruct n as [|p|p]; [done|..]; unfold pretty, pretty_positive, pretty, pretty_N;
    simpl; by apply pretty_N_go_no_colon.
Qed.

Lemma str_inj m n : Py.str m = Py.str n → m = n.
Proof. apply pretty_Z_inj. Qed.

(** Two strings without [:] followed by [:] and anything: the parts agree. *)
Lemma colon_split s1 s2 t1 t2 :
  no_colon s1 = true → no_colon s2 = true →
  s1 +:+ String ":" t1 = s2 +:+ String ":" t2 → s1 = s2 ∧ t1 = t2.
Proof.
  revert s2. induction s1 as [|c s1 IH]; intros [|c' s2]; simpl; intros H1 H2 Heq.
  - by simplify_eq.
  - by simplify_eq.
  - by simplify_eq.
  - injection Heq as -> Heq.
    apply andb_prop in H1 as [_ H1]. apply andb_prop in H2 as [_ H2].
    by destruct (IH s2 H1 H2 Heq) as [-> ->].
Qed.

Lemma event_job_id_inj a b : event_job_id a = event_job_id b → a = b.
Proof. unfold event_job_id. intros H. simplify_eq/=. by apply str_inj. Qed.

Lemma reminder_job_id_inj a b : reminder_job_id a = reminder_job_id b → a = b.
Proof. unfold reminder_job_id. intros H. simplify_eq/=. by apply str_inj. Qed.

Lemma lead_job_id_inj a m b n : lead_job_id a m = lead_job_id b n → a = b ∧ m = n.
Proof.
  unfold lead_job_id. intros H. simplify_eq/=.
  apply colon_split in H as [Ha Hm]; [|apply str_no_colon..].
  simplify_eq/=. split; by apply str_inj.
Qed.

Lemma event_lead_job_id_ne a b m : event_job_id a ≠ lead_job_id b m.
Proof.
  unfold event_job_id, lead_job_id. intros H. simplify_eq/=.
  assert (no_colon (Py.str a) = true) as Ha by apply str_no_colon.
  rewrite H, no_colon_app in Ha. simpl in Ha. by rewrite andb_false_r in Ha.
Qed.

Lemma event_reminder_job_id_ne a b : event_job_id a ≠ reminder_job_id b.
Proof. done. Qed.

Lemma lead_reminder_job_id_ne a m b : lead_job_id a m ≠ reminder_job_id b.
Proof. done. Qed.

(** ** Job plans *)

Lemma apply_plan_app p1 p2 j : apply_plan (p1 ++ p2) j = apply_plan p2 (apply_plan p1 j).
Proof. apply foldl_app. Qed.

Lemma apply_plan_cons k v p j : apply_plan ((k, v) :: p) j = apply_plan p (<[k:=v]> j).
Proof. done. Qed.

Lemma apply_plan_lookup_notin p j k : k ∉ p.*1 → apply_plan p j !! k = j !! k.
Proof.
  revert j. induction p as [|[k' v] p IH]; intros j Hk; [done|].
  rewrite fmap_cons, not_elem_of_cons in Hk. destruct Hk as [Hne Hk].
  rewrite apply_plan_cons, IH by done. by rewrite lookup_insert_ne.
Qed.

Lemma apply_plan_lookup_in p j k v :
  (k, v) ∈ p → (∀ v', (k, v') ∈ p → v' = v) → apply_plan p j !! k = Some v.
Proof.
  revert j. induction p as [|[k' v'] p IH]; intros j Hin Huniq; [by apply elem_of_nil in Hin|].
  rewrite apply_plan_cons. destruct (decide (k ∈ p.*1)) as [Hp|Hp].
  - apply list_elem_of_fmap in Hp as ([k0 v0] & ? & Hk0). simpl in *; subst k0.
    assert (v0 = v) as -> by (apply Huniq; by right).
    apply IH; [done|]. intros v0 H0. apply Huniq. by right.
  - apply elem_of_cons in Hin as [[= <- <-]|Hin].
    + rewrite apply_plan_lookup_notin by done. apply lookup_insert_eq.
    + destruct Hp. apply list_elem_of_fmap. by exists (k, v).
Qed.

Lemma apply_plan_lookup_is_Some p j k : k ∈ p.*1 → is_Some (apply_plan p j !! k).
Proof.
  revert j. induction p as [|[k' v'] p IH]; intros j Hin; [by apply elem_of_nil in Hin|].
  rewrite apply_plan_cons. destruct (decide (k ∈ p.*1)) as [Hp|Hp]; [by apply IH|].
  rewrite fmap_cons in Hin. apply elem_of_cons in Hin as [->|?]; [|done].
  rewrite apply_plan_lookup_notin by done. rewrite lookup_insert_eq. eauto.
Qed.

Lemma step_step p1 l1 p2 l2 w : step p2 l2 (step p1 l1 w) = step (p1 ++ p2) (l1 ++ l2) w.
Proof.
  unfold step, set_log, set_jobs; simpl. by rewrite apply_plan_app, (assoc_L (++)).
Qed.

Lemma step_nil w : step [] [] w = w.
Proof. destruct w. unfold step, set_log, set_jobs; simpl. by rewrite app_nil_r. Qed.

Lemma for_each_step {A} (l : list A) (body : A → M unit) p lg :
  (∀ x, x ∈ l → ∀ w, body x w = (Ok tt, step (p x) (lg x) w)) →
  ∀ w, for_each l body w = (Ok tt, step (l ≫= p) (l ≫= lg) w).
Proof.
  induction l as [|x l IH]; intros Hbody w; simpl.
  - by rewrite step_nil.
  - unfold bind. rewrite Hbody by left. rewrite IH.
    + by rewrite step_step.
    + intros y Hy. apply Hbody. by right.
Qed.

Lemma bind_nil_const {A B} (l : list A) : l ≫= (λ _, @nil B) = [].
Proof. by induction l. Qed.

Lemma omap_bind {A B} (f : A → option B) (l : list A) :
  omap f l = l ≫= (λ x, option_list (f x)).
Proof. induction l as [|x l IH]; [done|]. csimpl. rewrite IH. by destruct (f x). Qed.

Lemma add_job_step k v w : add_job k v w = (Ok tt, step [(k, v)] [] w).
Proof. destruct w. unfold add_job, modify, step, set_log, set_jobs; simpl. by rewrite app_nil_r. Qed.

Lemma ret_step w : ret tt w = (Ok tt, step [] [] w).
Proof. by rewrite step_nil. Qed.

Lemma log_step e w : modify (set_log (λ l, l ++ [e])) w = (Ok tt, step [] [e] w).
Proof. by destruct w. Qed.

Section Reconcile.
Variable C : collaborators.

Lemma schedule_leads_in_range now ev g c t r run_dt ms w :
  Forall (λ m, is_Some (Datetime.sub_minutes run_dt m)) ms →
  schedule_leads now ev g c t r run_dt ms w
  = (Ok tt, step (omap (lead_job now ev g c t r run_dt) ms) [] w).
Proof.
  intros Hms. unfold schedule_leads.
  rewrite (for_each_step _ _ (λ m, option_list (lead_job now ev g c t r run_dt m)) (λ _, [])).
  - by rewrite omap_bind, bind_nil_const.
  - intros m Hm w'. rewrite Forall_forall in Hms. destruct (Hms m Hm) as [ld Hld].
    unfold lead_job, bind, or_raise. rewrite Hld. simpl.
    case_bool_decide; simpl; [apply add_job_step|apply ret_step].
Qed.

Lemma abs_plan_body now r w :
  row_leads_in_range r →
  match ev_when_utc r with
  | None => ret tt
  | Some run_dt =>
      (if bool_decide (now < run_dt) then
         add_job (event_job_id (ev_id r))
           (Job (DateTrigger run_dt)
                (send_event_task (ev_guild_id r) (ev_channel_id r) (ev_title r)
                   (ev_mention_role_id r)))
       else ret tt) ;;;
      schedule_leads now (ev_id r) (ev_guild_id r) (ev_channel_id r) (ev_title r)
        (ev_mention_role_id r) run_dt (stored_leads (ev_lead_minutes r))
  end%py w = (Ok tt, step (abs_plan now r) [] w).
Proof.
  unfold row_leads_in_range, abs_plan. destruct (ev_when_utc r) as [t|]; intros Hr.
  - unfold bind. case_bool_decide.
    + rewrite add_job_step, schedule_leads_in_range, step_step by done. done.
    + rewrite ret_step, schedule_leads_in_range, step_step by done. done.
  - apply ret_step.
Qed.

Lemma cron_plan_body r w :
  match ev_cron r with
  | None => ret tt
  | Some cron_expr =>
      try_except
        (t <- cron_trigger C cron_expr ;;
         add_job (event_job_id (ev_id r))
           (Job t (send_event_task (ev_guild_id r) (ev_channel_id r) (ev_title r)
                     (ev_mention_role_id r))))
        (λ _, modify (set_log (λ l, l ++ [BadCronForEvent (ev_id r)])))
  end%py w = (Ok tt, step (cron_plan C r) (cron_log C r) w).
Proof.
  unfold cron_plan, cron_log. destruct (ev_cron r) as [c|]; simpl; [|apply ret_step].
  unfold try_except, bind, cron_trigger, or_raise.
  destruct (cron_trigger_of C c) as [t|]; unfold ret, raise.
  - by rewrite add_job_step.
  - apply log_step.
Qed.

Lemma reminder_plan_body now (r : reminder_row) w :
  (if bool_decide (now < rem_when_utc r) then
     add_job (reminder_job_id (rem_id r))
       (Job (DateTrigger (rem_when_utc r)) (send_reminder_task (rem_id r)))
   else ret tt) w = (Ok tt, step (reminder_plan now r) [] w).
Proof. unfold reminder_plan. case_bool_decide; [apply add_job_step|apply ret_step]. Qed.

Lemma schedule_loaded_jobs_in_range now w :
  leads_in_range w →
  schedule_loaded_jobs C now w
  = (Ok tt, step (reconcile_plan C now w)
                 (filter (λ r, is_Some (ev_cron r)) (events w) ≫= cron_log C) w).
Proof.
  intros Hw. unfold schedule_loaded_jobs, reconcile_plan.
  unfold bind at 1. unfold gets at 1.
  unfold bind at 1.
  rewrite (for_each_step _ _ (abs_plan now) (λ _, [])).
  2:{ intros r Hr w'. apply abs_plan_body.
      apply list_elem_of_filter in Hr as [_ Hr].
      unfold leads_in_range in Hw. rewrite Forall_forall in Hw. by apply Hw. }
  unfold bind at 1. unfold gets at 1. unfold bind at 1.
  rewrite (for_each_step _ _ (cron_plan C) (cron_log C)).
  2:{ intros r _ w'. apply cron_plan_body. }
  unfold bind at 1. unfold gets at 1.
  rewrite (for_each_step _ _ (reminder_plan now) (λ _, [])).
  2:{ intros r _ w'. apply reminder_plan_body. }
  rewrite !step_step, !bind_nil_const. simpl. by rewrite app_nil_r, (assoc_L (++)).
Qed.

End Reconcile.

(** ** What the plan of a reconciliation holds *)

Lemma fmap_eq_inj_on {A B} (f : A → B) (l : list A) x y :
  NoDup (f <$> l) → x ∈ l → y ∈ l → f x = f y → x = y.
Proof.
  induction l as [|a l IH]; intros Hnd Hx Hy Hf; [by apply elem_of_nil in Hx|].
  rewrite fmap_cons in Hnd. apply NoDup_cons in Hnd as [Ha Hnd].
  apply elem_of_cons in Hx as [->|Hx]; apply elem_of_cons in Hy as [->|Hy]; try done.
  - destruct Ha. rewrite Hf. by apply list_elem_of_fmap_2.
  - destruct Ha. rewrite <-Hf. by apply list_elem_of_fmap_2.
  - by apply IH.
Qed.

Lemma lead_job_Some now ev g c t r run_dt m k v :
  lead_job now ev g c t r run_dt m = Some (k, v) ↔
  ∃ ld, Datetime.sub_minutes run_dt m = Some ld ∧ now < ld ∧ k = lead_job_id ev m ∧
        v = Job (DateTrigger ld)
              (send_event_task g c (t +:+ " starts in " +:+ Py.str m +:+ " min") r).
Proof.
  unfold lead_job. destruct (Datetime.sub_minutes run_dt m) as [ld|]; simpl.
  - case_bool_decide; split.
    + intros [= <- <-]. by exists ld.
    + intros (? & [= <-] & _ & -> & ->). done.
    + done.
    + intros (? & [= <-] & ? & _). done.
  - split; [done|]. by intros (? & ? & _).
Qed.

Lemma elem_of_abs_plan now r k v :
  (k, v) ∈ abs_plan now r ↔
  ∃ t, ev_when_utc r = Some t ∧
    ((k = event_job_id (ev_id r) ∧ v = date_job r t ∧ now < t) ∨
     (∃ m, m ∈ stored_leads (ev_lead_minutes r) ∧
           lead_job now (ev_id r) (ev_guild_id r) (ev_channel_id r) (ev_title r)
             (ev_mention_role_id r) t m = Some (k, v))).
Proof.
  unfold abs_plan. destruct (ev_when_utc r) as [t|].
  - rewrite elem_of_app, list_elem_of_omap. split.
    + intros [H|H]; exists t; split; try done.
      * left. case_bool_decide; [|by apply elem_of_nil in H].
        apply list_elem_of_singleton in H as [= -> ->]. done.
      * by right.
    + intros (? & [= <-] & [(-> & -> & Ht)|H]); [left|by right].
      rewrite bool_decide_eq_true_2 by done. by apply list_elem_of_singleton.
  - split; [by intros ?%elem_of_nil|]. by intros (? & ? & _).
Qed.

Lemma elem_of_cron_plan C r k v :
  (k, v) ∈ cron_plan C r ↔
  ∃ c t, ev_cron r = Some c ∧ cron_trigger_of C c = Some t ∧
         k = event_job_id (ev_id r) ∧ v = cron_job r t.
Proof.
  unfold cron_plan. destruct (ev_cron r) as [c|]; simpl.
  - destruct (cron_trigger_of C c) as [t|] eqn:Ht.
    + rewrite list_elem_of_singleton. split.
      * intros [= -> ->]. by exists c, t.
      * intros (? & ? & [= <-] & ? & -> & ->). by simplify_eq.
    + split; [by intros ?%elem_of_nil|]. intros (? & ? & [= <-] & ? & _). congruence.
  - split; [by intros ?%elem_of_nil|]. by intros (? & ? & ? & _).
Qed.

Lemma elem_of_reminder_plan now r k v :
  (k, v) ∈ reminder_plan now r ↔
  now < rem_when_utc r ∧ k = reminder_job_id (rem_id r) ∧ v = reminder_job r.
Proof.
  unfold reminder_plan. case_bool_decide.
  - rewrite list_elem_of_singleton. split; [by intros [= -> ->]|by intros (_ & -> & ->)].
  - split; [by intros ?%elem_of_nil|]. by intros (? & _).
Qed.

Lemma elem_of_reconcile_plan C now w k v :
  (k, v) ∈ reconcile_plan C now w ↔
  (∃ r, r ∈ events w ∧ (k, v) ∈ abs_plan now r) ∨
  (∃ r, r ∈ events w ∧ (k, v) ∈ cron_plan C r) ∨
  (∃ r, r ∈ reminders w ∧ (k, v) ∈ reminder_plan now r).
Proof.
  unfold reconcile_plan. rewrite !elem_of_app, !list_elem_of_bind.
  setoid_rewrite list_elem_of_filter.
  split.
  - intros [(r & ? & _ & ?)|[(r & ? & _ & ?)|(r & ? & ?)]]; eauto 10.
  - intros [(r & Hr & Hkv)|[(r & Hr & Hkv)|(r & ? & ?)]]; [left|right; left|right; right; eauto].
    + exists r. repeat split; try done.
      apply elem_of_abs_plan in Hkv as (t & -> & _). eauto.
    + exists r. repeat split; try done.
      apply elem_of_cron_plan in Hkv as (c & t & -> & _). eauto.
Qed.

Lemma plan_event_key C now w a v :
  (event_job_id a, v) ∈ reconcile_plan C now w ↔
  (∃ r t, r ∈ events w ∧ ev_id r = a ∧ ev_when_utc r = Some t ∧ now < t ∧ v = date_job r t) ∨
  (∃ r c tr, r ∈ events w ∧ ev_id r = a ∧ ev_cron r = Some c ∧
             cron_trigger_of C c = Some tr ∧ v = cron_job r tr).
Proof.
  rewrite elem_of_reconcile_plan. setoid_rewrite elem_of_abs_plan.
  setoid_rewrite elem_of_cron_plan. setoid_rewrite elem_of_reminder_plan.
  setoid_rewrite lead_job_Some. split.
  - intros [(r & Hr & t & Ht & [(Hk & -> & Hlt)|(m & _ & ld & _ & _ & Hk & _)])
           |[(r & Hr & c & tr & Hc & Htr & Hk & ->)|(r & _ & _ & Hk & _)]].
    + apply event_job_id_inj in Hk. left. by exists r, t.
    + by apply event_lead_job_id_ne in Hk.
    + apply event_job_id_inj in Hk. right. by exists r, c, tr.
    + by apply event_reminder_job_id_ne in Hk.
  - intros [(r & t & Hr & <- & Ht & Hlt & ->)|(r & c & tr & Hr & <- & Hc & Htr & ->)].
    + left. exists r. split; [done|]. exists t. split; [done|]. by left.
    + right; left. exists r. split; [done|]. by exists c, tr.
Qed.

Lemma plan_lead_key C now w a m v :
  (lead_job_id a m, v) ∈ reconcile_plan C now w ↔
  ∃ r t ld, r ∈ events w ∧ ev_id r = a ∧ ev_when_utc r = Some t ∧
    m ∈ stored_leads (ev_lead_minutes r) ∧ Datetime.sub_minutes t m = Some ld ∧ now < ld ∧
    v = Job (DateTrigger ld)
          (send_event_task (ev_guild_id r) (ev_channel_id r)
             (ev_title r +:+ " starts in " +:+ Py.str m +:+ " min") (ev_mention_role_id r)).
Proof.
  rewrite elem_of_reconcile_plan. setoid_rewrite elem_of_abs_plan.
  setoid_rewrite elem_of_cron_plan. setoid_rewrite elem_of_reminder_plan.
  setoid_rewrite lead_job_Some. split.
  - intros [(r & Hr & t & Ht & [(Hk & _)|(m' & Hm & ld & Hld & Hlt & Hk & ->)])
           |[(r & Hr & c & tr & Hc & Htr & Hk & ->)|(r & _ & _ & Hk & _)]].
    + symmetry in Hk. by apply event_lead_job_id_ne in Hk.
    + apply lead_job_id_inj in Hk as [-> ->]. by exists r, t, ld.
    + symmetry in Hk. by apply event_lead_job_id_ne in Hk.
    + by apply lead_reminder_job_id_ne in Hk.
  - intros (r & t & ld & Hr & <- & Ht & Hm & Hld & Hlt & ->).
    left. exists r. split; [done|]. exists t. split; [done|]. right.
    exists m. split; [done|]. by exists ld.
Qed.

Lemma plan_reminder_key C now w a v :
  (reminder_job_id a, v) ∈ reconcile_plan C now w ↔
  ∃ r, r ∈ reminders w ∧ rem_id r = a ∧ now < rem_when_utc r ∧ v = reminder_job r.
Proof.
  rewrite elem_of_reconcile_plan. setoid_rewrite elem_of_abs_plan.
  setoid_rewrite elem_of_cron_plan. setoid_rewrite elem_of_reminder_plan.
  setoid_rewrite lead_job_Some. split.
  - intros [(r & Hr & t & Ht & [(Hk & _)|(m' & Hm & ld & Hld & Hlt & Hk & ->)])
           |[(r & Hr & c & tr & Hc & Htr & Hk & ->)|(r & Hr & Hlt & Hk & ->)]].
    + symmetry in Hk. by apply event_reminder_job_id_ne in Hk.
    + symmetry in Hk. by apply lead_reminder_job_id_ne in Hk.
    + symmetry in Hk. by apply event_reminder_job_id_ne in Hk.
    + apply reminder_job_id_inj in Hk. by exists r.
  - intros (r & Hr & <- & Hlt & ->). right; right. by exists r.
Qed.

Lemma elem_of_fst_plan (p : list (string * job)) k : k ∈ p.*1 ↔ ∃ v, (k, v) ∈ p.
Proof.
  rewrite list_elem_of_fmap. split.
  - intros ([k' v] & -> & H). by exists v.
  - intros (v & H). by exists (k, v).
Qed.

Lemma elem_of_cron_part C w k v :
  (k, v) ∈ filter (λ r, is_Some (ev_cron r)) (events w) ≫= cron_plan C ↔
  ∃ r c t, r ∈ events w ∧ ev_cron r = Some c ∧ cron_trigger_of C c = Some t ∧
           k = event_job_id (ev_id r) ∧ v = cron_job r t.
Proof.
  rewrite list_elem_of_bind. setoid_rewrite list_elem_of_filter.
  setoid_rewrite elem_of_cron_plan. split.
  - intros (r & (c & t & ? & ? & ? & ?) & _ & ?). by exists r, c, t.
  - intros (r & c & t & ? & Hc & ? & ? & ?). exists r. rewrite Hc. eauto 10.
Qed.

Lemma elem_of_reminder_part now w k v :
  (k, v) ∈ reminders w ≫= reminder_plan now ↔
  ∃ r, r ∈ reminders w ∧ now < rem_when_utc r ∧ k = reminder_job_id (rem_id r) ∧
       v = reminder_job r.
Proof.
  rewrite list_elem_of_bind. setoid_rewrite elem_of_reminder_plan. split.
  - intros (r & (? & ? & ?) & ?). by exists r.
  - intros (r & ? & ? & ? & ?). by exists r.
Qed.

(** The primary jobs and the reminder jobs after a reconciliation of a store
    with unique ids and lead offsets in range, whatever the cron columns hold:
    it returns; every row with a malformed cron expression is logged; every row
    with a valid one has its cron job under ["event:{id}"]; a row without a
    valid cron expression has its date job there when its instant is strictly
    after [now], and otherwise the key is left as it was; a reminder has its
    job when its instant is strictly after [now], and otherwise its key is left
    as it was. *)
Theorem reconcile_primary_and_reminder_jobs C now w :
  ids_unique w → leads_in_range w →
  ∃ w', schedule_loaded_jobs C now w = (Ok tt, w') ∧
    (∀ r c, r ∈ events w → ev_cron r = Some c → cron_trigger_of C c = None →
       BadCronForEvent (ev_id r) ∈ log w') ∧
    (∀ r c t, r ∈ events w → ev_cron r = Some c → cron_trigger_of C c = Some t →
       jobs w' !! event_job_id (ev_id r) = Some (cron_job r t)) ∧
    (∀ r t, r ∈ events w → ev_when_utc r = Some t → now < t →
       ev_cron r ≫= cron_trigger_of C = None →
       jobs w' !! event_job_id (ev_id r) = Some (date_job r t)) ∧
    (∀ r, r ∈ events w → (∀ t, ev_when_utc r = Some t → t ≤ now) →
       ev_cron r ≫= cron_trigger_of C = None →
       jobs w' !! event_job_id (ev_id r) = jobs w !! event_job_id (ev_id r)) ∧
    (∀ r, r ∈ reminders w → now < rem_when_utc r →
       jobs w' !! reminder_job_id (rem_id r) = Some (reminder_job r)) ∧
    (∀ r, r ∈ reminders w → rem_when_utc r ≤ now →
       jobs w' !! reminder_job_id (rem_id r) = jobs w !! reminder_job_id (rem_id r)).
Proof.
  intros [Hnd Hndr] Hrange. eexists. split; [by apply schedule_loaded_jobs_in_range|].
  cbn [jobs log step set_log set_jobs].
  assert (∀ r r', r ∈ events w → r' ∈ events w → ev_id r' = ev_id r → r' = r) as Hsame.
  { intros r r' Hr Hr' Hid. by apply (fmap_eq_inj_on ev_id (events w)). }
  split; [|split; [|split; [|split; [|split]]]].
  - intros r c Hr Hc Hbad.
    apply elem_of_app. right. apply list_elem_of_bind. exists r. split.
    + unfold cron_log. rewrite Hc, Hbad. by left.
    + apply list_elem_of_filter. rewrite Hc. eauto.
  - intros r c t Hr Hc Ht. unfold reconcile_plan. rewrite apply_plan_app.
    apply apply_plan_lookup_in.
    + apply elem_of_app. left. apply elem_of_cron_part. by exists r, c, t.
    + intros v' [(r' & c' & t' & Hr' & Hc' & Ht' & Hid & ->)%elem_of_cron_part
                |(r' & _ & _ & Hk & _)%elem_of_reminder_part]%elem_of_app.
      * apply event_job_id_inj in Hid. symmetry in Hid. apply Hsame in Hid as ->; try done.
        congruence.
      * by apply event_reminder_job_id_ne in Hk.
  - intros r t Hr Ht Hlt Hcron. apply apply_plan_lookup_in.
    + apply plan_event_key. left. by exists r, t.
    + intros v' [(r' & t' & Hr' & Hid & Ht' & _ & ->)|(r' & c & tr & Hr' & Hid & Hc & Htr & _)]%plan_event_key;
        apply Hsame in Hid as ->; try done; [congruence|].
      rewrite Hc in Hcron. simpl in Hcron. congruence.
  - intros r Hr Hpast Hcron. apply apply_plan_lookup_notin. rewrite elem_of_fst_plan.
    intros (v' & [(r' & t' & Hr' & Hid & Ht' & Hlt & _)|(r' & c & tr & Hr' & Hid & Hc & Htr & _)]%plan_event_key);
      apply Hsame in Hid as ->; try done.
    + specialize (Hpast t' Ht'). lia.
    + rewrite Hc in Hcron. simpl in Hcron. congruence.
  - intros r Hr Hlt. apply apply_plan_lookup_in.
    + apply plan_reminder_key. by exists r.
    + intros v' (r' & Hr' & Hid & _ & ->)%plan_reminder_key.
      by rewrite (fmap_eq_inj_on rem_id (reminders w) r' r).
  - intros r Hr Hle. apply apply_plan_lookup_notin. rewrite elem_of_fst_plan.
    intros (v' & (r' & Hr' & Hid & Hlt & _)%plan_reminder_key).
    rewrite (fmap_eq_inj_on rem_id (reminders w) r' r) in Hlt by done. lia.
Qed.

(** Claim C1 at its failing input.  A row that stores both an instant and a
    cron expression (what [event_create] stores when it is given both, see
    C6) gets a job under ["event:{id}"] at every reconciliation, also when its
    instant is not strictly after [now]: the second loop installs the cron job
    for every row with a valid cron expression, whatever [when_utc] holds.
    The store has unique ids and lead offsets in range, so that the
    reconciliation returns. *)
Theorem reconcile_cron_job_for_past_event C now w r t c tr :
  ids_unique w → leads_in_range w →
  r ∈ events w → ev_when_utc r = Some t → t ≤ now →
  ev_cron r = Some c → cron_trigger_of C c = Some tr →
  ∃ w', schedule_loaded_jobs C now w = (Ok tt, w') ∧
    jobs w' !! event_job_id (ev_id r) = Some (cron_job r tr).
Proof.
  intros [Hnd _] Hrange Hr Ht Hle Hc Htr.
  eexists. split; [by apply schedule_loaded_jobs_in_range|].
  cbn [jobs step set_log set_jobs]. unfold reconcile_plan. rewrite apply_plan_app.
  apply apply_plan_lookup_in.
  - apply elem_of_app. left. apply elem_of_cron_part. by exists r, c, tr.
  - intros v' [(r' & c' & t' & Hr' & Hc' & Ht' & Hid & ->)%elem_of_cron_part
              |(r' & _ & _ & Hk & _)%elem_of_reminder_part]%elem_of_app.
    + apply event_job_id_inj in Hid. symmetry in Hid.
      apply (fmap_eq_inj_on ev_id (events w)) in Hid as ->; try done. congruence.
    + by apply event_reminder_job_id_ne in Hk.
Qed.

(** The lead jobs after a reconciliation:
    when no stored offset leaves the range of datetimes, each stored offset [m]
    of an event at [t] has the lead instant [t - m] minutes; if that is strictly
    after [now] the job ["event:{id}:lead:{m}"] exists, and otherwise the key is
    left as it was. *)
Theorem reconcile_lead_jobs C now w :
  ids_unique w → leads_in_range w →
  ∃ w', schedule_loaded_jobs C now w = (Ok tt, w') ∧
    ∀ r t m, r ∈ events w → ev_when_utc r = Some t → m ∈ stored_leads (ev_lead_minutes r) →
      ∃ ld, Datetime.sub_minutes t m = Some ld ∧ ld = t - m * Datetime.MINUTE ∧
        (now < ld →
           jobs w' !! lead_job_id (ev_id r) m
           = Some (Job (DateTrigger ld)
                     (send_event_task (ev_guild_id r) (ev_channel_id r)
                        (ev_title r +:+ " starts in " +:+ Py.str m +:+ " min")
                        (ev_mention_role_id r)))) ∧
        (ld ≤ now →
           jobs w' !! lead_job_id (ev_id r) m = jobs w !! lead_job_id (ev_id r) m).
Proof.
  intros [Hnd _] Hrange. eexists. split; [by apply schedule_loaded_jobs_in_range|].
  cbn [jobs step set_log set_jobs].
  assert (∀ r r', r ∈ events w → r' ∈ events w → ev_id r' = ev_id r → r' = r) as Hsame.
  { intros r r' Hr Hr' Hid. by apply (fmap_eq_inj_on ev_id (events w)). }
  intros r t m Hr Ht Hm.
  assert (is_Some (Datetime.sub_minutes t m)) as [ld Hld].
  { unfold leads_in_range in Hrange. rewrite Forall_forall in Hrange.
    specialize (Hrange r Hr). unfold row_leads_in_range in Hrange. rewrite Ht in Hrange.
    rewrite Forall_forall in Hrange. by apply Hrange. }
  exists ld. split; [done|]. split; [|split].
  - unfold Datetime.sub_minutes, Datetime.timedelta_minutes, Datetime.sub in Hld.
    repeat (case_match; simplify_eq/=). done.
  - intros Hlt. apply apply_plan_lookup_in.
    + apply plan_lead_key. by exists r, t, ld.
    + intros v' (r' & t' & ld' & Hr' & Hid & Ht' & _ & Hld' & _ & ->)%plan_lead_key.
      apply Hsame in Hid as ->; try done. congruence.
  - intros Hle. apply apply_plan_lookup_notin. rewrite elem_of_fst_plan.
    intros (v' & (r' & t' & ld' & Hr' & Hid & Ht' & _ & Hld' & Hlt & _)%plan_lead_key).
    apply Hsame in Hid as ->; try done. simplify_eq. lia.
Qed.

Lemma for_each_app {A} (l1 l2 : list A) (body : A → M unit) w :
  for_each (l1 ++ l2) body w = (for_each l1 body ;;; for_each l2 body) w.
Proof.
  revert w. induction l1 as [|x l1 IH]; intros w; [done|].
  simpl. unfold bind in *. destruct (body x w) as [[[]|e] w1]; [|done]. apply IH.
Qed.

Lemma bind_ok {A B} (m : M A) (k : A → M B) w a w' :
  m w = (Ok a, w') → (x <- m ;; k x) w = k a w'.
Proof. unfold bind. by intros ->. Qed.

Lemma bind_raise {A B} (m : M A) (k : A → M B) w e w' :
  m w = (Raise e, w') → (x <- m ;; k x) w = (Raise e, w').
Proof. unfold bind. by intros ->. Qed.

Section Create.
Variable C : collaborators.

Lemma schedule_leads_overflow now ev g c t r run_dt pre m rest w :
  Forall (λ m, is_Some (Datetime.sub_minutes run_dt m)) pre →
  Datetime.sub_minutes run_dt m = None →
  schedule_leads now ev g c t r run_dt (pre ++ m :: rest) w
  = (Raise OverflowError, step (omap (lead_job now ev g c t r run_dt) pre) [] w).
Proof.
  intros Hpre Hm. unfold schedule_leads. rewrite for_each_app. unfold bind at 1.
  fold (schedule_leads now ev g c t r run_dt pre). rewrite schedule_leads_in_range by done.
  simpl. unfold bind, or_raise. by rewrite Hm.
Qed.

Lemma announce_event_frame event_id ch u w :
  ∃ res w', announce_event C event_id ch u w = (res, w') ∧
    (res = Ok tt ∨ res = Raise HTTPException) ∧
    jobs w' = jobs w ∧ reminders w' = reminders w ∧ event_rsvps w' = event_rsvps w ∧
    events_seq w' = events_seq w ∧
    ∀ r, r ∈ events w → ∃ r', r' ∈ events w' ∧ same_but_message r r'.
Proof.
  unfold announce_event, bind, gets.
  destruct (find _ (events w)) as [r0|].
  - unfold user_timezone, gets, discord.
    destruct (discord_returns C _ _); simpl.
    + do 2 eexists. split; [done|]. split; [by left|]. repeat split; try done.
      intros r Hr. eexists. split; [by apply list_elem_of_fmap_2|].
      case_bool_decide; by repeat split.
    + do 2 eexists. split; [done|]. split; [by right|]. repeat split; try done.
      intros r Hr. exists r. by repeat split.
  - do 2 eexists. split; [done|]. split; [by left|]. repeat split; try done.
    intros r Hr. exists r. by repeat split.
Qed.

Lemma event_create_when now i title s ch role cron ls lead_list t g w :
  ch_is_text ch = true → i_guild_id i = Some g → Py.truthy_str (Some s) = true →
  (∀ tz, parse_human_time C s tz = Some t) →
  lead_list_arg ls = Some lead_list →
  Forall (λ m, is_Some (Datetime.sub_minutes t m)) lead_list →
  let r := new_event_row now i g ch title (Some t) cron role lead_list w in
  event_create C now i title (Some s) (Some ch) role cron ls w
  = (announce_event C (ev_id r) ch (i_user_id i) ;;;
     ret (EventCreatedAndAnnounced title lead_list))
      (step ((event_job_id (ev_id r), date_job r t)
             :: omap (lead_job now (ev_id r) g (ch_id ch) title role t) lead_list) []
         (insert_event r w)).
Proof.
  intros Hch Hg Hs Hparse Hls Hrange r. unfold event_create.
  rewrite Hch, Hs, Hg, Hls.
  cbn -[announce_event schedule_leads add_job event_job_id Z.add].
  rewrite Hparse.
  cbn -[announce_event schedule_leads add_job event_job_id Z.add].
  erewrite bind_ok by apply add_job_step.
  erewrite bind_ok by by apply schedule_leads_in_range.
  erewrite bind_ok by done.
  by rewrite step_step.
Qed.

Lemma event_create_overflow now i title s ch role cron ls pre m rest t g w :
  ch_is_text ch = true → i_guild_id i = Some g → Py.truthy_str (Some s) = true →
  (∀ tz, parse_human_time C s tz = Some t) →
  lead_list_arg ls = Some (pre ++ m :: rest) →
  Forall (λ m, is_Some (Datetime.sub_minutes t m)) pre →
  Datetime.sub_minutes t m = None →
  let r := new_event_row now i g ch title (Some t) cron role (pre ++ m :: rest) w in
  event_create C now i title (Some s) (Some ch) role cron ls w
  = (Raise OverflowError,
     step ((event_job_id (ev_id r), date_job r t)
           :: omap (lead_job now (ev_id r) g (ch_id ch) title role t) pre) []
       (insert_event r w)).
Proof.
  intros Hch Hg Hs Hparse Hls Hrange Hm r. unfold event_create.
  rewrite Hch, Hs, Hg, Hls.
  cbn -[announce_event schedule_leads add_job event_job_id Z.add].
  rewrite Hparse.
  cbn -[announce_event schedule_leads add_job event_job_id Z.add].
  erewrite bind_ok by apply add_job_step.
  erewrite bind_raise by by apply schedule_leads_overflow.
  by rewrite step_step.
Qed.

End Create.

Lemma Forall_first_failure {A} (P : A → Prop) `{!∀ x, Decision (P x)} (l : list A) :
  ¬ Forall P l → ∃ pre x rest, l = pre ++ x :: rest ∧ Forall P pre ∧ ¬ P x.
Proof.
  induction l as [|a l IH]; intros Hl; [by destruct Hl|].
  destruct (decide (P a)) as [Ha|Ha].
  - destruct IH as (pre & x & rest & -> & Hpre & Hx).
    { intros Hf. apply Hl. by constructor. }
    exists (a :: pre), x, rest. repeat split; [by constructor|done].
  - exists [], a, l. by repeat split.
Qed.

Lemma sub_minutes_huge t : t ≤ Datetime.MAX → Datetime.sub_minutes t 6000000000 = None.
Proof.
  intros Ht. unfold Datetime.sub_minutes, Datetime.timedelta_minutes, Datetime.sub. simpl.
  rewrite (proj2 (Z.leb_gt _ _)); [done|].
  unfold Datetime.MAX, Datetime.MIN, Datetime.MINUTE in *. lia.
Qed.

Section Overflow.
Variable C : collaborators.

Lemma abs_body_overflow_step now r t w :
  ev_when_utc r = Some t →
  ¬ Forall (λ m, is_Some (Datetime.sub_minutes t m)) (stored_leads (ev_lead_minutes r)) →
  ∃ p,
    ((if bool_decide (now < t) then
        add_job (event_job_id (ev_id r))
          (Job (DateTrigger t)
               (send_event_task (ev_guild_id r) (ev_channel_id r) (ev_title r)
                  (ev_mention_role_id r)))
      else ret tt) ;;;
     schedule_leads now (ev_id r) (ev_guild_id r) (ev_channel_id r) (ev_title r)
       (ev_mention_role_id r) t (stored_leads (ev_lead_minutes r))) w
    = (Raise OverflowError, step p [] w) ∧
    ∀ k, k ∈ p.*1 → k = event_job_id (ev_id r) ∨ ∃ m, k = lead_job_id (ev_id r) m.
Proof.
  intros Ht (mpre & m & mrest & Hms & Hmpre & Hm)%Forall_first_failure; [|apply _].
  assert (Datetime.sub_minutes t m = None) as Hm'.
  { destruct (Datetime.sub_minutes t m); [|done]. destruct Hm. eauto. }
  assert (∀ k, k ∈ (omap (lead_job now (ev_id r) (ev_guild_id r) (ev_channel_id r)
                            (ev_title r) (ev_mention_role_id r) t) mpre).*1 →
               ∃ m, k = lead_job_id (ev_id r) m) as Hleads.
  { intros k ([k' v] & -> & Hkv)%list_elem_of_fmap.
    apply list_elem_of_omap in Hkv as (m' & _ & Hj).
    apply lead_job_Some in Hj as (ld & _ & _ & -> & _). by exists m'. }
  rewrite Hms. case_bool_decide.
  - eexists. split.
    + erewrite bind_ok by apply add_job_step.
      erewrite schedule_leads_overflow by done. by rewrite step_step.
    + intros k. rewrite fmap_app. intros [Hk|Hk]%elem_of_app; [|right; by apply Hleads].
      left. by apply list_elem_of_singleton in Hk.
  - eexists. split.
    + erewrite bind_ok by apply ret_step.
      erewrite schedule_leads_overflow by done. by rewrite step_step.
    + intros k Hk. right. by apply Hleads.
Qed.

Lemma abs_body_overflow now r t w :
  ev_when_utc r = Some t →
  ¬ Forall (λ m, is_Some (Datetime.sub_minutes t m)) (stored_leads (ev_lead_minutes r)) →
  ∃ w',
    ((if bool_decide (now < t) then
        add_job (event_job_id (ev_id r))
          (Job (DateTrigger t)
               (send_event_task (ev_guild_id r) (ev_channel_id r) (ev_title r)
                  (ev_mention_role_id r)))
      else ret tt) ;;;
     schedule_leads now (ev_id r) (ev_guild_id r) (ev_channel_id r) (ev_title r)
       (ev_mention_role_id r) t (stored_leads (ev_lead_minutes r))) w
    = (Raise OverflowError, w').
Proof.
  intros Ht Hr. destruct (abs_body_overflow_step now r t w Ht Hr) as (p & Hp & _). eauto.
Qed.

(** When a stored lead offset leaves the range of datetimes, reconciliation
    raises in its first loop: it has logged nothing, and the jobs it has added
    are primary and lead jobs of rows that store an instant. *)
Lemma schedule_loaded_jobs_overflow_step now w :
  ¬ leads_in_range w →
  ∃ p, schedule_loaded_jobs C now w = (Raise OverflowError, step p [] w) ∧
    ∀ k, k ∈ p.*1 →
      ∃ r, r ∈ events w ∧ is_Some (ev_when_utc r) ∧
           (k = event_job_id (ev_id r) ∨ ∃ m, k = lead_job_id (ev_id r) m).
Proof.
  intros (pre & r & rest & Hev & Hpre & Hr)%Forall_first_failure; [|apply _].
  unfold row_leads_in_range in Hr. destruct (ev_when_utc r) as [t|] eqn:Ht; [|done].
  set (w1 := step (filter (λ r, is_Some (ev_when_utc r)) pre ≫= abs_plan now)
                  (filter (λ r, is_Some (ev_when_utc r)) pre ≫= (λ _, [])) w).
  destruct (abs_body_overflow_step now r t w1 Ht Hr) as (p & Hp & Hkeys).
  exists ((filter (λ r, is_Some (ev_when_utc r)) pre ≫= abs_plan now) ++ p). split.
  - unfold schedule_loaded_jobs. cbn [bind gets].
    rewrite Hev, filter_app, filter_cons_True by (rewrite Ht; eauto).
    erewrite bind_raise; [done|].
    rewrite for_each_app. cbn [for_each].
    erewrite bind_ok; cycle 1.
    { apply (for_each_step _ _ (abs_plan now) (λ _, [])).
      intros r' Hr' w''. apply abs_plan_body.
      apply list_elem_of_filter in Hr' as [_ Hr']. rewrite Forall_forall in Hpre.
      by apply Hpre. }
    rewrite Ht. erewrite bind_raise; [done|]. fold w1. rewrite Hp. unfold w1.
    by rewrite step_step, bind_nil_const.
  - intros k. rewrite fmap_app. intros [Hk|Hk]%elem_of_app.
    + apply list_elem_of_fmap in Hk as ([k' v] & -> & Hkv).
      apply list_elem_of_bind in Hkv as (r' & Hkv & [Hsome Hr']%list_elem_of_filter).
      exists r'. split; [rewrite Hev; apply elem_of_app; by left|]. split; [done|].
      apply elem_of_abs_plan in Hkv as (t' & _ & [(-> & _)|(m & _ & Hj)]); [by left|].
      right. exists m. by apply lead_job_Some in Hj as (ld & _ & _ & -> & _).
    + exists r. split; [rewrite Hev; apply elem_of_app; right; by left|].
      split; [by rewrite Ht|]. by apply Hkeys.
Qed.

Lemma schedule_loaded_jobs_overflow now w :
  ¬ leads_in_range w → ∃ w', schedule_loaded_jobs C now w = (Raise OverflowError, w').
Proof.
  intros Hw. destruct (schedule_loaded_jobs_overflow_step now w Hw) as (p & Hp & _). eauto.
Qed.

(** Claim C9 at its failing input.  When a stored lead offset leaves the range
    of datetimes (see C2), reconciliation raises [OverflowError] in its first
    loop, before the cron rows are looked at: nothing is logged, so no row with
    a malformed cron is reported, and neither the events without an instant
    (the cron rows, valid ones too) nor the reminders get a job. *)
Theorem reconcile_overflow_skips_cron_rows now w :
  ¬ leads_in_range w →
  ∃ w', schedule_loaded_jobs C now w = (Raise OverflowError, w') ∧
    log w' = log w ∧
    (∀ a, (∀ r, r ∈ events w → ev_id r = a → ev_when_utc r = None) →
       jobs w' !! event_job_id a = jobs w !! event_job_id a) ∧
    (∀ a, jobs w' !! reminder_job_id a = jobs w !! reminder_job_id a).
Proof.
  intros Hw. destruct (schedule_loaded_jobs_overflow_step now w Hw) as (p & Hp & Hkeys).
  eexists. split; [exact Hp|]. cbn [jobs log step set_log set_jobs].
  split; [by rewrite app_nil_r|]. split.
  - intros a Hcron. apply apply_plan_lookup_notin.
    intros (r & Hr & [t Ht] & [Hk|[m Hk]])%Hkeys.
    + apply event_job_id_inj in Hk. rewrite (Hcron r Hr) in Ht; done.
    + by apply event_lead_job_id_ne in Hk.
  - intros a. apply apply_plan_lookup_notin.
    intros (r & _ & _ & [Hk|[m Hk]])%Hkeys.
    + symmetry in Hk. by apply event_reminder_job_id_ne in Hk.
    + symmetry in Hk. by apply lead_reminder_job_id_ne in Hk.
Qed.

(** Claim C2 at its failing input.  With the offsets ["6000000000,10"] the
    first lead instant lies before the year 1: [event_create] raises
    [OverflowError] after the row is stored and the primary job added, no job is
    added for the offset 10 although its lead instant may well be in the future,
    and every later reconciliation of the stored row raises too. *)
Theorem lead_overflow_drops_later_offsets now i title s ch role t g w :
  ch_is_text ch = true → i_guild_id i = Some g → Py.truthy_str (Some s) = true →
  (∀ tz, parse_human_time C s tz = Some t) → t ≤ Datetime.MAX →
  ∃ w',
    event_create C now i title (Some s) (Some ch) role None (Some "6000000000,10") w
    = (Raise OverflowError, w') ∧
    (∃ r, r ∈ events w' ∧ ev_id r = events_seq w + 1 ∧ ev_when_utc r = Some t ∧
          stored_leads (ev_lead_minutes r) = [6000000000; 10]) ∧
    jobs w' !! lead_job_id (events_seq w + 1) 10
    = jobs w !! lead_job_id (events_seq w + 1) 10 ∧
    ∀ now', ∃ w'', schedule_loaded_jobs C now' w' = (Raise OverflowError, w'').
Proof.
  intros Hch Hg Hs Hparse Ht. eexists. split.
  { apply (event_create_overflow C now i title s ch role None _ [] 6000000000 [10] t g w);
      try done. by apply sub_minutes_huge. }
  set (r := new_event_row _ _ _ _ _ _ _ _ _ _).
  assert (r ∈ events (step [(event_job_id (ev_id r), date_job r t)] [] (insert_event r w))) as Hr.
  { cbn. apply elem_of_app. right. by left. }
  split; [|split].
  - exists r. by repeat split.
  - cbn [omap jobs step set_log set_jobs]. rewrite apply_plan_lookup_notin; [done|].
    intros [Hk|Hk%elem_of_nil]%elem_of_cons; [|done].
    symmetry in Hk. by apply event_lead_job_id_ne in Hk.
  - intros now'. apply schedule_loaded_jobs_overflow.
    unfold leads_in_range. rewrite Forall_forall. intros Hall.
    specialize (Hall r Hr). unfold row_leads_in_range in Hall. simpl in Hall.
    apply Forall_cons in Hall as [[? Hsome] _].
    by rewrite sub_minutes_huge in Hsome.
Qed.

End Overflow.

Section CreateTheorems.
Variable C : collaborators.

(** Claim C3 at its failing input.  An event created with a cron expression
    that is not accepted (such as the four fields ["* * * *"]) is answered with
    "Bad cron expression", and its row is in the table all the same: the INSERT
    comes before the expression is looked at. *)
Theorem event_create_bad_cron_persists now i title ch role cron g w :
  ch_is_text ch = true → i_guild_id i = Some g →
  Py.truthy_str (Some cron) = true → cron_trigger_of C cron = None →
  event_create C now i title None (Some ch) role (Some cron) None w
  = (Ok BadCronExpression,
     insert_event (new_event_row now i g ch title None (Some cron) role [] w) w).
Proof.
  intros Hch Hg Hcron Hbad. unfold event_create. rewrite Hch, Hcron, Hg. simpl.
  unfold bind, ret, gets, modify, try_except, cron_trigger, or_raise. simpl.
  by rewrite Hbad.
Qed.

(** Claim C6 at its failing input.  [event_create] accepts a request with both
    [when] and [cron]: the stored row has both [when_utc] and [cron] set, and the
    date job is installed under ["event:{id}"]. *)
Theorem event_create_accepts_when_and_cron now i title s ch role cron t g w :
  ch_is_text ch = true → i_guild_id i = Some g → Py.truthy_str (Some s) = true →
  (∀ tz, parse_human_time C s tz = Some t) →
  ∃ res w',
    event_create C now i title (Some s) (Some ch) role (Some cron) None w = (res, w') ∧
    (res = Ok (EventCreatedAndAnnounced title []) ∨ res = Raise HTTPException) ∧
    (∃ r, r ∈ events w' ∧ ev_id r = events_seq w + 1 ∧
          ev_when_utc r = Some t ∧ ev_cron r = Some cron) ∧
    jobs w' !! event_job_id (events_seq w + 1)
    = Some (Job (DateTrigger t) (send_event_task g (ch_id ch) title role)).
Proof.
  intros Hch Hg Hs Hparse.
  rewrite (event_create_when C now i title s ch role (Some cron) None [] t g w) by done.
  set (r := new_event_row _ _ _ _ _ _ _ _ _ _).
  set (w1 := step _ _ _).
  destruct (announce_event_frame C (ev_id r) ch (i_user_id i) w1)
    as (res & w' & Hann & Hres & Hjobs & _ & _ & _ & Hev).
  assert (r ∈ events w1) as Hr by (cbn; apply elem_of_app; right; by left).
  destruct (Hev r Hr) as (r' & Hr' & Hid & _ & _ & _ & Hwhen & Hcron & _).
  unfold bind. rewrite Hann.
  exists (match res with Ok _ => Ok (EventCreatedAndAnnounced title []) | Raise e => Raise e end), w'.
  split; [by destruct res|]. split; [by destruct Hres as [-> | ->]; eauto|].
  split; [by exists r'|].
  rewrite Hjobs. subst w1. cbn [omap jobs step set_log set_jobs].
  rewrite apply_plan_cons. cbn. apply lookup_insert_eq.
Qed.


End CreateTheorems.

(** ** Lists *)

Lemma find_unique {A} (p : A → bool) (l : list A) x :
  x ∈ l → p x = true → (∀ y, y ∈ l → p y = true → y = x) → find p l = Some x.
Proof.
  induction l as [|a l IH]; intros Hx Hp Huniq; [by apply elem_of_nil in Hx|].
  simpl. destruct (p a) eqn:Ha.
  - f_equal. apply Huniq; [by left|done].
  - apply IH; [|done|].
    + apply elem_of_cons in Hx as [->|?]; [congruence|done].
    + intros y Hy. apply Huniq. by right.
Qed.

Lemma find_none_all {A} (p : A → bool) (l : list A) :
  (∀ y, y ∈ l → p y = false) → find p l = None.
Proof.
  induction l as [|a l IH]; intros Hall; [done|].
  simpl. rewrite Hall by left. apply IH. intros y Hy. apply Hall. by right.
Qed.

Lemma filter_all {A} (P : A → Prop) `{!∀ x, Decision (P x)} (l : list A) :
  (∀ x, x ∈ l → P x) → filter P l = l.
Proof.
  induction l as [|a l IH]; intros Hall; [done|].
  rewrite filter_cons_True by (apply Hall; by left).
  f_equal. apply IH. intros x Hx. apply Hall. by right.
Qed.

Lemma filter_none {A} (P : A → Prop) `{!∀ x, Decision (P x)} (l : list A) :
  (∀ x, x ∈ l → ¬ P x) → filter P l = [].
Proof.
  induction l as [|a l IH]; intros Hall; [done|].
  rewrite filter_cons_False by (apply Hall; by left).
  apply IH. intros x Hx. apply Hall. by right.
Qed.

Lemma elem_of_insert_desc x y l : y ∈ Py.insert_desc x l ↔ y = x ∨ y ∈ l.
Proof.
  induction l as [|a l IH]; simpl.
  - rewrite list_elem_of_singleton, elem_of_nil. tauto.
  - destruct (a <? x) eqn:Hlt; [by rewrite elem_of_cons|].
    destruct (a =? x) eqn:Heq.
    + apply Z.eqb_eq in Heq as ->. rewrite elem_of_cons. tauto.
    + rewrite !elem_of_cons, IH. tauto.
Qed.

Lemma elem_of_sorted_set_desc y l : y ∈ Py.sorted_set_desc l ↔ y ∈ l.
Proof.
  unfold Py.sorted_set_desc. induction l as [|a l IH]; simpl; [done|].
  by rewrite elem_of_insert_desc, IH, elem_of_cons.
Qed.

(** An offset reconciliation schedules is one [event_delete] cancels. *)
Lemma stored_leads_cancelled r m :
  m ∈ stored_leads (ev_lead_minutes r) → m ∈ cancelled_leads r.
Proof.
  unfold stored_leads, cancelled_leads, lead_list_of.
  destruct (ev_lead_minutes r) as [s|]; [|done].
  destruct (Py.truthy_str (Some s)); [|done].
  destruct (parse_ints s) as [l|]; simpl; [|done].
  rewrite list_elem_of_filter, elem_of_sorted_set_desc, elem_of_remove_dups. by intros [_ ?].
Qed.

(** ** Cancelling jobs *)

Lemma cancel_all_lookup_in ids j k : k ∈ ids → cancel_all ids j !! k = None.
Proof.
  revert j. induction ids as [|a ids IH]; intros j Hk; [by apply elem_of_nil in Hk|].
  change (cancel_all (a :: ids) j) with (cancel_all ids (delete a j)).
  destruct (decide (k ∈ ids)) as [?|Hn]; [by apply IH|].
  apply elem_of_cons in Hk as [->|?]; [|done].
  clear IH. revert j. induction ids as [|b ids IH]; intros j.
  - apply lookup_delete_eq.
  - change (cancel_all (b :: ids) (delete a j)) with (cancel_all ids (delete b (delete a j))).
    apply not_elem_of_cons in Hn as [Hab Hn]. rewrite delete_delete. by apply IH.
Qed.


Lemma try_remove_job_run id w : try_remove_job id w = (Ok tt, set_jobs (cancel_all [id]) w).
Proof.
  unfold try_remove_job, try_except, remove_job. destruct (jobs w !! id) eqn:Hj; [done|].
  destruct w. unfold raise, ret, set_jobs; simpl in *. by rewrite delete_id.
Qed.

Lemma set_jobs_cancel_all ids1 ids2 w :
  set_jobs (cancel_all ids2) (set_jobs (cancel_all ids1) w) = set_jobs (cancel_all (ids1 ++ ids2)) w.
Proof. unfold set_jobs, cancel_all; simpl. by rewrite foldl_app. Qed.

Lemma for_each_try_remove_job {A} (l : list A) (f : A → string) w :
  for_each l (λ m, try_remove_job (f m)) w = (Ok tt, set_jobs (cancel_all (f <$> l)) w).
Proof.
  revert w. induction l as [|a l IH]; intros w; [by destruct w|].
  cbn [for_each]. erewrite bind_ok by apply try_remove_job_run.
  by rewrite IH, set_jobs_cancel_all.
Qed.

Lemma cancel_leads_run event_id (row : option event_row) w :
  match row with
  | Some r =>
      match ev_lead_minutes r with
      | Some s =>
          if Py.truthy_str (ev_lead_minutes r) then
            try_except
              (l <- or_raise ValueError (parse_ints s) ;;
               for_each (remove_dups l) (λ m, try_remove_job (lead_job_id event_id m)))
              (λ _, ret tt)
          else ret tt
      | None => ret tt
      end
  | None => ret tt
  end%py w
  = (Ok tt, set_jobs (cancel_all (lead_job_id event_id <$> from_option cancelled_leads [] row)) w).
Proof.
  assert (∀ w, ret tt w = (Ok tt, set_jobs (cancel_all []) w)) as Hret by by intros [].
  destruct row as [r|]; [|apply Hret]. unfold cancelled_leads. simpl.
  destruct (ev_lead_minutes r) as [s|]; [|apply Hret].
  destruct (Py.truthy_str (Some s)); [|apply Hret].
  unfold try_except, bind, or_raise. destruct (parse_ints s) as [l|]; simpl.
  - unfold ret at 1. by rewrite for_each_try_remove_job.
  - apply Hret.
Qed.

(** What [event_delete] does to the world. *)
Lemma event_delete_run i event_id w :
  let deleted := length (filter (event_selected i event_id) (events w)) in
  let row := find (λ r, bool_decide (event_selected i event_id r)) (events w) in
  let w1 :=
    set_jobs (cancel_all (event_job_id event_id
                          :: (lead_job_id event_id <$> from_option cancelled_leads [] row))) w in
  event_delete i event_id w
  = (Ok (if bool_decide (deleted = 0%nat) then EventNotFound else EventDeleted event_id),
     set_events (filter (λ r, ¬ event_selected i event_id r))
       (if bool_decide (deleted = 0%nat) then w1
        else set_event_rsvps (filter (λ v, rsvp_event_id v ≠ event_id)) w1)).
Proof.
  intros deleted row w1. unfold event_delete.
  erewrite bind_ok by apply try_remove_job_run.
  erewrite bind_ok by done.
  erewrite bind_ok by apply cancel_leads_run.
  rewrite set_jobs_cancel_all. cbn [app events set_jobs].
  erewrite bind_ok by done. cbn [app events set_jobs].
  fold row. fold deleted. fold w1. unfold bind, modify.
  by destruct (bool_decide (deleted = 0%nat)).
Qed.

Lemma remind_delete_run i reminder_id w :
  let deleted := length (filter (reminder_selected i reminder_id) (reminders w)) in
  remind_delete i reminder_id w
  = (Ok (if bool_decide (deleted = 0%nat) then ReminderNotFound
         else ReminderDeleted reminder_id),
     set_reminders (filter (λ r, ¬ reminder_selected i reminder_id r))
       (set_jobs (cancel_all [reminder_job_id reminder_id]) w)).
Proof.
  intros deleted. unfold remind_delete.
  erewrite bind_ok by apply try_remove_job_run.
  erewrite bind_ok by done. cbn [reminders set_jobs]. fold deleted.
  unfold bind, modify. by destruct (bool_decide (deleted = 0%nat)).
Qed.

Lemma fire_None C id w : jobs w !! id = None → fire C id w = None.
Proof. unfold fire. by intros ->. Qed.

Lemma cancelled_leads_parse r s l m :
  ev_lead_minutes r = Some s → parse_ints s = Some l → m ∈ l → m ∈ cancelled_leads r.
Proof.
  intros Hs Hl Hm. unfold cancelled_leads. rewrite Hs.
  destruct s as [|c s]; [cbv in Hl; simplify_eq; by apply elem_of_nil in Hm|].
  simpl. rewrite Hl. simpl. by apply elem_of_remove_dups.
Qed.

(** Claim C8.  Deleting an event of the invoking guild returns "Deleted"
    whatever the job store holds, removes the row, and leaves no job under
    ["event:{id}"] nor under ["event:{id}:lead:{m}"] for any offset [m] of the
    stored lead list, so none of these ids can fire afterwards. *)
Theorem event_delete_cancels_jobs C i event_id w r :
  ids_unique w → r ∈ events w → ev_id r = event_id → i_guild_id i = Some (ev_guild_id r) →
  ∃ w', event_delete i event_id w = (Ok (EventDeleted event_id), w') ∧
    (∀ r', r' ∈ events w' → ev_id r' ≠ event_id) ∧
    jobs w' !! event_job_id event_id = None ∧
    fire C (event_job_id event_id) w' = None ∧
    ∀ m, (m ∈ stored_leads (ev_lead_minutes r) ∨
          ∃ s l, ev_lead_minutes r = Some s ∧ parse_ints s = Some l ∧ m ∈ l) →
      jobs w' !! lead_job_id event_id m = None ∧
      fire C (lead_job_id event_id m) w' = None.
Proof.
  intros [Hnd _] Hr Hid Hg. rewrite event_delete_run.
  assert (event_selected i event_id r) as Hsel by done.
  assert (find (λ r, bool_decide (event_selected i event_id r)) (events w) = Some r) as ->.
  { apply find_unique; [done|by apply bool_decide_eq_true_2|].
    intros r' Hr' [Hid' _]%bool_decide_eq_true_1.
    apply (fmap_eq_inj_on ev_id (events w)); [done..|congruence]. }
  assert (length (filter (event_selected i event_id) (events w)) ≠ 0%nat) as Hdel.
  { intros Hlen%nil_length_inv. by eapply (filter_nil_not_elem_of (event_selected i event_id)). }
  rewrite bool_decide_eq_false_2 by done.
  eexists. split; [done|]. cbn [events jobs set_events set_event_rsvps set_jobs from_option].
  assert (∀ k, k ∈ event_job_id event_id :: (lead_job_id event_id <$> cancelled_leads r) →
    cancel_all (event_job_id event_id :: (lead_job_id event_id <$> cancelled_leads r)) (jobs w) !! k
    = None) as Hcancel by (intros k; apply cancel_all_lookup_in).
  assert (jobs (set_events (filter (λ r0, ¬ event_selected i event_id r0))
            (set_event_rsvps (filter (λ v, rsvp_event_id v ≠ event_id))
               (set_jobs (cancel_all (event_job_id event_id
                  :: (lead_job_id event_id <$> cancelled_leads r))) w)))
          = cancel_all (event_job_id event_id
              :: (lead_job_id event_id <$> cancelled_leads r)) (jobs w)) as Hjobs by done.
  split; [|split; [|split]].
  - intros r' [Hns Hr']%list_elem_of_filter Hid'. apply Hns. split; [done|].
    assert (r' = r) as -> by (apply (fmap_eq_inj_on ev_id (events w)); [done..|congruence]).
    done.
  - apply Hcancel. by left.
  - apply fire_None. rewrite Hjobs. apply Hcancel. by left.
  - intros m Hm.
    assert (m ∈ cancelled_leads r) as Hc.
    { destruct Hm as [Hm|(s & l & Hs & Hl & Hm)];
        [by apply stored_leads_cancelled|by eapply cancelled_leads_parse]. }
    assert (lead_job_id event_id m
            ∈ event_job_id event_id :: (lead_job_id event_id <$> cancelled_leads r)) as Hk.
    { right. by apply list_elem_of_fmap_2. }
    split; [by apply Hcancel|]. apply fire_None. rewrite Hjobs. by apply Hcancel.
Qed.

(** Claim C10.  [event_delete] removes only rows with the given id and the
    invoking guild, [remind_delete] only rows with the given id and the invoking
    user; when no row with the id has that scope, the caller is told the item
    was not found and every table is unchanged. *)
Theorem delete_scope_checked i event_id reminder_id w :
  (∀ r, r ∈ events w → r ∉ events (event_delete i event_id w).2 →
        ev_id r = event_id ∧ i_guild_id i = Some (ev_guild_id r)) ∧
  (∀ r, r ∈ reminders w → r ∉ reminders (remind_delete i reminder_id w).2 →
        rem_id r = reminder_id ∧ rem_user_id r = Some (i_user_id i)) ∧
  ((∀ r, r ∈ events w → ev_id r = event_id → i_guild_id i ≠ Some (ev_guild_id r)) →
   ∃ w', event_delete i event_id w = (Ok EventNotFound, w') ∧ durable w' = durable w) ∧
  ((∀ r, r ∈ reminders w → rem_id r = reminder_id → rem_user_id r ≠ Some (i_user_id i)) →
   ∃ w', remind_delete i reminder_id w = (Ok ReminderNotFound, w') ∧ durable w' = durable w).
Proof.
  rewrite event_delete_run, remind_delete_run. split; [|split; [|split]].
  - intros r Hr Hnot. destruct (decide (event_selected i event_id r)) as [?|Hns]; [done|].
    destruct Hnot. cbn. apply list_elem_of_filter. split; [done|].
    by destruct (bool_decide _).
  - intros r Hr Hnot. destruct (decide (reminder_selected i reminder_id r)) as [?|Hns]; [done|].
    destruct Hnot. cbn. by apply list_elem_of_filter.
  - intros Hscope.
    assert (∀ r, r ∈ events w → ¬ event_selected i event_id r) as Hnone.
    { intros r Hr [Hid Hg]. by apply (Hscope r). }
    rewrite (filter_none (event_selected i event_id)) by done.
    rewrite bool_decide_eq_true_2 by done.
    eexists. split; [done|]. unfold durable. cbn. by rewrite filter_all.
  - intros Hscope.
    assert (∀ r, r ∈ reminders w → ¬ reminder_selected i reminder_id r) as Hnone.
    { intros r Hr [Hid Hg]. by apply (Hscope r). }
    rewrite (filter_none (reminder_selected i reminder_id)) by done.
    rewrite bool_decide_eq_true_2 by done.
    eexists. split; [done|]. unfold durable. cbn. by rewrite filter_all.
Qed.


(** ** RSVP *)

Lemma update_announcement_message_one_arg event_id w :
  update_announcement_message [ArgInt event_id] w = (Raise TypeError, w).
Proof. done. Qed.

Lemma upsert_rsvp_run event_id user_id status now w :
  upsert_rsvp event_id user_id status now w
  = if existsb (λ v, bool_decide (rsvp_event_id v = event_id ∧ rsvp_user_id v = user_id))
         (event_rsvps w)
    then (Ok tt, set_event_rsvps (fmap (λ v : rsvp_row,
           if bool_decide (rsvp_event_id v = event_id ∧ rsvp_user_id v = user_id)
           then RsvpRow event_id user_id status now else v)) w)
    else if existsb (λ r, bool_decide (ev_id r = event_id)) (events w)
    then (Ok tt, set_event_rsvps (λ l, l ++ [RsvpRow event_id user_id status now]) w)
    else (Raise IntegrityError, w).
Proof. unfold upsert_rsvp. by repeat case_match. Qed.

(** Claim C5 at its failing input.  [_set_status] never returns and never
    calls Discord: either the upsert is refused (no such event), or the vote is
    stored and the call of [update_announcement_message] with one argument
    raises [TypeError], so the announcement is not rendered again. *)
Theorem set_status_never_rerenders now event_id i status w :
  ∃ e w', _set_status now event_id i status w = (Raise e, w') ∧
    discord_calls w' = discord_calls w ∧
    events w' = events w ∧
    ((e = IntegrityError ∧ w' = w) ∨
     (e = TypeError ∧
      RsvpRow event_id (i_user_id i) status now ∈ event_rsvps w')).
Proof.
  unfold _set_status, bind. rewrite upsert_rsvp_run.
  destruct (existsb _ (event_rsvps w)) eqn:Hvote.
  - eexists _, _. split; [done|]. split; [done|]. split; [done|]. right. split; [done|].
    apply existsb_exists in Hvote as (v & Hv%list_elem_of_In & Hkey%bool_decide_eq_true_1).
    cbn. apply list_elem_of_fmap. exists v. split; [|done].
    by rewrite bool_decide_eq_true_2.
  - destruct (existsb _ (events w)).
    + eexists _, _. split; [done|]. split; [done|]. split; [done|]. right. split; [done|].
      cbn. apply elem_of_app. right. by left.
    + eexists _, _. split; [done|]. split; [done|]. split; [done|]. by left.
Qed.

Section Upsert.
Variables (event_id user_id : Z) (status : string) (now : Z).

Let mine (v : rsvp_row) : Prop := rsvp_key v = (event_id, user_id).
Let row : rsvp_row := RsvpRow event_id user_id status now.
Let upd (v : rsvp_row) : rsvp_row :=
  if bool_decide (rsvp_event_id v = event_id ∧ rsvp_user_id v = user_id) then row else v.

Lemma mine_iff v : mine v ↔ rsvp_event_id v = event_id ∧ rsvp_user_id v = user_id.
Proof. unfold mine, rsvp_key. split; [by intros [= -> ->]|by intros [-> ->]]. Qed.

Lemma upd_key v : rsvp_key (upd v) = rsvp_key v.
Proof.
  unfold upd. case_bool_decide as H; [|done]. apply mine_iff in H. by rewrite H.
Qed.

Lemma upd_mine v : mine v → upd v = row.
Proof. intros H%mine_iff. unfold upd. by rewrite bool_decide_eq_true_2. Qed.

Lemma upd_other v : ¬ mine v → upd v = v.
Proof. intros H. unfold upd. rewrite bool_decide_eq_false_2; [done|]. by rewrite <-mine_iff. Qed.

Lemma filter_mine_absent (l : list rsvp_row) :
  (event_id, user_id) ∉ rsvp_key <$> l → filter mine (upd <$> l) = [] ∧ filter mine l = [].
Proof.
  intros Hk. assert (∀ v, v ∈ l → ¬ mine v) as Hl.
  { intros v Hv Hm. apply Hk. rewrite <-Hm. by apply list_elem_of_fmap_2. }
  split; apply filter_none; [|done].
  intros v (v0 & -> & Hv0)%list_elem_of_fmap. rewrite upd_other by auto. auto.
Qed.

Lemma filter_mine_upd (l : list rsvp_row) :
  NoDup (rsvp_key <$> l) → (event_id, user_id) ∈ rsvp_key <$> l →
  filter mine (upd <$> l) = [row].
Proof.
  induction l as [|a l IH]; intros Hnd Hk; [by apply elem_of_nil in Hk|].
  rewrite fmap_cons in Hnd, Hk. apply NoDup_cons in Hnd as [Ha Hnd]. rewrite fmap_cons.
  destruct (decide (mine a)) as [Hm|Hm].
  - rewrite upd_mine by done. rewrite filter_cons_True by done.
    f_equal. apply (filter_mine_absent l). unfold mine in Hm. by rewrite <-Hm.
  - rewrite upd_other by done. rewrite filter_cons_False by done.
    apply IH; [done|]. by apply elem_of_cons in Hk as [?|?].
Qed.

Lemma filter_others_upd (l : list rsvp_row) :
  filter (λ v, ¬ mine v) (upd <$> l) = filter (λ v, ¬ mine v) l.
Proof.
  induction l as [|a l IH]; [done|]. rewrite fmap_cons.
  destruct (decide (mine a)) as [Hm|Hm].
  - rewrite upd_mine by done. rewrite !filter_cons_False; [done|by intros H; apply H..].
  - rewrite upd_other by done. rewrite !filter_cons_True by done. by rewrite IH.
Qed.

Lemma existsb_mine (l : list rsvp_row) :
  existsb (λ v, bool_decide (rsvp_event_id v = event_id ∧ rsvp_user_id v = user_id)) l = true
  ↔ (event_id, user_id) ∈ rsvp_key <$> l.
Proof.
  rewrite existsb_exists, list_elem_of_fmap. split.
  - intros (v & Hv%list_elem_of_In & H%bool_decide_eq_true_1%mine_iff). exists v.
    split; [|done]. symmetry. apply H.
  - intros (v & H & Hv%list_elem_of_In). exists v. split; [done|].
    apply bool_decide_eq_true_2, mine_iff. symmetry. apply H.
Qed.

(** One upsert when the event exists (or the vote does). *)
Lemma upsert_rsvp_spec w :
  rsvp_keys_unique w →
  ((∃ r, r ∈ events w ∧ ev_id r = event_id) ∨ (event_id, user_id) ∈ rsvp_key <$> event_rsvps w) →
  ∃ w', upsert_rsvp event_id user_id status now w = (Ok tt, w') ∧
    rsvp_keys_unique w' ∧
    filter mine (event_rsvps w') = [row] ∧
    filter (λ v, ¬ mine v) (event_rsvps w') = filter (λ v, ¬ mine v) (event_rsvps w) ∧
    events w' = events w.
Proof.
  unfold rsvp_keys_unique. intros Hnd Hex. rewrite upsert_rsvp_run.
  destruct (existsb _ (event_rsvps w)) eqn:Hvote.
  - apply existsb_mine in Hvote. eexists. split; [done|]. cbn. fold upd. fold row.
    split; [|split; [|split]]; [|by apply filter_mine_upd|apply filter_others_upd|done].
    rewrite <-list_fmap_compose.
    erewrite (list_fmap_ext _ rsvp_key); [done|].
    intros ? v _. apply upd_key.
  - assert ((event_id, user_id) ∉ rsvp_key <$> event_rsvps w) as Hno.
    { intros H%existsb_mine. congruence. }
    destruct Hex as [(r & Hr & Hid)|?]; [|done].
    assert (existsb (λ r, bool_decide (ev_id r = event_id)) (events w) = true) as ->.
    { apply existsb_exists. exists r. split; [by apply list_elem_of_In|].
      by apply bool_decide_eq_true_2. }
    eexists. split; [done|]. cbn. fold row.
    split; [|split; [|split]]; [| | |done].
    + rewrite fmap_app. apply NoDup_app. split; [done|]. split; [|apply NoDup_singleton].
      intros k Hk [->|[]%elem_of_nil]%elem_of_cons. done.
    + rewrite filter_app. rewrite (proj2 (filter_mine_absent _ Hno)).
      by rewrite filter_cons_True.
    + rewrite filter_app, filter_cons_False, filter_nil, app_nil_r; [done|].
      intros H. by apply H.
Qed.

End Upsert.

Lemma set_status_world now event_id i status w w' :
  upsert_rsvp event_id (i_user_id i) status now w = (Ok tt, w') →
  _set_status now event_id i status w = (Raise TypeError, w').
Proof. intros H. unfold _set_status. erewrite bind_ok by apply H. done. Qed.

(** Claim C7.  In a table with at most one row per (event, user), a vote for
    an existing event leaves at most one row per pair, exactly one row for the
    voter's pair, holding the new status, and the rows of the other pairs as
    they were; a second vote overwrites the first, and with the same status it
    leaves exactly one row with that status. *)
Theorem rsvp_upsert_semantics now1 now2 event_id i status1 status2 w :
  rsvp_keys_unique w → (∃ r, r ∈ events w ∧ ev_id r = event_id) →
  let w1 := (_set_status now1 event_id i status1 w).2 in
  let w2 := (_set_status now2 event_id i status2 w1).2 in
  let mine (v : rsvp_row) := rsvp_key v = (event_id, i_user_id i) in
  rsvp_keys_unique w1 ∧ rsvp_keys_unique w2 ∧
  filter mine (event_rsvps w1) = [RsvpRow event_id (i_user_id i) status1 now1] ∧
  filter mine (event_rsvps w2) = [RsvpRow event_id (i_user_id i) status2 now2] ∧
  filter (λ v, ¬ mine v) (event_rsvps w1) = filter (λ v, ¬ mine v) (event_rsvps w) ∧
  filter (λ v, ¬ mine v) (event_rsvps w2) = filter (λ v, ¬ mine v) (event_rsvps w).
Proof.
  intros Hnd Hev w1 w2 mine.
  destruct (upsert_rsvp_spec event_id (i_user_id i) status1 now1 w Hnd)
    as (w1' & Hup1 & Hnd1 & Hmine1 & Hoth1 & Hev1); [by left|].
  assert (w1 = w1') as Hw1 by (subst w1; by erewrite set_status_world).
  destruct (upsert_rsvp_spec event_id (i_user_id i) status2 now2 w1' Hnd1)
    as (w2' & Hup2 & Hnd2 & Hmine2 & Hoth2 & Hev2); [left; by rewrite Hev1|].
  assert (w2 = w2') as Hw2 by (subst w2; rewrite Hw1; by erewrite set_status_world).
  rewrite Hw1, Hw2. repeat split; try done. etrans; [apply Hoth2|apply Hoth1].
Qed.

(** A decidable proposition that evaluates to true. *)
Ltac by_decide :=
  match goal with |- ?P => apply (bool_decide_eq_true_1 P); vm_compute; reflexivity end.

(** ** The theorems on the example worlds *)

Lemma reconcile_cron_job_for_past_event_witness :
  ids_unique both_world ∧ leads_in_range both_world ∧
  demo_event 1 (Some 100) (Some "0 19 * * TUE") None ∈ events both_world ∧
  100 ≤ 200 ∧
  cron_trigger_of (demo_collaborators true) "0 19 * * TUE"
  = Some (CronTrigger "0" "19" "*" "*" "TUE") ∧
  ∃ w', schedule_loaded_jobs (demo_collaborators true) 200 both_world = (Ok tt, w') ∧
    jobs w' !! event_job_id 1
    = Some (Job (CronTrigger "0" "19" "*" "*" "TUE") (send_event_task 7 5 "standup" None)).
Proof.
  assert (ids_unique both_world) as H1 by (unfold ids_unique; by_decide).
  assert (leads_in_range both_world) as H2 by by_decide.
  assert (demo_event 1 (Some 100) (Some "0 19 * * TUE") None ∈ events both_world) as H3
    by by left.
  assert (100 ≤ 200) as H4 by lia.
  exact (conj H1 (conj H2 (conj H3 (conj H4 (conj eq_refl
    (reconcile_cron_job_for_past_event (demo_collaborators true) 200 both_world
       (demo_event 1 (Some 100) (Some "0 19 * * TUE") None) 100 "0 19 * * TUE"
       (CronTrigger "0" "19" "*" "*" "TUE") H1 H2 H3 eq_refl H4 eq_refl eq_refl)))))).
Defined.

Lemma reconcile_past_event_with_cron_gets_job :
  demo_event 1 (Some 100) (Some "0 19 * * TUE") None ∈ events both_world ∧
  100 ≤ 200 ∧
  jobs both_world !! event_job_id 1 = None ∧
  (schedule_loaded_jobs (demo_collaborators true) 200 both_world).1 = Ok tt ∧
  jobs (schedule_loaded_jobs (demo_collaborators true) 200 both_world).2 !! event_job_id 1
  = Some (Job (CronTrigger "0" "19" "*" "*" "TUE") (send_event_task 7 5 "standup" None)).
Proof.
  split; [by left|]. split; [done|]. repeat split; vm_compute; reflexivity.
Qed.

(** The same from a new database: the event is created with both [when] and
    [cron], its instant passes, and the process starts again. *)
Example created_with_when_and_cron_then_reconciled :
  let w1 := (event_create (demo_collaborators true) 0 demo_interaction "standup" (Some "100")
               (Some (Channel 5 true)) None (Some "0 19 * * TUE") None fresh_world).2 in
  jobs w1 !! event_job_id 1
  = Some (Job (DateTrigger 100) (send_event_task 7 5 "standup" None)) ∧
  let w2 := set_jobs (λ _, ∅) w1 in
  (schedule_loaded_jobs (demo_collaborators true) 200 w2).1 = Ok tt ∧
  jobs (schedule_loaded_jobs (demo_collaborators true) 200 w2).2 !! event_job_id 1
  = Some (Job (CronTrigger "0" "19" "*" "*" "TUE") (send_event_task 7 5 "standup" None)).
Proof. repeat split; vm_compute; reflexivity. Qed.

Lemma lead_overflow_drops_later_offsets_witness :
  (∀ tz, parse_human_time (demo_collaborators true) "3600000000" tz = Some 3600000000) ∧
  3600000000 ≤ Datetime.MAX ∧
  ∃ w',
    event_create (demo_collaborators true) 0 demo_interaction "standup" (Some "3600000000")
      (Some (Channel 5 true)) None None (Some "6000000000,10") fresh_world
    = (Raise OverflowError, w') ∧
    (∃ r, r ∈ events w' ∧ ev_id r = events_seq fresh_world + 1 ∧
          ev_when_utc r = Some 3600000000 ∧
          stored_leads (ev_lead_minutes r) = [6000000000; 10]) ∧
    jobs w' !! lead_job_id (events_seq fresh_world + 1) 10
    = jobs fresh_world !! lead_job_id (events_seq fresh_world + 1) 10 ∧
    ∀ now', ∃ w'',
      schedule_loaded_jobs (demo_collaborators true) now' w' = (Raise OverflowError, w'').
Proof.
  split; [done|]. split; [by_decide|].
  apply (lead_overflow_drops_later_offsets (demo_collaborators true) 0 demo_interaction
           "standup" "3600000000" (Channel 5 true) None 3600000000 7 fresh_world);
    try reflexivity.
  by_decide.
Defined.

Lemma event_create_bad_cron_persists_witness :
  cron_trigger_of (demo_collaborators true) "* * * *" = None ∧
  event_create (demo_collaborators true) 0 demo_interaction "standup" None
    (Some (Channel 5 true)) None (Some "* * * *") None fresh_world
  = (Ok BadCronExpression,
     insert_event (new_event_row 0 demo_interaction 7 (Channel 5 true) "standup" None
                     (Some "* * * *") None [] fresh_world) fresh_world).
Proof.
  split; [reflexivity|].
  apply (event_create_bad_cron_persists (demo_collaborators true) 0 demo_interaction
           "standup" (Channel 5 true) None "* * * *" 7 fresh_world); reflexivity.
Defined.

Lemma event_create_accepts_when_and_cron_witness :
  (∀ tz, parse_human_time (demo_collaborators true) "100" tz = Some 100) ∧
  ∃ res w',
    event_create (demo_collaborators true) 0 demo_interaction "standup" (Some "100")
      (Some (Channel 5 true)) None (Some "0 19 * * TUE") None fresh_world = (res, w') ∧
    (res = Ok (EventCreatedAndAnnounced "standup" []) ∨ res = Raise HTTPException) ∧
    (∃ r, r ∈ events w' ∧ ev_id r = events_seq fresh_world + 1 ∧
          ev_when_utc r = Some 100 ∧ ev_cron r = Some "0 19 * * TUE") ∧
    jobs w' !! event_job_id (events_seq fresh_world + 1)
    = Some (Job (DateTrigger 100) (send_event_task 7 5 "standup" None)).
Proof.
  split; [done|].
  apply (event_create_accepts_when_and_cron (demo_collaborators true) 0 demo_interaction
           "standup" "100" (Channel 5 true) None "0 19 * * TUE" 100 7 fresh_world);
    reflexivity.
Defined.


Example send_reminder_deletes_row_when_delivery_returns :
  send_reminder (demo_collaborators true) 1 demo_world
  = (Ok tt, set_reminders (λ _, [])
              (set_discord_calls (λ _, [channel_send 5 "**Reminder:** tea"]) demo_world)).
Proof. reflexivity. Qed.

Example send_reminder_deletes_row_when_guild_is_unknown :
  send_reminder unresolved_collaborators 1 demo_world
  = (Ok tt, set_reminders (λ _, []) demo_world).
Proof. reflexivity. Qed.


Lemma rsvp_upsert_semantics_witness :
  rsvp_keys_unique demo_world ∧
  (∃ r, r ∈ events demo_world ∧ ev_id r = 1) ∧
  let w1 := (_set_status 10 1 demo_interaction "going" demo_world).2 in
  let w2 := (_set_status 20 1 demo_interaction "going" w1).2 in
  let mine (v : rsvp_row) := rsvp_key v = (1, i_user_id demo_interaction) in
  rsvp_keys_unique w1 ∧ rsvp_keys_unique w2 ∧
  filter mine (event_rsvps w1) = [RsvpRow 1 (i_user_id demo_interaction) "going" 10] ∧
  filter mine (event_rsvps w2) = [RsvpRow 1 (i_user_id demo_interaction) "going" 20] ∧
  filter (λ v, ¬ mine v) (event_rsvps w1) = filter (λ v, ¬ mine v) (event_rsvps demo_world) ∧
  filter (λ v, ¬ mine v) (event_rsvps w2) = filter (λ v, ¬ mine v) (event_rsvps demo_world).
Proof.
  assert (rsvp_keys_unique demo_world) as H1 by (unfold rsvp_keys_unique; by_decide).
  assert (∃ r, r ∈ events demo_world ∧ ev_id r = 1) as H2.
  { exists (demo_event 1 (Some 3600000000) None (Some "60,10")). split; [by left|done]. }
  exact (conj H1 (conj H2
    (rsvp_upsert_semantics 10 20 1 demo_interaction "going" "going" demo_world H1 H2))).
Defined.

Lemma event_delete_cancels_jobs_witness :
  ids_unique scheduled_world ∧
  demo_event 1 (Some 3600000000) None (Some "60,10") ∈ events scheduled_world ∧
  jobs scheduled_world !! event_job_id 1
  = Some (Job (DateTrigger 3600000000) (send_event_task 7 5 "standup" None)) ∧
  jobs scheduled_world !! lead_job_id 1 10
  = Some (Job (DateTrigger 3000000000)
            (send_event_task 7 5 "standup starts in 10 min" None)) ∧
  jobs scheduled_world !! lead_job_id 1 60 = None ∧
  ∃ w', event_delete demo_interaction 1 scheduled_world = (Ok (EventDeleted 1), w') ∧
    (∀ r', r' ∈ events w' → ev_id r' ≠ 1) ∧
    jobs w' !! event_job_id 1 = None ∧
    fire (demo_collaborators true) (event_job_id 1) w' = None ∧
    ∀ m, (m ∈ stored_leads (Some "60,10") ∨
          ∃ s l, Some "60,10" = Some s ∧ parse_ints s = Some l ∧ m ∈ l) →
      jobs w' !! lead_job_id 1 m = None ∧
      fire (demo_collaborators true) (lead_job_id 1 m) w' = None.
Proof.
  assert (ids_unique scheduled_world) as H1 by (unfold ids_unique; by_decide).
  assert (demo_event 1 (Some 3600000000) None (Some "60,10") ∈ events scheduled_world) as H2
    by by left.
  split; [exact H1|]. split; [exact H2|].
  split; [vm_compute; reflexivity|]. split; [vm_compute; reflexivity|].
  split; [vm_compute; reflexivity|].
  exact (event_delete_cancels_jobs (demo_collaborators true) demo_interaction 1 scheduled_world
           (demo_event 1 (Some 3600000000) None (Some "60,10")) H1 H2 eq_refl eq_refl).
Defined.

Lemma reconcile_primary_and_reminder_jobs_witness :
  ids_unique demo_world ∧ leads_in_range demo_world ∧
  cron_trigger_of (demo_collaborators true) "* * * *" = None ∧
  ∃ w', schedule_loaded_jobs (demo_collaborators true) 0 demo_world = (Ok tt, w') ∧
    BadCronForEvent 2 ∈ log w' ∧
    jobs w' !! event_job_id 2 = None ∧
    jobs w' !! event_job_id 3
    = Some (Job (CronTrigger "0" "19" "*" "*" "TUE") (send_event_task 7 5 "standup" None)) ∧
    jobs w' !! event_job_id 1
    = Some (Job (DateTrigger 3600000000) (send_event_task 7 5 "standup" None)) ∧
    jobs w' !! event_job_id 4 = None ∧
    jobs w' !! reminder_job_id 1 = Some (Job (DateTrigger 100) (send_reminder_task 1)).
Proof.
  assert (ids_unique demo_world) as H1 by (unfold ids_unique; by_decide).
  assert (leads_in_range demo_world) as H2 by by_decide.
  split; [done|]. split; [done|]. split; [reflexivity|].
  destruct (reconcile_primary_and_reminder_jobs (demo_collaborators true) 0 demo_world H1 H2)
    as (w' & Hrun & Hbad & Hcron & Hdate & Hnone & Hrem & _).
  exists w'. split; [done|]. split; [|split; [|split; [|split; [|split]]]].
  - apply (Hbad (demo_event 2 None (Some "* * * *") None) "* * * *");
      [by right; left|done|reflexivity].
  - apply (Hnone (demo_event 2 None (Some "* * * *") None));
      [by right; left|done|reflexivity].
  - apply (Hcron (demo_event 3 None (Some "0 19 * * TUE") None) "0 19 * * TUE");
      [by right; right; left|done|reflexivity].
  - apply (Hdate (demo_event 1 (Some 3600000000) None (Some "60,10")) 3600000000);
      [by left|done|done|reflexivity].
  - apply (Hnone (demo_event 4 (Some (-5)) None None));
      [by right; right; right; left| |reflexivity].
    intros t [= <-]. done.
  - apply (Hrem (ReminderRow 1 (Some 7) (Some 5) (Some 42) "tea" 100 None 0));
      [by left|done].
Defined.

Lemma delete_scope_checked_witness :
  (∃ w', event_delete other_guild_interaction 1 demo_world = (Ok EventNotFound, w') ∧
         durable w' = durable demo_world) ∧
  (∃ w', remind_delete other_guild_interaction 1 demo_world = (Ok ReminderNotFound, w') ∧
         durable w' = durable demo_world).
Proof.
  destruct (delete_scope_checked other_guild_interaction 1 1 demo_world)
    as (_ & _ & Hev & Hrem).
  split.
  - apply Hev. intros r Hr Hid.
    repeat (apply elem_of_cons in Hr as [->|Hr]; [by simplify_eq/=|]).
    by apply elem_of_nil in Hr.
  - apply Hrem. intros r Hr Hid.
    repeat (apply elem_of_cons in Hr as [->|Hr]; [by simplify_eq/=|]).
    by apply elem_of_nil in Hr.
Defined.

Lemma reconcile_lead_jobs_witness :
  ids_unique demo_world ∧ leads_in_range demo_world ∧
  ∃ w', schedule_loaded_jobs (demo_collaborators true) 0 demo_world = (Ok tt, w') ∧
    jobs w' !! lead_job_id 1 10
    = Some (Job (DateTrigger 3000000000)
              (send_event_task 7 5 "standup starts in 10 min" None)) ∧
    jobs w' !! lead_job_id 1 60 = None.
Proof.
  assert (ids_unique demo_world) as H1 by (unfold ids_unique; by_decide).
  assert (leads_in_range demo_world) as H2 by by_decide.
  split; [done|]. split; [done|].
  destruct (reconcile_lead_jobs (demo_collaborators true) 0 demo_world H1 H2)
    as (w' & Hrun & Hleads).
  exists w'. split; [done|]. split.
  - destruct (Hleads (demo_event 1 (Some 3600000000) None (Some "60,10")) 3600000000 10)
      as (ld & Hld & _ & Hfut & _); [by left|done|by right; left|].
    cbv in Hld. simplify_eq. by apply Hfut.
  - destruct (Hleads (demo_event 1 (Some 3600000000) None (Some "60,10")) 3600000000 60)
      as (ld & Hld & _ & _ & Hpast); [by left|done|by left|].
    cbv in Hld. simplify_eq. etrans; [by apply Hpast|reflexivity].
Defined.


(** The scenario of the specification: an event one hour ahead with the
    offsets 60 and 10 gets the primary job and the 10-minute lead job, and no
    job for the offset whose lead instant is the present instant. *)
Example create_hour_ahead_two_jobs :
  map_to_list (jobs (event_create (demo_collaborators true) 0 demo_interaction "standup"
                       (Some "3600000000") None None None (Some "60,10") fresh_world).2)
  ≡ₚ [(event_job_id 1,
       Job (DateTrigger 3600000000) (send_event_task 7 5 "standup" None));
      (lead_job_id 1 10,
       Job (DateTrigger 3000000000)
           (send_event_task 7 5 "standup starts in 10 min" None))].
Proof. vm_compute. apply Permutation_swap. Qed.

(** Creation and reconciliation agree on the example: the world after the
    creation, given to a fresh scheduler, gets the same two jobs. *)
Example reconcile_after_create_same_jobs :
  let w := (event_create (demo_collaborators true) 0 demo_interaction "standup"
              (Some "3600000000") None None None (Some "60,10") fresh_world).2 in
  jobs (schedule_loaded_jobs (demo_collaborators true) 0 (set_jobs (λ _, ∅) w)).2 = jobs w.
Proof. vm_compute. reflexivity. Qed.

(** ** The primary keys stay unique *)

Section Preserves.
Context (P : world → Prop).

Lemma preserves_ret {A} (a : A) : preserves P (ret a).
Proof. intros w Hw. exact Hw. Qed.

Lemma preserves_raise {A} e : preserves P (@raise A e).
Proof. intros w Hw. exact Hw. Qed.

Lemma preserves_gets {A} (f : world → A) : preserves P (gets f).
Proof. intros w Hw. exact Hw. Qed.

Lemma preserves_or_raise {A} e (o : option A) : preserves P (or_raise e o).
Proof. destruct o; intros w Hw; exact Hw. Qed.

Lemma preserves_bind {A B} (m : M A) (k : A → M B) :
  preserves P m → (∀ a, preserves P (k a)) → preserves P (x <- m ;; k x).
Proof.
  intros Hm Hk w Hw. unfold bind. specialize (Hm w Hw).
  destruct (m w) as [[a|e] w1]; [|done]. by apply Hk.
Qed.

Lemma preserves_try_except {A} (m : M A) h :
  preserves P m → (∀ e, preserves P (h e)) → preserves P (try_except m h).
Proof.
  intros Hm Hh w Hw. unfold try_except. specialize (Hm w Hw).
  destruct (m w) as [[a|e] w1]; [done|]. by apply Hh.
Qed.

Lemma preserves_for_each {A} (l : list A) body :
  (∀ x, preserves P (body x)) → preserves P (for_each l body).
Proof.
  intros Hbody. induction l as [|x l IH]; [intros w Hw; exact Hw|].
  apply preserves_bind; [done|]. by intros _.
Qed.

Lemma preserves_modify (f : world → world) : (∀ w, P w → P (f w)) → preserves P (modify f).
Proof. intros Hf w Hw. by apply Hf. Qed.

End Preserves.

Lemma store_ok_table_ids w w' : table_ids w' = table_ids w → store_ok w → store_ok w'.
Proof.
  unfold table_ids, store_ok, ids_unique, rsvp_keys_unique. intros [= -> -> -> -> ->]. done.
Qed.

Lemma keeps_ids_preserves {A} (m : M A) : keeps_ids m → preserves store_ok m.
Proof. intros Hm w Hw. eapply store_ok_table_ids; [apply Hm|done]. Qed.

Lemma keeps_ids_modify_jobs f : keeps_ids (modify (set_jobs f)).
Proof. done. Qed.

Lemma keeps_ids_modify_log f : keeps_ids (modify (set_log f)).
Proof. done. Qed.

Lemma preserves_add_job id j : preserves store_ok (add_job id j).
Proof. by apply keeps_ids_preserves. Qed.

Lemma preserves_try_remove_job id : preserves store_ok (try_remove_job id).
Proof. apply keeps_ids_preserves. intros w. by rewrite try_remove_job_run. Qed.

Lemma preserves_discord C c : preserves store_ok (discord C c).
Proof.
  apply keeps_ids_preserves. intros w. unfold discord. by destruct (discord_returns C _ c).
Qed.

Lemma preserves_schedule_leads now ev g c t r run_dt ms :
  preserves store_ok (schedule_leads now ev g c t r run_dt ms).
Proof.
  apply preserves_for_each. intros m. apply preserves_bind; [apply preserves_or_raise|].
  intros ld. case_bool_decide; [apply preserves_add_job|apply preserves_ret].
Qed.

Lemma preserves_announce_event C event_id ch u :
  preserves store_ok (announce_event C event_id ch u).
Proof.
  apply keeps_ids_preserves.
  intros w. unfold announce_event, bind, gets, user_timezone.
  destruct (find _ (events w)); [|done].
  unfold discord. cbn.
  match goal with |- context [discord_returns ?a ?b ?c] => destruct (discord_returns a b c) end;
    cbn; [|done].
  unfold table_ids. cbn. do 4 f_equal.
  rewrite <-list_fmap_compose. apply list_fmap_ext. intros ? r _. simpl.
  by case_bool_decide.
Qed.

Lemma preserves_cron_trigger C c : preserves store_ok (cron_trigger C c).
Proof. apply preserves_or_raise. Qed.

Lemma store_ok_insert_event r w :
  ev_id r = events_seq w + 1 → store_ok w → store_ok (insert_event r w).
Proof.
  unfold store_ok, ids_unique. cbn. intros Hr [[Hnd Hndr] [Hrsvp [Hev Hrem]]].
  rewrite fmap_app. simpl. repeat split; try done.
  - apply NoDup_app. split; [done|]. split; [|apply NoDup_singleton].
    intros id Hid [->|[]%elem_of_nil]%elem_of_cons.
    rewrite Forall_forall in Hev. specialize (Hev _ Hid). lia.
  - apply Forall_app. split; [|apply Forall_singleton; lia].
    eapply Forall_impl; [done|]. simpl. intros. lia.
Qed.

Lemma store_ok_insert_reminder r w :
  rem_id r = reminders_seq w + 1 → store_ok w → store_ok (insert_reminder r w).
Proof.
  unfold store_ok, ids_unique. cbn. intros Hr [[Hnd Hndr] [Hrsvp [Hev Hrem]]].
  rewrite fmap_app. simpl. repeat split; try done.
  - apply NoDup_app. split; [done|]. split; [|apply NoDup_singleton].
    intros id Hid [->|[]%elem_of_nil]%elem_of_cons.
    rewrite Forall_forall in Hrem. specialize (Hrem _ Hid). lia.
  - apply Forall_app. split; [|apply Forall_singleton; lia].
    eapply Forall_impl; [done|]. simpl. intros. lia.
Qed.

(** Deleting rows keeps the store well formed. *)
Lemma store_ok_sublist w w' :
  ev_id <$> events w' `sublist_of` ev_id <$> events w →
  rem_id <$> reminders w' `sublist_of` rem_id <$> reminders w →
  rsvp_key <$> event_rsvps w' `sublist_of` rsvp_key <$> event_rsvps w →
  events_seq w' = events_seq w → reminders_seq w' = reminders_seq w →
  store_ok w → store_ok w'.
Proof.
  unfold store_ok, ids_unique, rsvp_keys_unique.
  intros Hev Hrem Hrsvp -> -> [[Hnd Hndr] [Hk [Hle Hler]]].
  split; [split|split; [|split]].
  - exact (sublist_NoDup _ _ Hnd Hev).
  - exact (sublist_NoDup _ _ Hndr Hrem).
  - exact (sublist_NoDup _ _ Hk Hrsvp).
  - rewrite Forall_forall in Hle |- *. intros id Hid. apply Hle. by eapply elem_of_sublist.
  - rewrite Forall_forall in Hler |- *. intros id Hid. apply Hler. by eapply elem_of_sublist.
Qed.

Lemma store_ok_fresh_world : store_ok fresh_world.
Proof. repeat split; constructor. Qed.

Section Reachable.
Variable C : collaborators.

Lemma preserves_send_event g c t r : preserves store_ok (send_event C g c t r).
Proof.
  unfold send_event. repeat case_match; try apply preserves_ret.
  apply preserves_bind; [apply preserves_discord|]. intros _. apply preserves_ret.
Qed.

Lemma preserves_send_reminder reminder_id : preserves store_ok (send_reminder C reminder_id).
Proof.
  unfold send_reminder. apply preserves_bind; [apply preserves_gets|]. intros [r|];
    [|apply preserves_ret].
  apply preserves_bind.
  - repeat case_match; try apply preserves_ret; try apply preserves_raise;
      repeat (apply preserves_bind; [apply preserves_discord|intros _]);
      apply preserves_ret.
  - intros _. apply preserves_modify. intros w. apply store_ok_sublist; try done.
    cbn. apply fmap_sublist, sublist_filter.
Qed.

Lemma preserves_event_create now i title when ch role cron ls :
  preserves store_ok (event_create C now i title when ch role cron ls).
Proof.
  unfold event_create.
  destruct (match ch with Some c => Some c | None => i_channel i end) as [c|];
    [|apply preserves_ret].
  destruct (negb (ch_is_text c)); [apply preserves_ret|].
  destruct (negb (Py.truthy_str when) && negb (Py.truthy_str cron)); [apply preserves_ret|].
  apply preserves_bind.
  { destruct when as [s|]; [|apply preserves_ret].
    destruct (Py.truthy_str (Some s)); [|apply preserves_ret].
    apply preserves_bind; [apply preserves_gets|]. intros tz. apply preserves_ret. }
  intros [when_utc|]; [|apply preserves_ret].
  destruct (lead_list_arg ls) as [lead_list|]; [|apply preserves_ret].
  apply preserves_bind; [apply preserves_or_raise|]. intros g.
  intros w Hw. unfold bind at 1. cbn [gets]. unfold bind at 1. cbn [modify].
  match goal with
  | |- store_ok (?m ?w1).2 =>
      cut (preserves store_ok m); [intros Hm; apply Hm; by apply store_ok_insert_event|]
  end.
  destruct when_utc as [t|].
  - apply preserves_bind; [apply preserves_add_job|]. intros _.
    apply preserves_bind; [apply preserves_schedule_leads|]. intros _.
    apply preserves_bind; [apply preserves_gets|]. intros _.
    apply preserves_bind; [apply preserves_announce_event|]. intros _. apply preserves_ret.
  - apply preserves_try_except; [|intros _; apply preserves_ret].
    destruct cron as [ce|]; [|apply preserves_raise].
    apply preserves_bind; [apply preserves_cron_trigger|]. intros t.
    apply preserves_bind; [apply preserves_add_job|]. intros _. apply preserves_ret.
Qed.

End Reachable.

Lemma preserves_event_delete i event_id : preserves store_ok (event_delete i event_id).
Proof.
  intros w Hw. rewrite event_delete_run. cbn [snd].
  destruct (bool_decide _).
  - eapply store_ok_sublist; [..|exact Hw]; try done.
    cbn. apply fmap_sublist, sublist_filter.
  - eapply store_ok_sublist; [..|exact Hw]; try done; cbn; apply fmap_sublist, sublist_filter.
Qed.

Lemma preserves_remind_delete i reminder_id : preserves store_ok (remind_delete i reminder_id).
Proof.
  intros w Hw. rewrite remind_delete_run. cbn [snd].
  eapply store_ok_sublist; [..|exact Hw]; try done.
  cbn. apply fmap_sublist, sublist_filter.
Qed.

Lemma preserves_upsert_rsvp event_id user_id status now :
  preserves store_ok (upsert_rsvp event_id user_id status now).
Proof.
  intros w Hw.
  assert ((∃ r, r ∈ events w ∧ ev_id r = event_id)
          ∨ (event_id, user_id) ∈ rsvp_key <$> event_rsvps w
          → store_ok (upsert_rsvp event_id user_id status now w).2) as Hyes.
  { intros Hex. destruct Hw as ([Hnd Hndr] & Hk & Hle & Hler).
    destruct (upsert_rsvp_spec event_id user_id status now w Hk Hex)
      as (w' & Hrun & Hk' & _). rewrite Hrun. cbn [snd].
    rewrite upsert_rsvp_run in Hrun. unfold store_ok, ids_unique.
    repeat case_match; simplify_eq; by repeat split. }
  destruct (existsb (λ v, bool_decide (rsvp_event_id v = event_id ∧ rsvp_user_id v = user_id))
              (event_rsvps w)) eqn:Hvote.
  { apply Hyes. right. by apply existsb_mine. }
  destruct (existsb (λ r, bool_decide (ev_id r = event_id)) (events w)) eqn:Hev.
  { apply Hyes. left.
    apply existsb_exists in Hev as (r & Hr%list_elem_of_In & Hid%bool_decide_eq_true_1).
    by exists r. }
  by rewrite upsert_rsvp_run, Hvote, Hev.
Qed.

Section ReachableStoreOk.
Variable C : collaborators.

Lemma preserves_set_status now event_id i status :
  preserves store_ok (_set_status now event_id i status).
Proof.
  unfold _set_status. apply preserves_bind; [apply preserves_upsert_rsvp|]. intros _.
  apply preserves_bind; [apply preserves_raise|]. intros _. apply preserves_ret.
Qed.

Lemma preserves_remind_add now i when message ch role :
  preserves store_ok (remind_add C now i when message ch role).
Proof.
  unfold remind_add. apply preserves_bind; [apply preserves_gets|]. intros tz.
  destruct (parse_human_time C when tz); [|apply preserves_ret].
  intros w Hw. unfold bind at 1. cbn [gets]. unfold bind at 1. cbn [modify].
  match goal with
  | |- store_ok (?m ?w1).2 =>
      cut (preserves store_ok m); [intros Hm; apply Hm; by apply store_ok_insert_reminder|]
  end.
  apply preserves_bind; [apply preserves_add_job|]. intros _. apply preserves_ret.
Qed.

Lemma preserves_schedule_loaded_jobs now : preserves store_ok (schedule_loaded_jobs C now).
Proof.
  unfold schedule_loaded_jobs.
  apply preserves_bind; [apply preserves_gets|]. intros rows.
  apply preserves_bind.
  { apply preserves_for_each. intros r. destruct (ev_when_utc r); [|apply preserves_ret].
    apply preserves_bind; [|intros _; apply preserves_schedule_leads].
    case_bool_decide; [apply preserves_add_job|apply preserves_ret]. }
  intros _. apply preserves_bind; [apply preserves_gets|]. intros rows2.
  apply preserves_bind.
  { apply preserves_for_each. intros r. destruct (ev_cron r); [|apply preserves_ret].
    apply preserves_try_except.
    - apply preserves_bind; [apply preserves_cron_trigger|]. intros t.
      apply preserves_add_job.
    - intros _. by apply keeps_ids_preserves. }
  intros _. apply preserves_bind; [apply preserves_gets|]. intros rows3.
  apply preserves_for_each. intros r.
  case_bool_decide; [apply preserves_add_job|apply preserves_ret].
Qed.

Lemma store_ok_fire id w : store_ok w → store_ok (from_option snd w (fire C id w)).
Proof.
  intros Hw. unfold fire. destruct (jobs w !! id) as [j|]; [|done]. cbn [from_option snd].
  revert w Hw. change (preserves store_ok
    (match job_trigger j with
     | DateTrigger _ => modify (set_jobs (delete id))
     | CronTrigger _ _ _ _ _ => ret tt
     end ;;; run_callback C (job_func j))).
  apply preserves_bind.
  - destruct (job_trigger j); [by apply keeps_ids_preserves|apply preserves_ret].
  - intros _. destruct (job_func j); [apply preserves_send_event|apply preserves_send_reminder].
Qed.

(** In every world the bot can reach from a new database, the primary keys of
    the three tables are unique and the sequences are not behind the ids. *)
Theorem reachable_store_ok w : reachable C w → store_ok w.
Proof.
  induction 1 as [|a w _ IH]; [apply store_ok_fresh_world|].
  destruct a; cbn [run_action].
  - by apply preserves_event_create.
  - by apply preserves_event_delete.
  - by apply preserves_remind_add.
  - by apply preserves_remind_delete.
  - by apply preserves_set_status.
  - by apply preserves_schedule_loaded_jobs.
  - by apply store_ok_fire.
Qed.

End ReachableStoreOk.

(** A row with both an instant and a cron expression is reachable. *)
Example both_columns_reachable :
  ∃ w r, reachable (demo_collaborators true) w ∧ r ∈ events w ∧
         ev_when_utc r = Some 100 ∧ ev_cron r = Some "0 19 * * TUE".
Proof.
  eexists _, _. split; [|split].
  - apply (reachable_step _ (do_event_create 0 demo_interaction "standup" (Some "100")
             None None (Some "0 19 * * TUE") None)), reachable_fresh.
  - vm_compute. left.
  - done.
Qed.

Lemma reachable_store_ok_witness :
  reachable (demo_collaborators true)
    (run_action (demo_collaborators true)
       (do_event_create 0 demo_interaction "standup" (Some "100") None None
          (Some "0 19 * * TUE") None) fresh_world) ∧
  store_ok
    (run_action (demo_collaborators true)
       (do_event_create 0 demo_interaction "standup" (Some "100") None None
          (Some "0 19 * * TUE") None) fresh_world).
Proof.
  assert (reachable (demo_collaborators true)
    (run_action (demo_collaborators true)
       (do_event_create 0 demo_interaction "standup" (Some "100") None None
          (Some "0 19 * * TUE") None) fresh_world)) as H
    by apply reachable_step, reachable_fresh.
  exact (conj H (reachable_store_ok (demo_collaborators true) _ H)).
Defined.

(** ** The token check *)

Lemma split_on_cons_sep sep s : Py.split_on sep (String sep s) = "" :: Py.split_on sep s.
Proof. simpl. by rewrite Ascii.eqb_refl. Qed.

Lemma split_on_not_nil sep s : Py.split_on sep s ≠ [].
Proof. induction s as [|c s IH]; simpl; [done|]. destruct (Ascii.eqb c sep); [done|]. by destruct (Py.split_on sep s). Qed.

Lemma split_on_cons_other sep c s :
  c ≠ sep →
  Py.split_on sep (String c s)
  = match Py.split_on sep s with w :: ws => String c w :: ws | [] => [String c ""] end.
Proof. intros Hc. simpl. by apply Ascii.eqb_neq in Hc as ->. Qed.

Lemma length_split_on sep s : length (Py.split_on sep s) = S (count_char sep s).
Proof.
  induction s as [|c s IH]; simpl; [done|].
  destruct (Ascii.eqb c sep); simpl; [by rewrite IH|].
  pose proof (split_on_not_nil sep s). destruct (Py.split_on sep s); [done|]. by rewrite <-IH.
Qed.

(** The first field of a string with at least two fields is followed by the
    separator. *)
Lemma split_on_head sep s a b r :
  Py.split_on sep s = a :: b :: r → ∃ s', s = a +:+ String sep s' ∧ Py.split_on sep s' = b :: r.
Proof.
  revert a. induction s as [|c s IH]; intros a; simpl; [done|].
  destruct (Ascii.eqb_spec c sep) as [->|Hc].
  - intros [= <- Hs]. by exists s.
  - pose proof (split_on_not_nil sep s). destruct (Py.split_on sep s) as [|w ws] eqn:Hs; [done|].
    intros [= <- ->]. destruct (IH w eq_refl) as (s' & -> & Hs'). by exists s'.
Qed.

Lemma split_on_app_sep sep a s :
  count_char sep a = 0%nat → Py.split_on sep (a +:+ String sep s) = a :: Py.split_on sep s.
Proof.
  induction a as [|c a IH]; simpl; intros Ha.
  - by rewrite Ascii.eqb_refl.
  - destruct (Ascii.eqb c sep); [done|]. by rewrite IH.
Qed.

Lemma split_on_no_sep sep a : count_char sep a = 0%nat → Py.split_on sep a = [a].
Proof.
  induction a as [|c a IH]; simpl; intros Ha; [done|].
  destruct (Ascii.eqb c sep); [done|]. by rewrite IH.
Qed.

Lemma count_char_split_on sep s a : a ∈ Py.split_on sep s → count_char sep a = 0%nat.
Proof.
  revert a. induction s as [|c s IH]; intros a; simpl.
  - by intros ->%list_elem_of_singleton.
  - destruct (Ascii.eqb c sep) eqn:Hc.
    + intros [->|?]%elem_of_cons; [done|by apply IH].
    + pose proof (split_on_not_nil sep s). destruct (Py.split_on sep s) as [|w ws]; [done|].
      intros [->|?]%elem_of_cons.
      * simpl. rewrite Hc. apply IH. by left.
      * apply IH. by right.
Qed.

Lemma startswith_iff p s : startswith p s = true ↔ ∃ s', s = p +:+ s'.
Proof.
  revert s. induction p as [|c p IH]; intros s; simpl.
  - split; [by exists s|done].
  - destruct s as [|c' s]; [split; [done|by intros (? & ?)]|].
    destruct (Ascii.eqb_spec c c') as [->|Hc]; simpl.
    + rewrite IH. split; [by intros (s' & ->); exists s'|by intros (s' & [= ->]); exists s'].
    + split; [done|]. intros (s' & [= <- _]). done.
Qed.

(** [token_looks_valid] accepts exactly the strings that split on ["."] into
    three fields the first of which is not ["mfa"]; the fields may be empty, and
    the test [bool(t)] adds nothing. *)
Theorem token_looks_valid_iff t :
  token_looks_valid t = true ↔ ∃ a b c, Py.split_on "." t = [a; b; c] ∧ a ≠ "mfa".
Proof.
  unfold token_looks_valid. rewrite !andb_true_iff, Nat.eqb_eq, negb_true_iff.
  split.
  - intros [[_ Hn] Hp].
    pose proof (length_split_on "." t) as Hlen. rewrite Hn in Hlen.
    destruct (Py.split_on "." t) as [|a [|b [|c [|]]]] eqn:Hs; try done.
    exists a, b, c. split; [done|]. intros ->.
    apply split_on_head in Hs as (s' & -> & _).
    by rewrite (proj2 (startswith_iff "mfa." ("mfa" +:+ String "." s'))) in Hp by by exists s'.
  - intros (a & b & c & Hs & Ha).
    pose proof (length_split_on "." t) as Hlen. rewrite Hs in Hlen. simpl in Hlen.
    split; [split; [|lia]|].
    + destruct t; [done|done].
    + destruct (startswith "mfa." t) eqn:Hp; [|done].
      apply startswith_iff in Hp as (s' & ->).
      change ("mfa." +:+ s') with ("mfa" +:+ String "." s') in Hs.
      rewrite split_on_app_sep in Hs by done. by simplify_eq.
Qed.

(** ** [str] and [int] *)

Lemma all_chars_app p s t : all_chars p (s +:+ t) = all_chars p s && all_chars p t.
Proof. induction s as [|c s IH]; simpl; [done|]. by rewrite IH, andb_assoc. Qed.

Lemma all_chars_impl (p q : ascii → bool) s :
  (∀ c, p c = true → q c = true) → all_chars p s = true → all_chars q s = true.
Proof.
  intros Hpq. induction s as [|c s IH]; simpl; [done|].
  rewrite !andb_true_iff. intros [??]. auto.
Qed.

Lemma pretty_N_char_digit d : (d < 10)%N → Py.digit_of (pretty_N_char d) = Some (Z.of_N d).
Proof.
  intros Hd.
  assert (d = 0 ∨ d = 1 ∨ d = 2 ∨ d = 3 ∨ d = 4 ∨ d = 5 ∨ d = 6 ∨ d = 7 ∨ d = 8 ∨ d = 9)%N
    as Hcases by lia.
  repeat (destruct Hcases as [->|Hcases]; [done|]). by subst.
Qed.

Lemma pretty_N_char_is_digit d : is_digit (pretty_N_char d) = true.
Proof. unfold pretty_N_char. by repeat case_match. Qed.

Lemma pretty_N_go_digits x s :
  all_chars is_digit s = true → all_chars is_digit (pretty_N_go x s) = true.
Proof.
  revert s. induction (N.lt_wf_0 x) as [x _ IH]; intros s Hs.
  destruct (decide (x = 0)%N) as [->|Hx]; [by rewrite pretty_N_go_0|].
  rewrite pretty_N_go_step by lia. apply IH.
  - apply N.div_lt; lia.
  - simpl. by rewrite Hs, pretty_N_char_is_digit.
Qed.

Lemma pretty_N_go_not_empty x s : (0 < x)%N → pretty_N_go x s ≠ "".
Proof.
  revert s. induction (N.lt_wf_0 x) as [x _ IH]; intros s Hx.
  rewrite pretty_N_go_step by done.
  destruct (decide (x `div` 10 = 0)%N) as [Hd|Hd]; [by rewrite Hd, pretty_N_go_0|].
  apply IH; [apply N.div_lt; lia|].
  apply N.neq_0_lt_0. exact Hd.
Qed.

Lemma int_digits_char d acc b s :
  (d < 10)%N →
  Py.int_digits acc b (String (pretty_N_char d) s) = Py.int_digits (10 * acc + Z.of_N d) true s.
Proof.
  intros Hd. pose proof (pretty_N_char_digit d Hd) as Hdig. simpl.
  assert (Ascii.eqb (pretty_N_char d) "_" = false) as ->.
  { unfold pretty_N_char. by repeat case_match. }
  by rewrite Hdig.
Qed.

Lemma int_digits_pretty_N_go x :
  (0 < x)%N → ∀ acc b s, ∃ k, 0 ≤ k ∧
    Py.int_digits acc b (pretty_N_go x s) = Py.int_digits (acc * 10 ^ k + Z.of_N x) true s.
Proof.
  induction (N.lt_wf_0 x) as [x _ IH]; intros Hx acc b s.
  rewrite pretty_N_go_step by done.
  assert (x `mod` 10 < 10)%N as Hm by (apply N.mod_lt; lia).
  pose proof (N.div_mod x 10 ltac:(lia)) as Hdm.
  destruct (decide (x `div` 10 = 0)%N) as [Hd|Hd].
  - rewrite Hd, pretty_N_go_0. exists 1. split; [lia|].
    rewrite int_digits_char by done. f_equal. lia.
  - destruct (IH (x `div` 10)%N ltac:(apply N.div_lt; lia) ltac:(lia) acc b
               (String (pretty_N_char (x `mod` 10)) s)) as (k & Hk & ->).
    exists (k + 1). split; [lia|]. rewrite int_digits_char by done. f_equal.
    rewrite Z.pow_add_r by lia. lia.
Qed.

Lemma lstrip_with_id p s :
  all_chars (λ c, negb (p c)) s = true → Py.lstrip_with p s = s.
Proof. destruct s as [|c s]; simpl; [done|]. by intros [->%negb_true_iff _]%andb_true_iff. Qed.

Lemma rstrip_with_id p s :
  all_chars (λ c, negb (p c)) s = true → Py.rstrip_with p s = s.
Proof.
  induction s as [|c s IH]; simpl; [done|].
  intros [Hc%negb_true_iff Hs]%andb_true_iff. rewrite IH, Hc by done. by destruct s.
Qed.

Lemma strip_with_id p s :
  all_chars (λ c, negb (p c)) s = true → Py.strip_with p s = s.
Proof. intros Hs. unfold Py.strip_with. by rewrite lstrip_with_id, rstrip_with_id. Qed.

Lemma strip_id s : all_chars (λ c, negb (Py.isspace c)) s = true → Py.strip s = s.
Proof. apply strip_with_id. Qed.

Lemma is_digit_not_space c : is_digit c = true → negb (Py.isspace c) = true.
Proof. by destruct c as [[] [] [] [] [] [] [] []]. Qed.

Lemma int_space_isspace c : Py.int_space c = true → Py.isspace c = true.
Proof. by destruct c as [[] [] [] [] [] [] [] []]. Qed.

Lemma is_digit_not_comma c : is_digit c = true → Ascii.eqb c "," = false.
Proof.
  intros Hc. destruct (Ascii.eqb_spec c ","); [by subst|done].
Qed.

Lemma pretty_pos_digits p : all_chars is_digit (pretty (N.pos p)) = true.
Proof. unfold pretty, pretty_N. simpl. by apply pretty_N_go_digits. Qed.

Lemma pretty_pos_not_empty p : pretty (N.pos p) ≠ "".
Proof. unfold pretty, pretty_N. simpl. by apply pretty_N_go_not_empty. Qed.

Lemma int_digits_pretty_pos p : Py.int_digits 0 false (pretty (N.pos p)) = Some (Z.pos p).
Proof.
  unfold pretty, pretty_N. simpl.
  destruct (int_digits_pretty_N_go (N.pos p) ltac:(lia) 0 false "") as (k & _ & ->).
  simpl. f_equal.
Qed.

Lemma str_cases n :
  (∃ s, Py.str n = s ∧ all_chars is_digit s = true ∧ s ≠ "" ∧ 0 ≤ n ∧
        Py.int_digits 0 false s = Some n) ∨
  (∃ s, Py.str n = String "-" s ∧ all_chars is_digit s = true ∧ s ≠ "" ∧ n < 0 ∧
        Py.int_digits 0 false s = Some (- n)).
Proof.
  unfold Py.str, pretty, pretty_Z. destruct n as [|p|p].
  - left. by exists "0".
  - left. exists (pretty (N.pos p)). split; [done|].
    split; [apply pretty_pos_digits|]. split; [apply pretty_pos_not_empty|].
    split; [lia|apply int_digits_pretty_pos].
  - right. exists (pretty (N.pos p)). split; [done|].
    split; [apply pretty_pos_digits|]. split; [apply pretty_pos_not_empty|].
    split; [lia|apply int_digits_pretty_pos].
Qed.

Lemma str_no_space n : all_chars (λ c, negb (Py.isspace c)) (Py.str n) = true.
Proof.
  destruct (str_cases n) as [(s & -> & Hs & _)|(s & -> & Hs & _)]; simpl;
    apply (all_chars_impl is_digit); auto using is_digit_not_space.
Qed.

Lemma str_not_empty n : Py.str n ≠ "".
Proof. by destruct (str_cases n) as [(s & -> & _ & ? & _)|(s & -> & _)]. Qed.

Lemma strip_str n : Py.strip (Py.str n) = Py.str n.
Proof. apply strip_id, str_no_space. Qed.

Lemma count_char_digits c s :
  is_digit c = false → all_chars is_digit s = true → count_char c s = 0%nat.
Proof.
  intros Hc. induction s as [|c' s IH]; simpl; [done|].
  intros [Hc' Hs]%andb_true_iff. destruct (Ascii.eqb_spec c' c) as [->|_]; [congruence|auto].
Qed.

Lemma str_no_comma n : count_char "," (Py.str n) = 0%nat.
Proof.
  destruct (str_cases n) as [(s & -> & Hs & _)|(s & -> & Hs & _)]; simpl;
    by apply count_char_digits.
Qed.

(** [int(str(n)) == n] *)
Lemma int_str n : Py.int (Py.str n) = Some n.
Proof.
  unfold Py.int. rewrite strip_with_id.
  2:{ apply (all_chars_impl (λ c, negb (Py.isspace c))); [|apply str_no_space].
      intros c Hc. destruct (Py.int_space c) eqn:Hi; [|done].
      by rewrite (int_space_isspace c Hi) in Hc. }
  destruct (str_cases n) as [(s & -> & Hs & Hne & _ & Hint)|(s & -> & Hs & Hne & _ & Hint)].
  - destruct s as [|c s]; [done|]. simpl in Hs. apply andb_true_iff in Hs as [Hc _].
    destruct (Ascii.eqb_spec c "-") as [->|?]; [done|].
    destruct (Ascii.eqb_spec c "+") as [->|?]; [done|].
    rewrite <-Hint. destruct c as [[] [] [] [] [] [] [] []]; done.
  - rewrite Hint. simpl. f_equal. lia.
Qed.

(** ** [join] and [split] *)

Lemma join_cons sep x y l :
  Py.join sep (x :: y :: l) = x +:+ sep +:+ Py.join sep (y :: l).
Proof. done. Qed.

Lemma split_on_join sep l :
  l ≠ [] → Forall (λ s, count_char sep s = 0%nat) l →
  Py.split_on sep (Py.join (String sep "") l) = l.
Proof.
  induction l as [|x [|y l] IH]; intros Hne Hl; [done|..].
  - apply Forall_cons in Hl as [Hx _]. by apply split_on_no_sep.
  - apply Forall_cons in Hl as [Hx Hl]. rewrite join_cons.
    change (x +:+ String sep "" +:+ Py.join (String sep "") (y :: l))
      with (x +:+ String sep (Py.join (String sep "") (y :: l))).
    rewrite split_on_app_sep by done. f_equal. by apply IH.
Qed.

Lemma join_not_empty sep x l : x ≠ "" → Py.join sep (x :: l) ≠ "".
Proof. destruct l; [done|]. rewrite join_cons. by destruct x. Qed.

(** The column written by [event_create] is parsed back to the same list. *)
Lemma parse_ints_join l : l ≠ [] → parse_ints (Py.join "," (Py.str <$> l)) = Some l.
Proof.
  intros Hne. unfold parse_ints. rewrite split_on_join.
  - rewrite filter_all.
    + apply mapM_Some. induction l as [|n l IH]; [constructor|]. csimpl.
      constructor; [by rewrite strip_str, int_str|].
      destruct l; [constructor|by apply IH].
    + intros s (n & -> & _)%list_elem_of_fmap. rewrite strip_str. apply str_not_empty.
  - by destruct l.
  - apply Forall_fmap, Forall_forall. intros n _. apply str_no_comma.
Qed.

(** ** The list of lead offsets *)

Lemma insert_desc_descending x l : descending l → descending (Py.insert_desc x l).
Proof.
  unfold descending. induction 1 as [|y l Hl IH Hy]; simpl.
  - by repeat constructor.
  - destruct (Z.ltb_spec y x) as [Hlt|Hge].
    + constructor; [by constructor|]. constructor; [done|].
      eapply Forall_impl; [done|]. simpl. lia.
    + destruct (Z.eqb_spec y x) as [->|Hne]; [by constructor|].
      constructor; [done|]. apply Forall_forall. intros z [->|Hz]%elem_of_insert_desc; [lia|].
      rewrite Forall_forall in Hy. by apply Hy.
Qed.

Lemma sorted_set_desc_descending l : descending (Py.sorted_set_desc l).
Proof.
  induction l as [|x l IH]; simpl; [constructor|]. by apply insert_desc_descending.
Qed.

Lemma descending_filter (P : Z → Prop) `{!∀ x, Decision (P x)} l :
  descending l → descending (filter P l).
Proof.
  unfold descending. induction 1 as [|y l Hl IH Hy]; [constructor|].
  rewrite filter_cons. case_decide; [|done].
  constructor; [done|]. apply Forall_forall. intros z [_ Hz]%list_elem_of_filter.
  rewrite Forall_forall in Hy. by apply Hy.
Qed.

Lemma descending_NoDup l : descending l → NoDup l.
Proof.
  induction 1 as [|y l Hl IH Hy]; constructor; [|done].
  intros Hin. rewrite Forall_forall in Hy. specialize (Hy y Hin). lia.
Qed.

Lemma sorted_set_desc_id l : descending l → Py.sorted_set_desc l = l.
Proof.
  induction 1 as [|y l Hl IH Hy]; [done|]. simpl. rewrite IH.
  destruct l as [|z l]; [done|]. simpl.
  apply Forall_cons in Hy as [Hz _]. by rewrite (proj2 (Z.ltb_lt z y)).
Qed.

(** The list of lead offsets read from a text is strictly decreasing, hence
    without repetition, and holds exactly the positive integers of the text. *)
Theorem lead_list_of_sorted s l :
  lead_list_of s = Some l →
  descending l ∧ NoDup l ∧
  ∀ m, m ∈ l ↔ 0 < m ∧ ∃ ints, parse_ints s = Some ints ∧ m ∈ ints.
Proof.
  unfold lead_list_of. intros Hl. destruct (parse_ints s) as [ints|]; simplify_eq/=.
  assert (descending (filter (λ m, 0 < m) (Py.sorted_set_desc ints))) as Hd
    by apply descending_filter, sorted_set_desc_descending.
  split; [done|]. split; [by apply descending_NoDup|].
  intros m. rewrite list_elem_of_filter, elem_of_sorted_set_desc. split.
  - intros [??]. split; [done|]. by exists ints.
  - intros [? (ints' & [= <-] & ?)]. done.
Qed.

Lemma stored_leads_lead_column_desc l :
  descending l → Forall (λ m, 0 < m) l → stored_leads (lead_column l) = l.
Proof.
  intros Hd Hpos. destruct l as [|m l]; [done|].
  unfold lead_column, stored_leads.
  assert (Py.truthy_str (Some (Py.join "," (Py.str <$> m :: l))) = true) as ->.
  { pose proof (join_not_empty "," (Py.str m) (Py.str <$> l) (str_not_empty m)) as Hne.
    destruct (Py.join "," (Py.str <$> m :: l)) eqn:E; [|done]. by destruct Hne. }
  unfold lead_list_of. rewrite parse_ints_join by done.
  cbn [mbind option_bind default from_option].
  rewrite (sorted_set_desc_id (m :: l) Hd). f_equal. apply filter_all. by apply (proj1 (Forall_forall _ _)).
Qed.

Lemma stored_leads_lead_list_arg lead_minutes l :
  lead_list_arg lead_minutes = Some l → stored_leads (lead_column l) = l.
Proof.
  intros Hl. apply stored_leads_lead_column_desc.
  - unfold lead_list_arg in Hl. destruct lead_minutes as [s|]; [|simplify_eq; constructor].
    destruct (Py.truthy_str (Some s)); [|simplify_eq; constructor].
    unfold lead_list_of in Hl. destruct (parse_ints s) as [ints|]; simplify_eq/=.
    apply descending_filter, sorted_set_desc_descending.
  - unfold lead_list_arg in Hl. destruct lead_minutes as [s|]; [|simplify_eq; constructor].
    destruct (Py.truthy_str (Some s)); [|simplify_eq; constructor].
    unfold lead_list_of in Hl. destruct (parse_ints s) as [ints|]; simplify_eq/=.
    apply Forall_forall. by intros m [? _]%list_elem_of_filter.
Qed.

(** The column [lead_minutes] that [event_create] writes for its list of
    offsets is read back by reconciliation as the same list. *)
Theorem stored_leads_lead_column lead_minutes l :
  lead_list_arg lead_minutes = Some l → stored_leads (lead_column l) = l.
Proof. apply stored_leads_lead_list_arg. Qed.

(** ** Requests that are refused *)

Ltac absurd_rep :=
  match goal with
  | H : _ ∈ _ |- _ =>
      repeat (apply elem_of_cons in H as [H|H]; [discriminate H|]); by apply elem_of_nil in H
  end.

Section Refused.
Variable C : collaborators.

(** When [event_create] answers that a text channel is needed, that [when] or
    [cron] is missing, that the time or the lead offsets cannot be parsed, it has
    changed nothing: no row, no job, no call to Discord. *)
Theorem event_create_refusal_changes_nothing now i title when ch role cron ls w rep w' :
  event_create C now i title when ch role cron ls w = (Ok rep, w') →
  rep ∈ [PickTextChannel; ProvideWhenOrCron; CouldNotParseTime; BadLeadMinutes] →
  w' = w.
Proof.
  intros Hrun Hrep.
  assert (∀ (m : M unit) (k : M reply) w0 rep0 w1,
    (m ;;; k) w0 = (Ok rep0, w1) → ∃ w2, m w0 = (Ok tt, w2) ∧ k w2 = (Ok rep0, w1)) as Hbind.
  { intros m k w0 rep0 w1. unfold bind. destruct (m w0) as [[[]|e] w2]; [eauto|done]. }
  unfold event_create in Hrun.
  destruct (match ch with Some c => Some c | None => i_channel i end) as [c|];
    [|by injection Hrun as _ ->].
  destruct (negb (ch_is_text c)); [by injection Hrun as _ ->|].
  destruct (negb (Py.truthy_str when) && negb (Py.truthy_str cron)); [by injection Hrun as _ ->|].
  unfold bind at 1 in Hrun.
  set (P := match when with Some _ => _ | None => _ end) in Hrun.
  assert (∃ p, P w = (Ok p, w)) as [p Hp].
  { subst P. destruct when as [s|]; [|by eexists].
    destruct (Py.truthy_str (Some s)); [|by eexists]. by eexists. }
  rewrite Hp in Hrun. destruct p as [when_utc|]; [|by injection Hrun as _ ->].
  destruct (lead_list_arg ls) as [lead_list|]; [|by injection Hrun as _ ->].
  exfalso. unfold bind at 1 in Hrun. unfold or_raise in Hrun.
  destruct (i_guild_id i) as [g|]; [|done]. cbn [ret] in Hrun.
  unfold bind at 1 in Hrun. cbn [gets] in Hrun.
  apply Hbind in Hrun as (w2 & _ & Hrun).
  destruct when_utc as [t|].
  - apply Hbind in Hrun as (w3 & _ & Hrun). apply Hbind in Hrun as (w4 & _ & Hrun).
    unfold bind at 1 in Hrun. cbn [user_timezone gets] in Hrun.
    apply Hbind in Hrun as (w5 & _ & Hrun). injection Hrun as <- _. absurd_rep.
  - unfold try_except, bind, cron_trigger, or_raise, add_job, modify, ret, raise in Hrun.
    destruct cron as [cron_expr|]; [destruct (cron_trigger_of C cron_expr)|];
      simplify_eq; absurd_rep.
Qed.

End Refused.

(** ** Reminders from creation to delivery *)

Section Reminders.
Variable C : collaborators.

Lemma user_timezone_run u w : user_timezone u w = (Ok (timezone_of w u), w).
Proof. done. Qed.

Lemma remind_add_run now i when message ch role w :
  remind_add C now i when message ch role w
  = match parse_human_time C when (timezone_of w (i_user_id i)) with
    | None => (Ok CouldNotParseTime, w)
    | Some t =>
        let r := new_reminder_row now i message ch role t w in
        (Ok ReminderSet,
         step [(reminder_job_id (rem_id r), reminder_job r)] [] (insert_reminder r w))
    end.
Proof.
  unfold remind_add. erewrite bind_ok by apply user_timezone_run.
  destruct (parse_human_time _ _ _) as [t|]; [|done].
  erewrite bind_ok by done. erewrite bind_ok by done.
  erewrite bind_ok by apply add_job_step. done.
Qed.

Lemma filter_app_fresh {A} (P : A → Prop) `{!∀ x, Decision (P x)} (l : list A) x :
  (∀ y, y ∈ l → P y) → ¬ P x → filter P (l ++ [x]) = l.
Proof.
  intros Hl Hx. rewrite filter_app, filter_all by done.
  rewrite filter_cons_False by done. by rewrite filter_nil, app_nil_r.
Qed.

Lemma fresh_reminder_id w r : store_ok w → r ∈ reminders w → rem_id r ≠ reminders_seq w + 1.
Proof.
  intros (_ & _ & _ & Hseq) Hr. rewrite Forall_fmap, Forall_forall in Hseq.
  specialize (Hseq r Hr). simpl in Hseq. lia.
Qed.


Lemma apply_plan_singleton k v j : apply_plan [(k, v)] j = <[k:=v]> j.
Proof. done. Qed.

Lemma cancel_all_singleton k j : cancel_all [k] j = delete k j.
Proof. done. Qed.

(** [remind_add] answers "could not parse" and changes nothing when the time
    does not parse.  Otherwise it appends the row with the next id and adds the
    date job ["reminder:{id}"]; [remind_delete] of that id by the same user then
    answers "Deleted", the table of reminders is as before, the job is gone, the
    other tables are untouched, and the id is not given out again. *)
Theorem remind_add_then_delete now i when message ch role w :
  store_ok w →
  match parse_human_time C when (timezone_of w (i_user_id i)) with
  | None => remind_add C now i when message ch role w = (Ok CouldNotParseTime, w)
  | Some t =>
      let id := reminders_seq w + 1 in
      ∃ w1 w2,
        remind_add C now i when message ch role w = (Ok ReminderSet, w1) ∧
        reminders w1 = reminders w ++ [new_reminder_row now i message ch role t w] ∧
        jobs w1 = <[reminder_job_id id := Job (DateTrigger t) (send_reminder_task id)]> (jobs w) ∧
        remind_delete i id w1 = (Ok (ReminderDeleted id), w2) ∧
        reminders w2 = reminders w ∧
        jobs w2 = delete (reminder_job_id id) (jobs w) ∧
        reminders_seq w2 = id ∧
        (events w2, events_seq w2, event_rsvps w2, user_prefs w2, discord_calls w2)
        = (events w, events_seq w, event_rsvps w, user_prefs w, discord_calls w)
  end.
Proof.
  intros Hok. rewrite remind_add_run.
  destruct (parse_human_time _ _ _) as [t|]; [|done].
  intros id. set (r := new_reminder_row now i message ch role t w).
  eexists _, _. split; [done|]. split; [done|]. split; [done|].
  rewrite remind_delete_run.
  cbn [reminders step set_log set_jobs set_reminders insert_reminder set_reminders_seq
       jobs events events_seq event_rsvps user_prefs discord_calls reminders_seq].
  assert (reminder_selected i id r) as Hsel by done.
  assert (∀ y, y ∈ reminders w → ¬ reminder_selected i id y) as Hold.
  { intros y Hy [Hid _]. by apply (fresh_reminder_id w y). }
  rewrite filter_app, (filter_none (reminder_selected i id) (reminders w)) by done.
  rewrite filter_cons_True by done. cbn [app length bool_decide filter list_filter].
  split; [done|]. split; [by apply filter_app_fresh; [|tauto]|].
  split; [|done].
  cbn [jobs set_reminders set_jobs step set_log insert_reminder set_reminders_seq].
  rewrite apply_plan_singleton, cancel_all_singleton. apply delete_insert_eq.
Qed.

Lemma fire_run id w j :
  jobs w !! id = Some j →
  fire C id w
  = Some ((match job_trigger j with
           | DateTrigger _ => modify (set_jobs (delete id))
           | CronTrigger _ _ _ _ _ => ret tt
           end ;;; run_callback C (job_func j)) w).
Proof. unfold fire. by intros ->. Qed.

Lemma find_app_fresh {A} (p : A → bool) (l : list A) x :
  (∀ y, y ∈ l → p y = false) → p x = true → find p (l ++ [x]) = Some x.
Proof.
  intros Hl Hx. induction l as [|y l IH]; simpl; [by rewrite Hx|].
  rewrite (Hl y) by left. apply IH. intros z Hz. apply Hl. by right.
Qed.

(** What [send_reminder] does for a row when every call to Discord returns. *)
Lemma send_reminder_returns id r w :
  find (λ r, bool_decide (rem_id r = id)) (reminders w) = Some r →
  (∀ n c, discord_returns C n c = true) →
  (Py.truthy_int (rem_channel_id r) = false → is_Some (rem_user_id r)) →
  send_reminder C id w
  = (Ok tt, set_reminders (filter (λ r', rem_id r' ≠ id))
              (set_discord_calls (λ l, l ++ delivery_calls C r) w)).
Proof.
  intros Hfind Hret Huser. unfold send_reminder, delivery_calls.
  erewrite bind_ok by done. rewrite Hfind.
  destruct w as [ev evs rems rs rsvps prefs js calls lg].
  unfold bind, discord, modify, ret, raise, set_reminders, set_discord_calls. cbn.
  repeat (case_match; simplify_eq/=; rewrite ?Hret, ?app_nil_r, <-?(assoc_L (++)); cbn; try done).
  all: try match goal with H : discord_returns _ _ _ = false |- _ => by rewrite Hret in H end.
  all: by destruct Huser.
Qed.

(** A reminder that was added fires, when Discord answers every call: the
    job runs and leaves the store, the row is deleted, and the text goes to the
    author by direct message when no channel was given, or to the channel when
    the guild and the channel resolve to a text channel (ids that are 0 count
    as absent). *)
Theorem remind_add_then_fire now i when message ch role t w :
  store_ok w →
  parse_human_time C when (timezone_of w (i_user_id i)) = Some t →
  (∀ n c, discord_returns C n c = true) →
  let id := reminders_seq w + 1 in
  ∃ w1 w2,
    remind_add C now i when message ch role w = (Ok ReminderSet, w1) ∧
    fire C (reminder_job_id id) w1 = Some (Ok tt, w2) ∧
    reminders w2 = reminders w ∧
    jobs w2 = delete (reminder_job_id id) (jobs w) ∧
    (ch = None →
     discord_calls w2
     = discord_calls w ++ [fetch_user (i_user_id i);
                           user_send (i_user_id i) (reminder_content message role)]) ∧
    (∀ c g c', ch = Some c → ch_id c ≠ 0 → i_guild_id i = Some g → g ≠ 0 →
       get_guild C g = true → get_channel C g (ch_id c) = Some c' → ch_is_text c' = true →
       discord_calls w2
       = discord_calls w ++ [channel_send (ch_id c) (reminder_content message role)]).
Proof.
  intros Hok Hparse Hret id. rewrite remind_add_run, Hparse.
  set (r := new_reminder_row now i message ch role t w).
  eexists _, _. split; [done|].
  erewrite (fire_run _ _ (reminder_job r)) by apply lookup_insert_eq.
  cbn [job_trigger job_func reminder_job run_callback].
  erewrite bind_ok by done.
  rewrite (send_reminder_returns (rem_id r) r); [|..|done|by eauto].
  2:{ cbn [reminders step set_log set_jobs set_reminders insert_reminder set_reminders_seq].
      apply find_app_fresh; [|by apply bool_decide_eq_true_2].
      intros y Hy. apply bool_decide_eq_false_2. by apply fresh_reminder_id. }
  split; [done|].
  cbn [reminders jobs discord_calls step set_log set_jobs set_reminders set_discord_calls
       insert_reminder set_reminders_seq].
  split; [|split; [|split]].
  - apply filter_app_fresh; [|by intros []].
    intros y Hy. by apply fresh_reminder_id.
  - rewrite apply_plan_singleton. apply delete_insert_eq.
  - intros ->. done.
  - intros c g c' -> Hc Hg Hg0 Hgu Hch Htext. unfold delivery_calls. cbn.
    rewrite Hg. cbn. rewrite Hgu, Hch, Htext.
    rewrite (proj2 (Z.eqb_neq _ _) Hc), (proj2 (Z.eqb_neq _ _) Hg0). done.
Qed.

End Reminders.

(** ** An event created and deleted *)

Section CreateDelete.
Variable C : collaborators.








End CreateDelete.

(** ** Deleting what belongs to someone else *)

(** [event_delete] and [remind_delete] remove the job before they look at the
    owner: for an item of another guild, or of another user, the answer is "not
    found" and the tables and the calls to Discord are unchanged, but the job
    ["event:{id}"], or ["reminder:{id}"], has left the job store (the lead jobs
    of the event stay). *)
Theorem delete_cancels_job_before_scope_check i event_id reminder_id w :
  ((∀ r, r ∈ events w → ev_id r = event_id → i_guild_id i ≠ Some (ev_guild_id r)) →
   ∃ w', event_delete i event_id w = (Ok EventNotFound, w') ∧
     observable w' = observable w ∧
     jobs w' = delete (event_job_id event_id) (jobs w)) ∧
  ((∀ r, r ∈ reminders w → rem_id r = reminder_id → rem_user_id r ≠ Some (i_user_id i)) →
   ∃ w', remind_delete i reminder_id w = (Ok ReminderNotFound, w') ∧
     observable w' = observable w ∧
     jobs w' = delete (reminder_job_id reminder_id) (jobs w)).
Proof.
  rewrite event_delete_run, remind_delete_run. split.
  - intros Hscope.
    assert (∀ r, r ∈ events w → ¬ event_selected i event_id r) as Hnone.
    { intros r Hr [Hid Hg]. by apply (Hscope r). }
    rewrite (filter_none (event_selected i event_id)) by done.
    rewrite bool_decide_eq_true_2 by done.
    assert (find (λ r, bool_decide (event_selected i event_id r)) (events w) = None) as ->.
    { apply find_none_all. intros r Hr. by apply bool_decide_eq_false_2, Hnone. }
    eexists. split; [done|]. unfold observable, durable. cbn. by rewrite filter_all.
  - intros Hscope.
    assert (∀ r, r ∈ reminders w → ¬ reminder_selected i reminder_id r) as Hnone.
    { intros r Hr [Hid Hg]. by apply (Hscope r). }
    rewrite (filter_none (reminder_selected i reminder_id)) by done.
    rewrite bool_decide_eq_true_2 by done.
    eexists. split; [done|]. unfold observable, durable. cbn. by rewrite filter_all.
Qed.

(** ** Votes of a deleted event *)

(** Deleting an event deletes its votes and no other vote, and a vote for the
    deleted event is refused with [IntegrityError] and stores nothing. *)
Theorem event_delete_cascades_rsvps now i event_id w r u status :
  ids_unique w → r ∈ events w → ev_id r = event_id → i_guild_id i = Some (ev_guild_id r) →
  ∃ w', event_delete i event_id w = (Ok (EventDeleted event_id), w') ∧
    event_rsvps w' = filter (λ v, rsvp_event_id v ≠ event_id) (event_rsvps w) ∧
    _set_status now event_id u status w' = (Raise IntegrityError, w').
Proof.
  intros [Hnd _] Hr Hid Hg. rewrite event_delete_run.
  assert (event_selected i event_id r) as Hsel by done.
  assert (length (filter (event_selected i event_id) (events w)) ≠ 0%nat) as Hdel.
  { intros Hlen%nil_length_inv. by eapply (filter_nil_not_elem_of (event_selected i event_id)). }
  rewrite bool_decide_eq_false_2 by done.
  eexists. split; [done|]. split; [done|].
  unfold _set_status. erewrite bind_raise; [done|]. rewrite upsert_rsvp_run.
  cbn [events event_rsvps set_events set_event_rsvps set_jobs].
  assert (∀ (l : list rsvp_row) p, (∀ v, v ∈ l → p v = false) → existsb p l = false) as Hex.
  { intros l p Hl. induction l as [|v l IH]; [done|]. simpl. rewrite (Hl v) by left.
    apply IH. intros v' Hv'. apply Hl. by right. }
  rewrite Hex.
  2:{ intros v [Hv _]%list_elem_of_filter. apply bool_decide_eq_false_2. by intros [? _]. }
  assert (∀ (l : list event_row) p, (∀ v, v ∈ l → p v = false) → existsb p l = false) as Hex'.
  { intros l p Hl. induction l as [|v l IH]; [done|]. simpl. rewrite (Hl v) by left.
    apply IH. intros v' Hv'. apply Hl. by right. }
  rewrite Hex'; [done|].
  intros r' [Hns Hr']%list_elem_of_filter. apply bool_decide_eq_false_2. intros Hid'.
  apply Hns. assert (r' = r) as -> by (apply (fmap_eq_inj_on ev_id (events w)); [done..|congruence]).
  done.
Qed.

(** ** Reconciliation only adds jobs *)

Section ReadOnly.
Variable C : collaborators.

Lemma preserves_add_job_only_adds w id j : preserves (only_adds_to w) (add_job id j).
Proof.
  intros w' (Hobs & Hjobs & Hlog). split; [exact Hobs|]. split; [|exact Hlog].
  intros k Hk. cbn. apply lookup_insert_is_Some.
  destruct (decide (id = k)); [by left|right]. split; [done|]. by apply Hjobs.
Qed.

Lemma preserves_log_only_adds w e : preserves (only_adds_to w) (modify (set_log (λ l, l ++ [e]))).
Proof.
  apply preserves_modify. intros w' (Hobs & Hjobs & Hlog).
  split; [exact Hobs|]. split; [exact Hjobs|]. cbn.
  etrans; [exact Hlog|]. by apply prefix_app_r.
Qed.

Lemma preserves_schedule_leads_only_adds w now ev g c t r run_dt ms :
  preserves (only_adds_to w) (schedule_leads now ev g c t r run_dt ms).
Proof.
  apply preserves_for_each. intros m. apply preserves_bind; [apply preserves_or_raise|].
  intros ld. case_bool_decide; [apply preserves_add_job_only_adds|apply preserves_ret].
Qed.

(** [schedule_loaded_jobs] changes no table and calls Discord never, also
    when it raises: it only adds jobs and log entries.  Every id that has a job
    before has one after (the same, or the one reconciliation puts in its
    place), and the log before is a prefix of the log after. *)
Theorem schedule_loaded_jobs_reads_only now w :
  let w' := (schedule_loaded_jobs C now w).2 in
  observable w' = observable w ∧
  (∀ k, is_Some (jobs w !! k) → is_Some (jobs w' !! k)) ∧
  log w `prefix_of` log w'.
Proof.
  cut (preserves (only_adds_to w) (schedule_loaded_jobs C now)).
  { intros H. by apply H. }
  unfold schedule_loaded_jobs.
  apply preserves_bind; [apply preserves_gets|]. intros rows.
  apply preserves_bind.
  { apply preserves_for_each. intros r. destruct (ev_when_utc r) as [run_dt|]; [|apply preserves_ret].
    apply preserves_bind; [|intros _; apply preserves_schedule_leads_only_adds].
    case_bool_decide; [apply preserves_add_job_only_adds|apply preserves_ret]. }
  intros _. apply preserves_bind; [apply preserves_gets|]. intros rows'.
  apply preserves_bind.
  { apply preserves_for_each. intros r. destruct (ev_cron r) as [c|]; [|apply preserves_ret].
    apply preserves_try_except.
    - apply preserves_bind; [apply preserves_or_raise|]. intros t.
      apply preserves_add_job_only_adds.
    - intros _. apply preserves_log_only_adds. }
  intros _. apply preserves_bind; [apply preserves_gets|]. intros rows''.
  apply preserves_for_each. intros r.
  case_bool_decide; [apply preserves_add_job_only_adds|apply preserves_ret].
Qed.

End ReadOnly.

(** ** Reconciliation twice *)

Lemma apply_plan_absorb p (j : gmap string job) :
  (∀ k v, (k, v) ∈ p → j !! k = Some v) → apply_plan p j = j.
Proof.
  induction p as [|[k v] p IH]; intros Hp; [done|].
  rewrite apply_plan_cons, insert_id by (apply Hp; by left).
  apply IH. intros k' v' H. apply Hp. by right.
Qed.

(** The plan of a reconciliation is the date and lead jobs, then the cron
    jobs, then the reminder jobs. *)
Lemma reconcile_plan_lookup C now w j k :
  ids_unique w →
  apply_plan (reconcile_plan C now w) j !! k
  = match decide (k ∈ (reminders w ≫= reminder_plan now).*1) with
    | left _ => apply_plan (reminders w ≫= reminder_plan now) ∅ !! k
    | right _ =>
        match decide (k ∈ (filter (λ r, is_Some (ev_cron r)) (events w) ≫= cron_plan C).*1) with
        | left _ => apply_plan (filter (λ r, is_Some (ev_cron r)) (events w) ≫= cron_plan C) ∅ !! k
        | right _ =>
            apply_plan (filter (λ r, is_Some (ev_when_utc r)) (events w) ≫= abs_plan now) j !! k
        end
    end.
Proof.
  intros _. unfold reconcile_plan. rewrite !apply_plan_app.
  assert (∀ p (j1 j2 : gmap string job) k, k ∈ p.*1 → apply_plan p j1 !! k = apply_plan p j2 !! k)
    as Hin.
  { intros p. induction p as [|[k' v'] p IH]; intros j1 j2 k0 Hk0; [by apply elem_of_nil in Hk0|].
    rewrite !apply_plan_cons. destruct (decide (k0 ∈ p.*1)) as [Hp|Hp]; [by apply IH|].
    rewrite !apply_plan_lookup_notin by done.
    rewrite fmap_cons in Hk0. apply elem_of_cons in Hk0 as [->|?]; [|done].
    by rewrite !lookup_insert_eq. }
  destruct (decide _) as [Hr|Hr]; [by apply Hin|].
  rewrite apply_plan_lookup_notin by done.
  destruct (decide _) as [Hc|Hc]; [by apply Hin|].
  by rewrite apply_plan_lookup_notin by done.
Qed.

Lemma elem_of_abs_part now w k v :
  (k, v) ∈ filter (λ r, is_Some (ev_when_utc r)) (events w) ≫= abs_plan now ↔
  ∃ r, r ∈ events w ∧ (k, v) ∈ abs_plan now r.
Proof.
  rewrite list_elem_of_bind. setoid_rewrite list_elem_of_filter. split.
  - intros (r & ? & _ & ?). by exists r.
  - intros (r & Hr & Hkv). exists r. repeat split; try done.
    apply elem_of_abs_plan in Hkv as (t & -> & _). eauto.
Qed.

Lemma abs_plan_mono now1 now2 r k v :
  now1 ≤ now2 → (k, v) ∈ abs_plan now2 r → (k, v) ∈ abs_plan now1 r.
Proof.
  intros Hle. rewrite !elem_of_abs_plan. intros (t & Ht & H). exists t. split; [done|].
  destruct H as [(-> & -> & Hlt)|(m & Hm & Hj)].
  - left. repeat split; [done..|lia].
  - right. exists m. split; [done|]. apply lead_job_Some in Hj as (ld & ? & ? & ? & ?).
    apply lead_job_Some. exists ld. repeat split; try done. lia.
Qed.

Lemma abs_part_functional now w k v v' :
  ids_unique w →
  (k, v) ∈ filter (λ r, is_Some (ev_when_utc r)) (events w) ≫= abs_plan now →
  (k, v') ∈ filter (λ r, is_Some (ev_when_utc r)) (events w) ≫= abs_plan now →
  v' = v.
Proof.
  intros [Hnd _]. rewrite !elem_of_abs_part. setoid_rewrite elem_of_abs_plan.
  setoid_rewrite lead_job_Some.
  intros (r & Hr & t & Ht & H) (r' & Hr' & t' & Ht' & H').
  destruct H as [(-> & -> & _)|(m & _ & ld & Hld & _ & -> & ->)];
    destruct H' as [(Hk & -> & _)|(m' & _ & ld' & Hld' & _ & Hk & ->)].
  - apply event_job_id_inj in Hk.
    assert (r' = r) as -> by (by apply (fmap_eq_inj_on ev_id (events w))). congruence.
  - by apply event_lead_job_id_ne in Hk.
  - symmetry in Hk. by apply event_lead_job_id_ne in Hk.
  - apply lead_job_id_inj in Hk as [Hid ->].
    assert (r' = r) as -> by (by apply (fmap_eq_inj_on ev_id (events w))). congruence.
Qed.

Lemma cron_part_functional C w k v v' :
  ids_unique w →
  (k, v) ∈ filter (λ r, is_Some (ev_cron r)) (events w) ≫= cron_plan C →
  (k, v') ∈ filter (λ r, is_Some (ev_cron r)) (events w) ≫= cron_plan C →
  v' = v.
Proof.
  intros [Hnd _]. rewrite !elem_of_cron_part.
  intros (r & c & t & Hr & Hc & Ht & -> & ->) (r' & c' & t' & Hr' & Hc' & Ht' & Hk & ->).
  apply event_job_id_inj in Hk.
  assert (r' = r) as -> by (by apply (fmap_eq_inj_on ev_id (events w))). congruence.
Qed.

Lemma reminder_part_functional now w k v v' :
  ids_unique w →
  (k, v) ∈ reminders w ≫= reminder_plan now → (k, v') ∈ reminders w ≫= reminder_plan now →
  v' = v.
Proof.
  intros [_ Hnd]. rewrite !elem_of_reminder_part.
  intros (r & Hr & _ & -> & ->) (r' & Hr' & _ & Hk & ->).
  apply reminder_job_id_inj in Hk.
  by assert (r' = r) as -> by (by apply (fmap_eq_inj_on rem_id (reminders w))).
Qed.

Lemma reconcile_plan_step C now p lg w :
  reconcile_plan C now (step p lg w) = reconcile_plan C now w.
Proof. done. Qed.

Lemma leads_in_range_step p lg w : leads_in_range w → leads_in_range (step p lg w).
Proof. done. Qed.

(** Reconciliation run a second time, at the same instant or later and with
    nothing in between, returns and leaves the job store as the first run left
    it. *)
Theorem reconcile_twice C now1 now2 w :
  ids_unique w → leads_in_range w → now1 ≤ now2 →
  ∃ w1 w2,
    schedule_loaded_jobs C now1 w = (Ok tt, w1) ∧
    schedule_loaded_jobs C now2 w1 = (Ok tt, w2) ∧
    jobs w2 = jobs w1 ∧ observable w2 = observable w.
Proof.
  intros Hu Hrange Hle. eexists _, _.
  split; [by apply schedule_loaded_jobs_in_range|].
  split; [by apply schedule_loaded_jobs_in_range, leads_in_range_step|].
  split; [|done].
  rewrite reconcile_plan_step. cbn [jobs events step set_log set_jobs].
  set (J1 := apply_plan (reconcile_plan C now1 w) (jobs w)).
  apply map_eq. intros k. rewrite reconcile_plan_lookup by done.
  set (A1 := filter (λ r, is_Some (ev_when_utc r)) (events w) ≫= abs_plan now1).
  set (A2 := filter (λ r, is_Some (ev_when_utc r)) (events w) ≫= abs_plan now2).
  set (Cr := filter (λ r, is_Some (ev_cron r)) (events w) ≫= cron_plan C).
  set (R1 := reminders w ≫= reminder_plan now1).
  set (R2 := reminders w ≫= reminder_plan now2).
  assert (∀ k v, (k, v) ∈ R2 → (k, v) ∈ R1) as HR.
  { intros k0 v0 (r & ? & ? & ? & ?)%elem_of_reminder_part.
    apply elem_of_reminder_part. exists r. repeat split; try done. lia. }
  assert (∀ k v, (k, v) ∈ A2 → (k, v) ∈ A1) as HA.
  { intros k0 v0 (r & ? & ?)%elem_of_abs_part. apply elem_of_abs_part. exists r.
    split; [done|]. by eapply abs_plan_mono. }
  assert (∀ k, k ∈ R1.*1 → ∃ a, k = reminder_job_id a) as HkR.
  { intros k0 (v0 & (r & _ & _ & -> & _)%elem_of_reminder_part)%elem_of_fst_plan. eauto. }
  assert (∀ k, k ∈ Cr.*1 → ∃ a, k = event_job_id a) as HkC.
  { intros k0 (v0 & (r & c & t & _ & _ & _ & -> & _)%elem_of_cron_part)%elem_of_fst_plan. eauto. }
  assert (∀ k, k ∈ A2.*1 → (∃ a, k = event_job_id a) ∨ (∃ a m, k = lead_job_id a m)) as HkA.
  { intros k0 (v0 & (r & _ & Hkv)%elem_of_abs_part)%elem_of_fst_plan.
    apply elem_of_abs_plan in Hkv as (t & _ & [(-> & _)|(m & _ & Hj)]); [eauto|].
    apply lead_job_Some in Hj as (ld & _ & _ & -> & _). eauto. }
  subst J1. rewrite (reconcile_plan_lookup C now1 w (jobs w) k) by done.
  fold A1 Cr R1.
  destruct (decide (k ∈ R2.*1)) as [Hk2|Hk2].
  { pose proof Hk2 as (v & Hv)%elem_of_fst_plan.
    rewrite decide_True by (apply elem_of_fst_plan; exists v; by apply HR).
    rewrite (apply_plan_lookup_in R2 ∅ k v);
      [|done|intros v' Hv'; exact (reminder_part_functional now2 w k v v' Hu Hv Hv')].
    rewrite (apply_plan_lookup_in R1 ∅ k v);
      [done|by apply HR|].
    intros v' Hv'. exact (reminder_part_functional now1 w k v v' Hu (HR _ _ Hv) Hv'). }
  destruct (decide (k ∈ Cr.*1)) as [HkCr|HkCr].
  { rewrite decide_False; [done|].
    intros (a & ->)%HkR. apply HkC in HkCr as (b & Hb).
    symmetry in Hb. by apply event_reminder_job_id_ne in Hb. }
  destruct (decide (k ∈ A2.*1)) as [HkA2|HkA2];
    [|rewrite apply_plan_lookup_notin by done; rewrite reconcile_plan_lookup by done;
      fold A1 Cr R1; destruct (decide (k ∈ R1.*1)); [done|]; by destruct (decide (k ∈ Cr.*1))].
  pose proof HkA2 as (v & Hv)%elem_of_fst_plan.
  rewrite (apply_plan_lookup_in A2 _ k v);
    [|done|intros v' Hv'; exact (abs_part_functional now2 w k v v' Hu Hv Hv')].
  rewrite decide_False.
  2:{ intros (a & ->)%HkR. apply HkA in HkA2 as [(b & Hb)|(b & m & Hb)].
      - symmetry in Hb. by apply event_reminder_job_id_ne in Hb.
      - symmetry in Hb. by apply lead_reminder_job_id_ne in Hb. }
  symmetry. apply apply_plan_lookup_in; [by apply HA|].
  intros v' Hv'. exact (abs_part_functional now1 w k v v' Hu (HA _ _ Hv) Hv').
Qed.

(** ** Reconciliation after a restart *)

(** After a restart (an empty job store) and a reconciliation that meets
    unique ids and lead offsets in range: a reminder has its job exactly when
    its instant is strictly after [now], so a reminder whose time passed while
    the bot was down has no job and keeps its row; and every job of the store
    is the primary or a lead job of a stored event, or the job of a stored
    future reminder. *)
Theorem reconcile_from_empty C now w :
  ids_unique w → leads_in_range w → jobs w = ∅ →
  ∃ w', schedule_loaded_jobs C now w = (Ok tt, w') ∧
    reminders w' = reminders w ∧
    (∀ r, r ∈ reminders w →
       jobs w' !! reminder_job_id (rem_id r)
       = if bool_decide (now < rem_when_utc r) then Some (reminder_job r) else None) ∧
    (∀ k v, jobs w' !! k = Some v →
       (∃ r, r ∈ events w ∧
          (k = event_job_id (ev_id r) ∨
           ∃ m, m ∈ stored_leads (ev_lead_minutes r) ∧ k = lead_job_id (ev_id r) m)) ∨
       (∃ r, r ∈ reminders w ∧ k = reminder_job_id (rem_id r) ∧ now < rem_when_utc r)).
Proof.
  intros [Hnd Hndr] Hrange Hempty. eexists. split; [by apply schedule_loaded_jobs_in_range|].
  cbn [jobs reminders step set_log set_jobs]. rewrite Hempty. split; [done|]. split.
  - intros r Hr. case_bool_decide as Hlt.
    + apply apply_plan_lookup_in.
      * apply plan_reminder_key. by exists r.
      * intros v' (r' & Hr' & Hid & _ & ->)%plan_reminder_key.
        by rewrite (fmap_eq_inj_on rem_id (reminders w) r' r).
    + rewrite apply_plan_lookup_notin; [done|]. rewrite elem_of_fst_plan.
      intros (v' & (r' & Hr' & Hid & Hlt' & _)%plan_reminder_key).
      by rewrite (fmap_eq_inj_on rem_id (reminders w) r' r) in Hlt'.
  - intros k v Hkv.
    destruct (decide (k ∈ (reconcile_plan C now w).*1)) as [Hk|Hk];
      [|by rewrite apply_plan_lookup_notin in Hkv].
    apply elem_of_fst_plan in Hk as (v' & Hk).
    apply elem_of_reconcile_plan in Hk as [(r & Hr & Hk)|[(r & Hr & Hk)|(r & Hr & Hk)]].
    + left. exists r. split; [done|].
      apply elem_of_abs_plan in Hk as (t & _ & [(-> & _)|(m & Hm & Hj)]); [by left|].
      right. exists m. split; [done|]. by apply lead_job_Some in Hj as (ld & _ & _ & -> & _).
    + left. exists r. split; [done|]. left.
      by apply elem_of_cron_plan in Hk as (c & t & _ & _ & -> & _).
    + right. exists r. split; [done|]. by apply elem_of_reminder_plan in Hk as (? & -> & _).
Qed.

(** ** Firing an event *)

(** When the job of an event fires, no table changes: the event row stays.
    A date job leaves the store and a cron job stays; at most one message is
    sent, to the channel of the job, and none when the guild or the channel does
    not resolve. *)
Theorem fire_event_job_keeps_rows C id tr g c title role w :
  jobs w !! id = Some (Job tr (send_event_task g c title role)) →
  ∃ res w', fire C id w = Some (res, w') ∧
    durable w' = durable w ∧
    jobs w' = match tr with
              | DateTrigger _ => delete id (jobs w)
              | CronTrigger _ _ _ _ _ => jobs w
              end ∧
    (discord_calls w' = discord_calls w ∨
     discord_calls w' = discord_calls w ++ [channel_send c (event_content title role)]) ∧
    ((get_guild C g = false ∨ get_channel C g c = None) →
     res = Ok tt ∧ discord_calls w' = discord_calls w).
Proof.
  intros Hj. erewrite fire_run by done. cbn [job_trigger job_func run_callback].
  set (w0 := match tr with
             | DateTrigger _ => set_jobs (delete id) w
             | CronTrigger _ _ _ _ _ => w
             end).
  assert ((match tr with
           | DateTrigger _ => modify (set_jobs (delete id))
           | CronTrigger _ _ _ _ _ => ret tt
           end) w = (Ok tt, w0)) as Hfst by by destruct tr.
  erewrite bind_ok by apply Hfst.
  assert (durable w0 = durable w ∧ discord_calls w0 = discord_calls w ∧
          jobs w0 = match tr with
                    | DateTrigger _ => delete id (jobs w)
                    | CronTrigger _ _ _ _ _ => jobs w
                    end) as (Hd & Hc & Hjobs) by by destruct tr.
  unfold send_event. destruct (get_guild C g) eqn:Hg; cbn [negb].
  - destruct (get_channel C g c) as [ch|] eqn:Hch.
    + destruct (ch_is_text ch).
      * unfold bind, discord. destruct (discord_returns C _ _);
          eexists _, _; (split; [done|]); cbn [discord_calls jobs set_discord_calls];
          (split; [done|]); (split; [done|]); rewrite Hc; (split; [by right|]);
          by intros [|].
      * eexists _, _. split; [done|]. split; [done|]. split; [done|]. split; [by left|].
        by intros [|].
    + eexists _, _. split; [done|]. split; [done|]. split; [done|]. split; [by left|]. done.
  - eexists _, _. split; [done|]. split; [done|]. split; [done|]. split; [by left|]. done.
Qed.

(** ** Time zones *)

Section Timezone.
Variable known_timezone : string → bool.

Lemma find_fmap_pref u tz (l : list (Z * string)) u' :
  find (λ p, bool_decide (p.1 = u'))
       ((λ p : Z * string, if bool_decide (p.1 = u) then (u, tz) else p) <$> l)
  = if bool_decide (u' = u)
    then (λ _, (u, tz)) <$> find (λ p, bool_decide (p.1 = u)) l
    else find (λ p, bool_decide (p.1 = u')) l.
Proof.
  induction l as [|[a s] l IH]; [by case_bool_decide|]. csimpl.
  destruct (decide (a = u)) as [->|Ha].
  - rewrite (bool_decide_eq_true_2 (u = u)) by done. simpl.
    destruct (decide (u' = u)) as [->|Hu'].
    + by rewrite !(bool_decide_eq_true_2 (u = u)) by done.
    + rewrite !(bool_decide_eq_false_2 (u = u')) by done.
      rewrite IH. by rewrite (bool_decide_eq_false_2 (u' = u)) by done.
  - rewrite (bool_decide_eq_false_2 (a = u)) by done. simpl.
    destruct (decide (u' = u)) as [->|Hu'].
    + rewrite !(bool_decide_eq_false_2 (a = u)) by done. rewrite IH.
      by rewrite (bool_decide_eq_true_2 (u = u)) by done.
    + rewrite IH. by rewrite (bool_decide_eq_false_2 (u' = u)) by done.
Qed.

Lemma find_app_absent {A} (p : A → bool) (l1 l2 : list A) :
  existsb p l1 = false → find p (l1 ++ l2) = find p l2.
Proof.
  induction l1 as [|x l1 IH]; [done|]. simpl. intros [-> ?]%orb_false_iff. by apply IH.
Qed.

Lemma find_existsb {A} (p : A → bool) (l : list A) :
  existsb p l = true → is_Some (find p l).
Proof.
  induction l as [|x l IH]; [done|]. simpl. destruct (p x); [eauto|]. apply IH.
Qed.

Lemma find_existsb_false {A} (p : A → bool) (l : list A) :
  existsb p l = false → find p l = None.
Proof.
  induction l as [|x l IH]; [done|]. simpl. destruct (p x); [done|]. apply IH.
Qed.

Lemma user_timezone_default u w :
  u ∉ (user_prefs w).*1 → user_timezone u w = (Ok "America/Chicago", w).
Proof.
  intros Hu. unfold user_timezone, gets. rewrite find_none_all; [done|].
  intros [a s] Hin. apply bool_decide_eq_false_2. intros <-. apply Hu.
  by apply (list_elem_of_fmap_2 fst) in Hin.
Qed.

(** A user without a stored time zone gets ["America/Chicago"].
    [timezone_set] with a name that is not known answers "Unknown timezone" and
    changes nothing; with a known name it stores it, [user_timezone] of that
    user then returns it, the time zones of the other users are as before, the
    table keeps one row per user, and nothing else changes. *)
Theorem timezone_set_then_user_timezone i tz w :
  (i_user_id i ∉ (user_prefs w).*1 →
   user_timezone (i_user_id i) w = (Ok "America/Chicago", w)) ∧
  (known_timezone tz = false → timezone_set known_timezone i tz w = (Ok UnknownTimezone, w)) ∧
  (known_timezone tz = true →
   ∃ w', timezone_set known_timezone i tz w = (Ok (TimezoneSet tz), w') ∧
     user_timezone (i_user_id i) w' = (Ok tz, w') ∧
     (∀ u, u ≠ i_user_id i → (user_timezone u w').1 = (user_timezone u w).1) ∧
     (NoDup (user_prefs w).*1 → NoDup (user_prefs w').*1) ∧
     (events w', events_seq w', reminders w', reminders_seq w', event_rsvps w', jobs w',
      discord_calls w')
     = (events w, events_seq w, reminders w, reminders_seq w, event_rsvps w, jobs w,
        discord_calls w)).
Proof.
  split; [apply user_timezone_default|].
  unfold timezone_set. split; intros ->; [done|]. cbn [negb].
  eexists. split; [done|].
  set (u := i_user_id i).
  unfold user_timezone, gets, set_user_prefs.
  cbn [user_prefs events events_seq reminders reminders_seq event_rsvps jobs discord_calls fst].
  destruct (existsb _ (user_prefs w)) eqn:Hex.
  - split; [|split; [|split; [|done]]].
    + f_equal. rewrite find_fmap_pref, bool_decide_eq_true_2 by done.
      by destruct (find_existsb _ _ Hex) as [p ->].
    + intros u' Hu'. by rewrite find_fmap_pref, bool_decide_eq_false_2 by done.
    + intros Hnd. rewrite <-list_fmap_compose.
      erewrite (list_fmap_ext _ fst); [done|].
      intros _ [a s] _. simpl. by case_bool_decide.
  - split; [|split; [|split; [|done]]].
    + f_equal. rewrite find_app_absent by done. simpl. by rewrite bool_decide_eq_true_2 by done.
    + intros u' Hu'. f_equal. 
      assert (∀ l : list (Z * string),
        find (λ p, bool_decide (p.1 = u')) (l ++ [(u, tz)]) = find (λ p, bool_decide (p.1 = u')) l)
        as ->; [|done].
      induction l as [|[a s] l IH]; simpl.
      * by rewrite bool_decide_eq_false_2 by done.
      * by destruct (bool_decide (a = u')).
    + intros Hnd. rewrite fmap_app. apply NoDup_app. split; [done|].
      split; [|apply NoDup_singleton].
      intros a Ha [->|[]%elem_of_nil]%elem_of_cons.
      apply list_elem_of_fmap in Ha as ([a s] & Ha & Hin). simpl in Ha. subst a.
      assert (existsb (λ p : Z * string, bool_decide (p.1 = u)) (user_prefs w) = true); [|congruence].
      apply existsb_exists. exists (u, s). split; [by apply list_elem_of_In|].
      by apply bool_decide_eq_true_2.
Qed.

End Timezone.

(** ** Counting the votes *)

Lemma mapM_int_str (l : list Z) : mapM Py.int (Py.str <$> l) = Some l.
Proof.
  apply mapM_Some. induction l as [|n l IH]; [constructor|].
  csimpl. constructor; [apply int_str|done].
Qed.

Lemma counts_step_group s (ids : list Z) counts :
  ids ≠ [] →
  counts_step counts (s, Py.join "," (Py.str <$> ids)) = Some (<[s := ids]> counts).
Proof.
  intros Hne. unfold counts_step. cbn [fst snd].
  assert (Py.truthy_str (Some (Py.join "," (Py.str <$> ids))) = true) as ->.
  { destruct ids as [|m l]; [done|].
    pose proof (join_not_empty "," (Py.str m) (Py.str <$> l) (str_not_empty m)) as Hj.
    destruct (Py.join "," (Py.str <$> m :: l)) eqn:E; [|done]. by destruct Hj. }
  cbn [negb]. rewrite split_on_join.
  - by rewrite mapM_int_str.
  - by destruct ids.
  - apply Forall_fmap, Forall_forall. intros n _. apply str_no_comma.
Qed.

Lemma filter_filter_and {A} (P Q : A → Prop) `{!∀ x, Decision (P x)} `{!∀ x, Decision (Q x)}
    (l : list A) :
  filter Q (filter P l) = filter (λ x, P x ∧ Q x) l.
Proof.
  induction l as [|x l IH]; [done|]. rewrite !filter_cons.
  destruct (decide (P x)); [rewrite filter_cons|]; destruct (decide (Q x));
    rewrite ?IH; case_decide; try done; tauto.
Qed.

Lemma rsvp_groups_voters event_id l :
  rsvp_groups event_id l
  = (λ s, (s, Py.join "," (Py.str <$> voters event_id s l)))
      <$> remove_dups (rsvp_status <$> filter (λ v, rsvp_event_id v = event_id) l).
Proof.
  unfold rsvp_groups, voters. apply list_fmap_ext. intros _ s _.
  by rewrite filter_filter_and.
Qed.

Lemma voters_nil_iff event_id s l :
  voters event_id s l = [] ↔
  s ∉ rsvp_status <$> filter (λ v, rsvp_event_id v = event_id) l.
Proof.
  unfold voters. split.
  - intros Hnil%fmap_nil_inv (v & -> & [He Hv]%list_elem_of_filter)%list_elem_of_fmap.
    eapply (filter_nil_not_elem_of (λ v0, rsvp_event_id v0 = event_id ∧ rsvp_status v0 = rsvp_status v));
      [exact Hnil| |exact Hv]. done.
  - intros Hs. rewrite filter_none; [done|]. intros v Hv [He Hst]. apply Hs.
    apply list_elem_of_fmap. exists v. split; [done|]. by apply list_elem_of_filter.
Qed.

Lemma foldl_counts (f : string → list Z) sts counts :
  (∀ s, s ∈ sts → f s ≠ []) →
  foldl (λ acc row, acc ≫= λ c, counts_step c row) (Some counts)
        ((λ s, (s, Py.join "," (Py.str <$> f s))) <$> sts)
  = Some (foldl (λ c s, <[s := f s]> c) counts sts).
Proof.
  revert counts. induction sts as [|s sts IH]; intros counts Hne; [done|].
  csimpl. rewrite counts_step_group by (apply Hne; by left).
  apply IH. intros s' Hs'. apply Hne. by right.
Qed.

Lemma foldl_insert_lookup (f : string → list Z) sts (counts : gmap string (list Z)) s :
  foldl (λ c s, <[s := f s]> c) counts sts !! s
  = if decide (s ∈ sts) then Some (f s) else counts !! s.
Proof.
  revert counts. induction sts as [|s' sts IH]; intros counts; [done|].
  simpl. rewrite IH. destruct (decide (s ∈ sts)) as [Hin|Hin].
  - by rewrite decide_True by by right.
  - destruct (decide (s = s')) as [->|Hne].
    + rewrite decide_True by by left. apply lookup_insert_eq.
    + rewrite decide_False.
      * by rewrite lookup_insert_ne.
      * intros [?|?]%elem_of_cons; done.
Qed.

Lemma compute_rsvp_counts_run event_id w :
  ∃ counts, compute_rsvp_counts event_id w = (Ok counts, w) ∧
    ∀ s, default [] (counts !! s) = voters event_id s (event_rsvps w).
Proof.
  unfold compute_rsvp_counts. erewrite bind_ok by done.
  rewrite rsvp_groups_voters.
  rewrite (foldl_counts (λ s, voters event_id s (event_rsvps w))).
  2:{ intros s Hs Hnil. apply (proj1 (elem_of_remove_dups _ _)) in Hs. cbv beta in Hnil.
      apply voters_nil_iff in Hnil. by destruct Hnil. }
  eexists. split; [done|]. intros s. rewrite foldl_insert_lookup.
  destruct (decide _) as [Hin|Hin]; [done|].
  rewrite elem_of_remove_dups in Hin. apply voters_nil_iff in Hin. rewrite Hin.
  unfold empty_counts.
  destruct (decide (s = "going")) as [->|?]; [done|]. rewrite lookup_insert_ne by done.
  destruct (decide (s = "maybe")) as [->|?]; [done|]. rewrite lookup_insert_ne by done.
  destruct (decide (s = "not")) as [->|?]; [done|]. by rewrite lookup_insert_ne by done.
Qed.

(** [compute_rsvp_counts] returns, changes nothing, and for every status the
    list it holds ([[]] when it holds none) is, up to order, the list of the
    users whose vote for the event has that status.  When the table has one row
    per (event, user), no user is in two lists and none is twice in a list. *)
Theorem compute_rsvp_counts_spec event_id w :
  ∃ counts, compute_rsvp_counts event_id w = (Ok counts, w) ∧
    (∀ s, default [] (counts !! s) ≡ₚ voters event_id s (event_rsvps w)) ∧
    (rsvp_keys_unique w →
     ∀ s1 s2 u, u ∈ default [] (counts !! s1) → u ∈ default [] (counts !! s2) → s1 = s2) ∧
    (rsvp_keys_unique w → ∀ s, NoDup (default [] (counts !! s))).
Proof.
  destruct (compute_rsvp_counts_run event_id w) as (counts & Hrun & Hc).
  exists counts. split; [done|]. split; [by intros s; rewrite Hc|].
  unfold rsvp_keys_unique. split.
  - intros Hnd s1 s2 u. rewrite !Hc. unfold voters.
    intros (v1 & -> & [[He1 Hs1] Hv1]%list_elem_of_filter)%list_elem_of_fmap
           (v2 & Hu & [[He2 Hs2] Hv2]%list_elem_of_filter)%list_elem_of_fmap.
    assert (v1 = v2) as ->; [|congruence].
    apply (fmap_eq_inj_on rsvp_key (event_rsvps w)); [done..|].
    unfold rsvp_key. congruence.
  - intros Hnd s. rewrite Hc. unfold voters.
    assert (NoDup (rsvp_key <$> filter (λ v, rsvp_event_id v = event_id ∧ rsvp_status v = s)
                                  (event_rsvps w))) as Hk.
    { eapply sublist_NoDup; [exact Hnd|]. apply fmap_sublist, sublist_filter. }
    apply (NoDup_fmap_2_strong rsvp_user_id).
    + intros v1 v2 [[He1 _] Hv1]%list_elem_of_filter [[He2 _] Hv2]%list_elem_of_filter Hu.
      apply (fmap_eq_inj_on rsvp_key (event_rsvps w)); [done..|].
      unfold rsvp_key. congruence.
    + by apply NoDup_fmap_1 in Hk.
Qed.

(** After a vote for an existing event (the call of [_set_status] raises, but
    only after it stored the vote), the counts of that event hold the voter
    under the status voted and under no other. *)
Theorem vote_then_count now event_id i status w :
  rsvp_keys_unique w → (∃ r, r ∈ events w ∧ ev_id r = event_id) →
  ∃ w' counts,
    _set_status now event_id i status w = (Raise TypeError, w') ∧
    compute_rsvp_counts event_id w' = (Ok counts, w') ∧
    i_user_id i ∈ default [] (counts !! status) ∧
    ∀ s, s ≠ status → i_user_id i ∉ default [] (counts !! s).
Proof.
  intros Hnd Hev.
  destruct (upsert_rsvp_spec event_id (i_user_id i) status now w Hnd)
    as (w' & Hup & Hnd' & Hmine & _); [by left|].
  destruct (compute_rsvp_counts_run event_id w') as (counts & Hrun & Hc).
  exists w', counts. split; [by apply set_status_world|]. split; [done|].
  assert (∀ v, v ∈ event_rsvps w' → rsvp_event_id v = event_id → rsvp_user_id v = i_user_id i →
               v = RsvpRow event_id (i_user_id i) status now) as Honly.
  { intros v Hv He Hu.
    assert (v ∈ filter (λ v, rsvp_key v = (event_id, i_user_id i)) (event_rsvps w')) as Hin.
    { apply list_elem_of_filter. split; [|done]. unfold rsvp_key. congruence. }
    rewrite Hmine in Hin. by apply list_elem_of_singleton in Hin. }
  assert (RsvpRow event_id (i_user_id i) status now ∈ event_rsvps w') as Hrow.
  { assert (RsvpRow event_id (i_user_id i) status now
            ∈ filter (λ v, rsvp_key v = (event_id, i_user_id i)) (event_rsvps w')) as Hin
      by (rewrite Hmine; by left).
    by apply list_elem_of_filter in Hin as [_ ?]. }
  split.
  - rewrite Hc. unfold voters. apply list_elem_of_fmap.
    exists (RsvpRow event_id (i_user_id i) status now). split; [done|].
    by apply list_elem_of_filter.
  - intros s Hs. rewrite Hc. unfold voters.
    intros (v & Hu & [[He Hst] Hv]%list_elem_of_filter)%list_elem_of_fmap.
    rewrite (Honly v Hv He (eq_sym Hu)) in Hst. simpl in Hst. congruence.
Qed.

Lemma any_values_false counts :
  any_values counts = false ↔ ∀ s, default [] (counts !! s) = [].
Proof.
  unfold any_values. split.
  - intros Hany s. destruct (counts !! s) as [l|] eqn:Hs; [|done]. simpl.
    destruct l as [|u l]; [done|].
    assert (existsb (λ kv : string * list Z, negb (bool_decide (kv.2 = [])))
              (map_to_list counts) = true); [|congruence].
    apply existsb_exists. exists (s, u :: l). split; [|done].
    by apply list_elem_of_In, elem_of_map_to_list.
  - intros Hnil. destruct (existsb _ _) eqn:Hex; [|done].
    apply existsb_exists in Hex as ([s l] & Hin%list_elem_of_In%elem_of_map_to_list & Hne).
    specialize (Hnil s). rewrite Hin in Hnil. simpl in *. by subst l.
Qed.

(** [event_rsvps] changes nothing, answers "No RSVPs yet" exactly when the
    event has no vote, and otherwise shows the voters of "going", "maybe" and
    "not"; the answer does not depend on who asks, from which guild. *)
Theorem event_rsvps_command_spec i event_id w :
  ∃ rep, event_rsvps_command i event_id w = (Ok rep, w) ∧
    (rep = NoRsvpsYet ↔ ∀ v, v ∈ event_rsvps w → rsvp_event_id v ≠ event_id) ∧
    (∀ g m n, rep = RsvpLines g m n →
       g ≡ₚ voters event_id "going" (event_rsvps w) ∧
       m ≡ₚ voters event_id "maybe" (event_rsvps w) ∧
       n ≡ₚ voters event_id "not" (event_rsvps w)) ∧
    (∀ i', event_rsvps_command i' event_id w = event_rsvps_command i event_id w).
Proof.
  unfold event_rsvps_command.
  destruct (compute_rsvp_counts_run event_id w) as (counts & Hrun & Hc).
  erewrite bind_ok by apply Hrun.
  assert (any_values counts = false ↔ ∀ v, v ∈ event_rsvps w → rsvp_event_id v ≠ event_id)
    as Hany.
  { rewrite any_values_false. setoid_rewrite Hc. split.
    - intros Hnil v Hv He. specialize (Hnil (rsvp_status v)).
      apply voters_nil_iff in Hnil. apply Hnil. apply list_elem_of_fmap. exists v.
      split; [done|]. by apply list_elem_of_filter.
    - intros Hnone s. apply voters_nil_iff.
      intros (v & _ & [He Hv]%list_elem_of_filter)%list_elem_of_fmap. by apply (Hnone v). }
  destruct (any_values counts) eqn:Ha; cbn [negb].
  - unfold format_rsvp_lines. eexists. split; [done|]. split; [|split; [|done]].
    + split; [done|]. intros Hnone%Hany. done.
    + intros g m n [= <- <- <-]. by rewrite !Hc.
  - eexists. split; [done|]. split; [|split; [done|done]].
    split; [intros _; by apply Hany|done].
Qed.

(** ** Listings *)

#[global] Instance event_order_total : Total event_order.
Proof.
  intros r1 r2. unfold event_order.
  destruct (ev_when_utc r1), (ev_when_utc r2); try tauto. lia.
Qed.

#[global] Instance event_order_trans : Transitive event_order.
Proof.
  intros r1 r2 r3. unfold event_order.
  destruct (ev_when_utc r1), (ev_when_utc r2), (ev_when_utc r3); try tauto. lia.
Qed.

#[global] Instance reminder_order_total : Total reminder_order.
Proof. intros r1 r2. unfold reminder_order. lia. Qed.

#[global] Instance reminder_order_trans : Transitive reminder_order.
Proof. intros r1 r2 r3. unfold reminder_order. lia. Qed.

(** [ORDER BY ... LIMIT n]: the first [n] rows of the sorted selection. *)
Lemma take_merge_sort {A} (R : relation A) `{!∀ x y, Decision (R x y)}
    `{!Total R} `{!Transitive R} (n : nat) (l : list A) :
  ∃ rest, take n (merge_sort R l) ++ rest ≡ₚ l ∧
    length (take n (merge_sort R l)) = (n `min` length l)%nat ∧
    StronglySorted R (take n (merge_sort R l)) ∧
    ∀ x y, x ∈ take n (merge_sort R l) → y ∈ rest → R x y.
Proof.
  exists (drop n (merge_sort R l)).
  pose proof (StronglySorted_merge_sort R l) as Hs.
  rewrite <-(take_drop n (merge_sort R l)) in Hs.
  split; [by rewrite take_drop, merge_sort_Permutation|].
  split; [by rewrite length_take, merge_sort_Permutation|].
  split; [by eapply StronglySorted_app_1_l|].
  intros x y Hx Hy. by eapply StronglySorted_app_1_elem_of.
Qed.

Lemma mapM_ids {A B} (f : A → option B) (ka : A → Z) (kb : B → Z) rows lines :
  (∀ r l, f r = Some l → kb l = ka r) →
  mapM f rows = Some lines → kb <$> lines = ka <$> rows.
Proof.
  intros Hk Hm%mapM_Some. induction Hm as [|r l rows lines Hf _ IH]; [done|].
  csimpl. by rewrite IH, (Hk r l).
Qed.

Section Listings.
Variable fmt_when_for_user : Z → string → option string.

Lemma event_line_of_id tz r l : event_line_of fmt_when_for_user tz r = Some l → el_id l = ev_id r.
Proof.
  unfold event_line_of. destruct (ev_when_utc r) as [t|]; simpl.
  - destruct (fmt_when_for_user t tz); simpl; by intros [= <-].
  - by intros [= <-].
Qed.

Lemma reminder_line_of_id tz r l :
  reminder_line_of fmt_when_for_user tz r = Some l → rl_id l = rem_id r.
Proof.
  unfold reminder_line_of. destruct (fmt_when_for_user _ tz); simpl; by intros [= <-].
Qed.

(** [event_list], when the instants of the guild's events can be formatted,
    changes nothing; it answers "No events yet" exactly when the guild of the
    interaction has no event, and otherwise lists at most 20 events, all of that
    guild and each once, all of them when there are at most 20, the dated ones
    first in the order of their instants and then the recurring ones; an event
    that is left out does not come before any that is listed. *)
Theorem event_list_spec i w :
  let sel := filter (λ r, i_guild_id i = Some (ev_guild_id r)) (events w) in
  let tz := timezone_of w (i_user_id i) in
  (∀ r t, r ∈ sel → ev_when_utc r = Some t → is_Some (fmt_when_for_user t tz)) →
  ∃ rep, event_list fmt_when_for_user i w = (Ok rep, w) ∧
    (rep = NoEventsYet ↔ ∀ r, r ∈ events w → i_guild_id i ≠ Some (ev_guild_id r)) ∧
    ∀ lines, rep = EventLines lines →
      ∃ rows rest,
        mapM (event_line_of fmt_when_for_user tz) rows = Some lines ∧
        el_id <$> lines = ev_id <$> rows ∧
        rows ++ rest ≡ₚ sel ∧
        length rows = (20 `min` length sel)%nat ∧
        StronglySorted event_order rows ∧
        ∀ x y, x ∈ rows → y ∈ rest → event_order x y.
Proof.
  intros sel tz Hfmt. unfold event_list. erewrite bind_ok by done.
  unfold listed_events. fold sel.
  destruct (take_merge_sort event_order 20 sel) as (rest & Hperm & Hlen & Hsorted & Hrest).
  remember (take 20 (merge_sort event_order sel)) as rows eqn:Hdef. clear Hdef.
  assert (rows = [] ↔ ∀ r, r ∈ events w → i_guild_id i ≠ Some (ev_guild_id r)) as Hnil.
  { split.
    - intros Hrows r Hr Hg. rewrite Hrows in Hlen. simpl in Hlen.
      assert (r ∈ sel) as Hin by by apply list_elem_of_filter.
      destruct sel; [by apply elem_of_nil in Hin|]. simpl in Hlen. lia.
    - intros Hnone. assert (sel = []) as Hsel.
      { apply filter_none. intros r Hr Hg. by apply (Hnone r). }
      rewrite Hsel in Hlen. simpl in Hlen. by apply nil_length_inv. }
  destruct rows as [|r0 rows'].
  - exists NoEventsYet. split; [done|]. split; [|done]. split; [intros _; by apply Hnil|done].
  - assert (is_Some (mapM (event_line_of fmt_when_for_user tz) (r0 :: rows'))) as [lines Hlines].
    { apply mapM_is_Some, Forall_forall. intros r Hr.
      assert (r ∈ sel) as Hsel.
      { rewrite <-Hperm. apply elem_of_app. by left. }
      unfold compose, event_line_of. destruct (ev_when_utc r) as [t|] eqn:Ht; [|by eexists].
      destruct (Hfmt r t Hsel Ht) as [p ->]. by eexists. }
    erewrite bind_ok by apply user_timezone_run. fold tz. rewrite Hlines.
    exists (EventLines lines). split; [done|]. split.
    + split; [done|]. by intros Hnone%Hnil.
    + intros lines' [= <-]. exists (r0 :: rows'), rest. split; [done|].
      split; [by eapply mapM_ids; [apply event_line_of_id|]|]. done.
Qed.

(** [remind_list], when the instants of the user's reminders can be
    formatted, changes nothing; it answers "no reminders" exactly when the user
    has none, and otherwise lists at most 20 reminders, all of that user
    (whatever the guild), in the order of their instants; a reminder that is
    left out is not earlier than any that is listed. *)
Theorem remind_list_spec i w :
  let sel := filter (λ r, rem_user_id r = Some (i_user_id i)) (reminders w) in
  let tz := timezone_of w (i_user_id i) in
  (∀ r, r ∈ sel → is_Some (fmt_when_for_user (rem_when_utc r) tz)) →
  ∃ rep, remind_list fmt_when_for_user i w = (Ok rep, w) ∧
    (rep = NoReminders ↔ ∀ r, r ∈ reminders w → rem_user_id r ≠ Some (i_user_id i)) ∧
    ∀ lines, rep = ReminderLines lines →
      ∃ rows rest,
        mapM (reminder_line_of fmt_when_for_user tz) rows = Some lines ∧
        rl_id <$> lines = rem_id <$> rows ∧
        rows ++ rest ≡ₚ sel ∧
        length rows = (20 `min` length sel)%nat ∧
        StronglySorted reminder_order rows ∧
        ∀ x y, x ∈ rows → y ∈ rest → reminder_order x y.
Proof.
  intros sel tz Hfmt. unfold remind_list. erewrite bind_ok by done.
  unfold listed_reminders. fold sel.
  destruct (take_merge_sort reminder_order 20 sel) as (rest & Hperm & Hlen & Hsorted & Hrest).
  remember (take 20 (merge_sort reminder_order sel)) as rows eqn:Hdef. clear Hdef.
  assert (rows = [] ↔ ∀ r, r ∈ reminders w → rem_user_id r ≠ Some (i_user_id i)) as Hnil.
  { split.
    - intros Hrows r Hr Hg. rewrite Hrows in Hlen. simpl in Hlen.
      assert (r ∈ sel) as Hin by by apply list_elem_of_filter.
      destruct sel; [by apply elem_of_nil in Hin|]. simpl in Hlen. lia.
    - intros Hnone. assert (sel = []) as Hsel.
      { apply filter_none. intros r Hr Hg. by apply (Hnone r). }
      rewrite Hsel in Hlen. simpl in Hlen. by apply nil_length_inv. }
  destruct rows as [|r0 rows'].
  - exists NoReminders. split; [done|]. split; [|done]. split; [intros _; by apply Hnil|done].
  - assert (is_Some (mapM (reminder_line_of fmt_when_for_user tz) (r0 :: rows'))) as [lines Hlines].
    { apply mapM_is_Some, Forall_forall. intros r Hr.
      assert (r ∈ sel) as Hsel.
      { rewrite <-Hperm. apply elem_of_app. by left. }
      unfold compose, reminder_line_of. destruct (Hfmt r Hsel) as [p ->]. by eexists. }
    erewrite bind_ok by apply user_timezone_run. fold tz. rewrite Hlines.
    exists (ReminderLines lines). split; [done|]. split.
    + split; [done|]. by intros Hnone%Hnil.
    + intros lines' [= <-]. exists (r0 :: rows'), rest. split; [done|].
      split; [by eapply mapM_ids; [apply reminder_line_of_id|]|]. done.
Qed.

End Listings.

(** ** Announcing an existing event *)

Section Announce.
Variable C : collaborators.
Variable fmt_when_for_user : Z → string → option string.

(** [event_announce] of an id that no event of the invoking guild has
    changes nothing and posts nothing; with a text channel the answer is "Event
    not found". *)
Theorem event_announce_scope_checked i event_id channel_arg w :
  (∀ r, r ∈ events w → ev_id r = event_id → i_guild_id i ≠ Some (ev_guild_id r)) →
  ∃ rep, event_announce C fmt_when_for_user i event_id channel_arg w = (Ok rep, w) ∧
    (rep = AnnounceEventNotFound ∨ rep = AnnouncePickTextChannel) ∧
    (∀ ch, channel_arg = Some ch → ch_is_text ch = true → rep = AnnounceEventNotFound).
Proof.
  intros Hscope. unfold event_announce.
  assert (find (λ r, bool_decide (event_selected i event_id r)) (events w) = None) as Hfind.
  { apply find_none_all. intros r Hr. apply bool_decide_eq_false_2. intros [Hid Hg].
    by apply (Hscope r). }
  destruct (match channel_arg with Some c => Some c | None => i_channel i end) as [ch|] eqn:Hch.
  - destruct (ch_is_text ch) eqn:Htext; cbn [negb].
    + erewrite bind_ok by done. rewrite Hfind. eexists. split; [done|]. split; [by left|done].
    + eexists. split; [done|]. split; [by right|].
      intros ch' -> Ht. simplify_eq. congruence.
  - eexists. split; [done|]. split; [by right|]. by intros ch' ->.
Qed.

(** [event_announce] of an event of the invoking guild does what
    [announce_event] does at creation: one embed is sent to the channel; when
    the call returns, the id of the message sent is stored in the row of the
    event, the other rows are unchanged, and the answer is "Announced"; when it
    raises, no row changes.  The job store is untouched. *)
Theorem event_announce_spec i event_id ch w r :
  ids_unique w → r ∈ events w → ev_id r = event_id → i_guild_id i = Some (ev_guild_id r) →
  ch_is_text ch = true →
  (∀ t, ev_when_utc r = Some t →
        is_Some (fmt_when_for_user t (timezone_of w (i_user_id i)))) →
  let call := channel_send_embed (ch_id ch) event_id (ev_title r) in
  let n := length (discord_calls w) in
  ∃ res w',
    event_announce C fmt_when_for_user i event_id (Some ch) w = (res, w') ∧
    (announce_event C event_id ch (i_user_id i) ;;; ret (Announced (ch_id ch))) w = (res, w') ∧
    discord_calls w' = discord_calls w ++ [call] ∧
    jobs w' = jobs w ∧
    (discord_returns C n call = true →
     res = Ok (Announced (ch_id ch)) ∧
     events w' = (λ r', if bool_decide (ev_id r' = event_id)
                        then with_message_id r' (Some (sent_message_id C n)) else r')
                 <$> events w) ∧
    (discord_returns C n call = false → res = Raise HTTPException ∧ events w' = events w).
Proof.
  intros [Hnd _] Hr Hid Hg Htext Hfmt call n.
  assert (event_selected i event_id r) as Hsel by done.
  assert (find (λ r, bool_decide (event_selected i event_id r)) (events w) = Some r) as Hfind.
  { apply find_unique; [done|by apply bool_decide_eq_true_2|].
    intros r' Hr' [Hid' _]%bool_decide_eq_true_1.
    apply (fmap_eq_inj_on ev_id (events w)); [done..|congruence]. }
  assert (find (λ r, bool_decide (ev_id r = event_id)) (events w) = Some r) as Hfind'.
  { apply find_unique; [done|by apply bool_decide_eq_true_2|].
    intros r' Hr' Hid'%bool_decide_eq_true_1.
    apply (fmap_eq_inj_on ev_id (events w)); [done..|congruence]. }
  assert (∃ txt, (match ev_when_utc r with
                  | Some dt_utc =>
                      or_raise OverflowError
                        (fmt_when_for_user dt_utc (timezone_of w (i_user_id i)))
                  | None => ret "recurring"
                  end) w = (Ok txt, w)) as [txt Htxt].
  { destruct (ev_when_utc r) as [t|]; [|by eexists].
    destruct (Hfmt t eq_refl) as [p ->]. by eexists. }
  set (chain := (n <- discord C call ;;
           modify (set_events (fmap (λ r' : event_row,
             if bool_decide (ev_id r' = event_id)
             then with_message_id r' (Some (sent_message_id C n)) else r'))) ;;;
           ret (Announced (ch_id ch)))%py).
  assert (event_announce C fmt_when_for_user i event_id (Some ch) w = chain w) as Hrun1.
  { unfold event_announce. rewrite Htext. cbn [negb].
    erewrite bind_ok by reflexivity. rewrite Hfind.
    erewrite bind_ok by apply user_timezone_run.
    erewrite bind_ok by apply Htxt. done. }
  assert ((announce_event C event_id ch (i_user_id i) ;;; ret (Announced (ch_id ch))) w
          = chain w) as Hrun2.
  { subst chain. unfold announce_event, bind, user_timezone, gets, discord.
    rewrite Hfind'. fold n. fold call. by destruct (discord_returns C n call). }
  rewrite Hrun1, Hrun2.
  destruct (chain w) as [res w'] eqn:Hrun.
  exists res, w'. split; [done|]. split; [done|].
  subst chain. unfold bind, discord in Hrun. fold n in Hrun.
  destruct (discord_returns C n call); injection Hrun as <- <-;
    (split; [done|]); (split; [done|]); split; try done; intros _; by split.
Qed.

End Announce.

(** ** The schema *)

Lemma extends_refl s : extends s s.
Proof. intros t cols Ht. by exists cols. Qed.

Lemma extends_trans s1 s2 s3 : extends s1 s2 → extends s2 s3 → extends s1 s3.
Proof.
  intros H12 H23 t cols Ht. destruct (H12 t cols Ht) as (cols2 & Ht2 & Hp2).
  destruct (H23 t cols2 Ht2) as (cols3 & Ht3 & Hp3). exists cols3. split; [done|].
  by etrans.
Qed.

Lemma create_lookup table cols s k :
  create_table_if_not_exists table cols s !! k
  = if decide (k = lower table) then Some (default cols (s !! k)) else s !! k.
Proof.
  unfold create_table_if_not_exists.
  destruct (decide (k = lower table)) as [->|Hk].
  - destruct (s !! lower table) as [c|] eqn:Hs; cbv iota.
    + by rewrite Hs.
    + by rewrite lookup_insert_eq.
  - destruct (s !! lower table) as [c|] eqn:Hs; cbv iota; [done|].
    by rewrite lookup_insert_ne.
Qed.

Lemma create_extends table cols s : extends s (create_table_if_not_exists table cols s).
Proof.
  intros t c Ht. rewrite create_lookup. exists c. split; [|done].
  case_decide; [by rewrite Ht|done].
Qed.

Lemma create_fixed table cols s :
  is_Some (s !! lower table) → create_table_if_not_exists table cols s = s.
Proof. unfold create_table_if_not_exists. by intros [c ->]. Qed.

Lemma ensure_column_run table column s cols :
  s !! lower table = Some cols →
  ensure_column table column s
  = if decide (column ∈ cols) then Some s
    else if decide (lower column ∈ lower <$> cols) then None
    else Some (<[lower table := cols ++ [column]]> s).
Proof.
  intros Hs. unfold ensure_column, table_info, add_column. rewrite Hs. simpl.
  destruct (decide (column ∈ cols)).
  - by rewrite bool_decide_eq_true_2.
  - rewrite bool_decide_eq_false_2 by done. by repeat case_decide;
      rewrite ?bool_decide_eq_true_2, ?bool_decide_eq_false_2 by done.
Qed.

Lemma ensure_column_returns table column s cols :
  s !! lower table = Some cols →
  is_Some (ensure_column table column s) ↔ ¬ clash column cols.
Proof.
  intros Hs. rewrite (ensure_column_run _ _ _ cols Hs). unfold clash.
  destruct (decide (column ∈ cols)); [split; [tauto|eauto]|].
  destruct (decide (lower column ∈ lower <$> cols)).
  - split; [by intros [? ?]|tauto].
  - split; [tauto|eauto].
Qed.

Lemma ensure_column_Some table column s s' :
  ensure_column table column s = Some s' →
  extends s s' ∧
  (∃ cols cols', s !! lower table = Some cols ∧ s' !! lower table = Some cols' ∧
     column ∈ cols' ∧
     cols' = if decide (column ∈ cols) then cols else cols ++ [column]) ∧
  ∀ k, k ≠ lower table → s' !! k = s !! k.
Proof.
  intros Hrun. destruct (s !! lower table) as [cols|] eqn:Hs.
  - rewrite (ensure_column_run _ _ _ cols Hs) in Hrun.
    destruct (decide (column ∈ cols)); [|destruct (decide (lower column ∈ lower <$> cols))];
      simplify_eq.
    + split; [apply extends_refl|]. split; [|done]. exists cols, cols. by rewrite decide_True.
    + split; [|split].
      * intros t c Ht. destruct (decide (t = lower table)) as [->|Hne].
        -- rewrite lookup_insert_eq. simplify_eq. eexists. split; [done|]. by apply prefix_app_r.
        -- rewrite lookup_insert_ne by done. by exists c.
      * exists cols, (cols ++ [column]). rewrite lookup_insert_eq, decide_False by done.
        repeat split; try done. apply elem_of_app. right. by left.
      * intros k Hk. by rewrite lookup_insert_ne.
  - unfold ensure_column, table_info, add_column in Hrun. rewrite Hs in Hrun. simpl in Hrun.
    done.
Qed.

Ltac lower_lits :=
  change (lower "user_prefs") with "user_prefs" in *;
  change (lower "events") with "events" in *;
  change (lower "reminders") with "reminders" in *;
  change (lower "event_rsvps") with "event_rsvps" in *.

Lemma clash_app_other column other cols :
  column ≠ other → lower column ≠ lower other →
  clash column (cols ++ [other]) ↔ clash column cols.
Proof.
  intros Hne Hl. unfold clash. rewrite fmap_app, !elem_of_app. simpl.
  rewrite !list_elem_of_singleton. tauto.
Qed.

(** [init_db] returns unless the table [events] has a column whose name is
    [lead_minutes] or [message_id] in another spelling of upper and lower case:
    Python does not find it in [table_info], and SQLite refuses to add it. *)
Theorem init_db_returns_iff s :
  (init_db s).1 = true ↔
  ¬ clash "lead_minutes" (events_columns s) ∧ ¬ clash "message_id" (events_columns s).
Proof.
  unfold init_db.
  set (s1 := create_table_if_not_exists "user_prefs" _ s).
  set (s2 := create_table_if_not_exists "events" _ s1).
  set (s3 := create_table_if_not_exists "reminders" _ s2).
  assert (s3 !! lower "events" = Some (events_columns s)) as Hev.
  { subst s3 s2 s1. rewrite !create_lookup. lower_lits.
    by repeat (case_decide; try discriminate). }
  pose proof (ensure_column_returns "events" "lead_minutes" s3 _ Hev) as H1.
  destruct (ensure_column "events" "lead_minutes" s3) as [s4|] eqn:He1.
  - apply ensure_column_Some in He1 as (_ & (cols & cols' & Hc & Hc' & _ & Hcols') & _).
    rewrite Hev in Hc. injection Hc as <-.
    pose proof (ensure_column_returns "events" "message_id" s4 _ Hc') as H2.
    assert (clash "message_id" cols' ↔ clash "message_id" (events_columns s)) as Hclash.
    { subst cols'. case_decide; [done|]. by apply clash_app_other. }
    rewrite Hclash in H2.
    destruct (ensure_column "events" "message_id" s4) as [s5|]; simpl.
    + split; [|done]. intros _. split; [apply H1|apply H2]; eauto.
    + split; [done|]. intros [_ Hno]. apply H2 in Hno. by destruct Hno.
  - simpl. split; [done|]. intros [Hno _]. apply H1 in Hno. by destruct Hno.
Qed.

Lemma init_db_fixed s :
  (∀ t, t ∈ ["user_prefs"; "events"; "reminders"; "event_rsvps"] → is_Some (s !! t)) →
  (∃ cols, s !! "events" = Some cols ∧ "lead_minutes" ∈ cols ∧ "message_id" ∈ cols) →
  init_db s = (true, s).
Proof.
  intros Ht (cols & Hev & HL & HM). unfold init_db.
  rewrite (create_fixed "user_prefs") by (apply Ht; repeat ((by left) || right)).
  rewrite (create_fixed "events") by (apply Ht; repeat ((by left) || right)).
  rewrite (create_fixed "reminders") by (apply Ht; repeat ((by left) || right)).
  rewrite (ensure_column_run "events" "lead_minutes" s cols Hev), decide_True by done.
  rewrite (ensure_column_run "events" "message_id" s cols Hev), decide_True by done.
  by rewrite (create_fixed "event_rsvps") by (apply Ht; repeat ((by left) || right)).
Qed.

Lemma init_db_leaves s s' :
  init_db s = (true, s') →
  extends s s' ∧
  (∀ t, t ∈ ["user_prefs"; "events"; "reminders"; "event_rsvps"] → is_Some (s' !! t)) ∧
  (∃ cols, s' !! "events" = Some cols ∧ "lead_minutes" ∈ cols ∧ "message_id" ∈ cols ∧
           events_columns s `prefix_of` cols) ∧
  init_db s' = (true, s').
Proof.
  unfold init_db.
  set (s1 := create_table_if_not_exists "user_prefs" _ s).
  set (s2 := create_table_if_not_exists "events" _ s1).
  set (s3 := create_table_if_not_exists "reminders" _ s2).
  assert (s3 !! "events" = Some (events_columns s)) as Hev.
  { subst s3 s2 s1. rewrite !create_lookup. lower_lits.
    by repeat (case_decide; try discriminate). }
  assert (is_Some (s3 !! "user_prefs") ∧ is_Some (s3 !! "reminders")) as [Hup Hrem].
  { subst s3 s2 s1. rewrite !create_lookup. lower_lits.
    split; repeat (case_decide; try discriminate; try done); eauto. }
  assert (extends s s3) as Hext3.
  { eapply extends_trans; [|apply create_extends].
    eapply extends_trans; [|apply create_extends]. apply create_extends. }
  destruct (ensure_column "events" "lead_minutes" s3) as [s4|] eqn:He1; [|done].
  destruct (ensure_column "events" "message_id" s4) as [s5|] eqn:He2; [|done].
  intros [= <-].
  apply ensure_column_Some in He1 as (Hext4 & (c3 & c4 & Hc3 & Hc4 & HL & _) & Hoth4).
  apply ensure_column_Some in He2 as (Hext5 & (c4' & c5 & Hc4' & Hc5 & HM & _) & Hoth5).
  lower_lits.
  rewrite Hev in Hc3. injection Hc3 as <-. rewrite Hc4 in Hc4'. injection Hc4' as <-.
  set (s6 := create_table_if_not_exists "event_rsvps" _ s5).
  assert (extends s5 s6) as Hext6 by apply create_extends.
  assert (extends s s6) as Hext.
  { eapply extends_trans; [exact Hext3|]. eapply extends_trans; [exact Hext4|].
    by eapply extends_trans. }
  assert (∀ t, t ∈ ["user_prefs"; "events"; "reminders"; "event_rsvps"] → is_Some (s6 !! t))
    as Htables.
  { intros t Ht. subst s6. rewrite create_lookup. lower_lits.
    case_decide; [eauto|].
    assert (t = "user_prefs" ∨ t = "events" ∨ t = "reminders") as [-> | [-> | ->]].
    { repeat (apply elem_of_cons in Ht as [Ht|Ht]; [subst; tauto|]).
      by apply elem_of_nil in Ht. }
    - rewrite Hoth5, Hoth4 by done. done.
    - rewrite Hc5. eauto.
    - rewrite Hoth5, Hoth4 by done. done. }
  assert (∃ cols, s6 !! "events" = Some cols ∧ "lead_minutes" ∈ cols ∧ "message_id" ∈ cols ∧
                  events_columns s `prefix_of` cols) as Hcols.
  { destruct (Hext6 "events" c5 Hc5) as (c6 & Hc6 & Hp6).
    destruct (Hext5 "events" c4 Hc4) as (c5' & Hc5' & Hp5). rewrite Hc5 in Hc5'.
    injection Hc5' as <-.
    destruct (Hext4 "events" _ Hev) as (c4' & Hc4' & Hp4). rewrite Hc4 in Hc4'.
    injection Hc4' as <-.
    exists c6. split; [done|]. split; [|split].
    - eapply elem_of_prefix; [|exact Hp6]. by eapply elem_of_prefix; [|exact Hp5].
    - by eapply elem_of_prefix; [|exact Hp6].
    - etrans; [exact Hp4|]. by etrans. }
  split; [done|]. split; [done|]. split; [done|].
  apply init_db_fixed; [done|]. destruct Hcols as (cols & ? & ? & ? & _). by exists cols.
Qed.

(** When [init_db] returns, every table and column that existed is still
    there, in its place; the four tables exist; [events] has the columns
    [lead_minutes] and [message_id], added after the columns it had; and a
    second [init_db] returns and changes nothing. *)
Theorem init_db_spec s s' :
  init_db s = (true, s') →
  extends s s' ∧
  (∀ t, t ∈ ["user_prefs"; "events"; "reminders"; "event_rsvps"] → is_Some (s' !! t)) ∧
  (∃ cols, s' !! "events" = Some cols ∧ "lead_minutes" ∈ cols ∧ "message_id" ∈ cols ∧
           events_columns s `prefix_of` cols) ∧
  init_db s' = (true, s').
Proof. apply init_db_leaves. Qed.

(** ** Start-up *)

(** [on_ready] starts the scheduler before it reconciles.  After an
    [on_ready] whose [tree.sync()] returned, the scheduler is running whether
    reconciliation returned or raised, the world is the one reconciliation left
    (or the same world when the scheduler was running already), and every later
    [on_ready] leaves the jobs and the tables as they are.  When [tree.sync()]
    raises, the scheduler is not started and nothing is reconciled. *)
Theorem on_ready_reconciles_once C now1 now2 p :
  (init_db (db_schema p)).1 = true →
  let p1 := (on_ready C now1 true p).2 in
  running p1 = true ∧
  store p1 = (if running p then store p else (schedule_loaded_jobs C now1 (store p)).2) ∧
  ((on_ready C now1 true p).1 = Started ∨
   ∃ e, (on_ready C now1 true p).1 = ReconcileRaised e ∧ running p = false ∧
        (schedule_loaded_jobs C now1 (store p)).1 = Raise e) ∧
  on_ready C now2 true p1 = (Started, p1) ∧
  (on_ready C now1 false p).1 = SyncRaised ∧
  running (on_ready C now1 false p).2 = running p ∧
  store (on_ready C now1 false p).2 = store p.
Proof.
  intros Hinit. unfold on_ready.
  destruct (init_db (db_schema p)) as [[] s'] eqn:Hdb; [|done]. cbn [negb].
  apply init_db_leaves in Hdb as (_ & _ & _ & Hfix).
  destruct (running p) eqn:Hrun; cbn [negb].
  - cbn [snd fst db_schema running store]. rewrite Hfix. cbn [negb].
    repeat split; try done. by left.
  - destruct (schedule_loaded_jobs C now1 (store p)) as [[[]|e] w1] eqn:Hrec;
      cbn [snd fst db_schema running store]; rewrite Hfix; cbn [negb];
      repeat split; try done; [by left|right; by exists e].
Qed.

(** ** A recurring event *)

Section Recurring.
Variable C : collaborators.

(** [event_create] without [when] and with an accepted cron expression
    stores the row, adds the cron job under ["event:{id}"], answers "Recurring
    event created", and neither announces the event nor adds a lead job: the
    lead offsets are stored and not used. *)
Theorem event_create_recurring now i title when ch role cron_expr ls lead_list tr g w :
  ch_is_text ch = true → i_guild_id i = Some g → Py.truthy_str when = false →
  cron_trigger_of C cron_expr = Some tr → lead_list_arg ls = Some lead_list →
  let id := events_seq w + 1 in
  ∃ w',
    event_create C now i title when (Some ch) role (Some cron_expr) ls w
    = (Ok (RecurringEventCreated title cron_expr), w') ∧
    events w' = events w ++ [new_event_row now i g ch title None (Some cron_expr) role lead_list w] ∧
    jobs w' = <[event_job_id id := Job tr (send_event_task g (ch_id ch) title role)]> (jobs w) ∧
    (∀ m, jobs w' !! lead_job_id id m = jobs w !! lead_job_id id m) ∧
    discord_calls w' = discord_calls w ∧
    (reminders w', event_rsvps w', user_prefs w') = (reminders w, event_rsvps w, user_prefs w).
Proof.
  intros Hch Hg Hwhen Htr Hls id. unfold event_create. rewrite Hch, Hwhen.
  assert (Py.truthy_str (Some cron_expr) = true) as ->.
  { destruct cron_expr; [|done]. unfold cron_trigger_of in Htr. simpl in Htr. done. }
  cbn [negb andb].
  erewrite bind_ok by (by destruct when). rewrite Hls, Hg.
  erewrite bind_ok by done. erewrite bind_ok by done. erewrite bind_ok by done.
  unfold try_except, cron_trigger. rewrite Htr.
  eexists. split; [done|]. cbn. split; [done|]. split; [done|]. split; [|done].
  intros m. rewrite lookup_insert_ne; [done|]. apply event_lead_job_id_ne.
Qed.

End Recurring.

(** ** An event created and reconciled *)

Section CreateReconcile.
Variable C : collaborators.


End CreateReconcile.

(** ** The further theorems on the example worlds *)

Example token_looks_valid_ex :
  (token_looks_valid "AAA.BBB.CCC", token_looks_valid "..", token_looks_valid "",
   token_looks_valid "mfa.BBB.CCC", token_looks_valid "AAA.BBB", token_looks_valid "a.b.c.d")
  = (true, true, false, false, false, false).
Proof. reflexivity. Qed.

Lemma store_ok_demo_world : store_ok demo_world.
Proof. unfold store_ok, ids_unique, rsvp_keys_unique. by_decide. Qed.

Lemma lead_list_of_sorted_witness :
  lead_list_of "10, 60,10,-5,0" = Some [60; 10] ∧ descending [60; 10] ∧ NoDup [60; 10].
Proof.
  destruct (lead_list_of_sorted "10, 60,10,-5,0" [60; 10] eq_refl) as (Hd & Hn & _).
  exact (conj eq_refl (conj Hd Hn)).
Defined.

Lemma stored_leads_lead_column_witness :
  lead_list_arg (Some "10, 60,10") = Some [60; 10] ∧
  stored_leads (lead_column [60; 10]) = [60; 10].
Proof.
  exact (conj eq_refl (stored_leads_lead_column (Some "10, 60,10") [60; 10] eq_refl)).
Defined.

Lemma event_create_refusal_changes_nothing_witness :
  (event_create (demo_collaborators true) 0 demo_interaction "standup" (Some "soon")
     None None None (Some "60,10") demo_world).1 = Ok CouldNotParseTime ∧
  (event_create (demo_collaborators true) 0 demo_interaction "standup" (Some "soon")
     None None None (Some "60,10") demo_world).2 = demo_world.
Proof.
  split; [reflexivity|].
  apply (event_create_refusal_changes_nothing (demo_collaborators true) 0 demo_interaction
           "standup" (Some "soon") None None None (Some "60,10") demo_world CouldNotParseTime).
  - reflexivity.
  - right; right; left.
Defined.

Lemma remind_add_then_delete_witness :
  store_ok demo_world ∧
  ∃ w1 w2,
    remind_add (demo_collaborators true) 0 demo_interaction "100" "tea" None None demo_world
    = (Ok ReminderSet, w1) ∧
    remind_delete demo_interaction 2 w1 = (Ok (ReminderDeleted 2), w2) ∧
    reminders w2 = reminders demo_world ∧ jobs w2 = ∅.
Proof.
  split; [exact store_ok_demo_world|].
  destruct (remind_add_then_delete (demo_collaborators true) 0 demo_interaction "100" "tea"
              None None demo_world store_ok_demo_world)
    as (w1 & w2 & Hadd & _ & _ & Hdel & Hrem & Hjobs & _).
  exists w1, w2. split; [exact Hadd|]. split; [exact Hdel|]. split; [exact Hrem|].
  rewrite Hjobs. reflexivity.
Defined.

Lemma remind_add_then_fire_witness :
  store_ok fresh_world ∧
  ∃ w1 w2,
    remind_add (demo_collaborators true) 0 demo_interaction "100" "tea" None None fresh_world
    = (Ok ReminderSet, w1) ∧
    fire (demo_collaborators true) (reminder_job_id 1) w1 = Some (Ok tt, w2) ∧
    reminders w2 = [] ∧ jobs w2 = ∅ ∧
    discord_calls w2 = [fetch_user 42; user_send 42 "**Reminder:** tea"].
Proof.
  split; [exact store_ok_fresh_world|].
  destruct (remind_add_then_fire (demo_collaborators true) 0 demo_interaction "100" "tea"
              None None 100 fresh_world store_ok_fresh_world eq_refl (λ _ _, eq_refl))
    as (w1 & w2 & Hadd & Hfire & Hrem & Hjobs & Hdm & _).
  exists w1, w2. split; [exact Hadd|]. split; [exact Hfire|]. split; [exact Hrem|].
  split; [rewrite Hjobs; reflexivity|]. exact (Hdm eq_refl).
Defined.


(** Case analysis on the membership in a list that is written out. *)
Ltac each_elem H :=
  repeat (apply elem_of_cons in H as [->|H]); [..|by apply elem_of_nil in H].

Lemma ids_unique_demo_world : ids_unique demo_world.
Proof. unfold ids_unique. by_decide. Qed.

Lemma leads_in_range_demo_world : leads_in_range demo_world.
Proof. by_decide. Qed.

Lemma delete_cancels_job_before_scope_check_witness :
  (∀ r, r ∈ events scheduled_world → ev_id r = 1 →
        i_guild_id other_guild_interaction ≠ Some (ev_guild_id r)) ∧
  is_Some (jobs scheduled_world !! event_job_id 1) ∧
  ∃ w', event_delete other_guild_interaction 1 scheduled_world = (Ok EventNotFound, w') ∧
    events w' = events scheduled_world ∧
    jobs w' !! event_job_id 1 = None ∧
    is_Some (jobs w' !! lead_job_id 1 10).
Proof.
  assert (∀ r, r ∈ events scheduled_world → ev_id r = 1 →
               i_guild_id other_guild_interaction ≠ Some (ev_guild_id r)) as Hscope.
  { intros r Hr _. change (events scheduled_world) with (events demo_world) in Hr.
    each_elem Hr; discriminate. }
  split; [exact Hscope|]. split; [by eexists|].
  destruct (proj1 (delete_cancels_job_before_scope_check other_guild_interaction 1 1
                     scheduled_world) Hscope) as (w' & Hrun & Hobs & Hjobs).
  exists w'. split; [exact Hrun|]. split; [by injection Hobs|].
  rewrite Hjobs. split; [apply lookup_delete_eq|].
  rewrite lookup_delete_ne by done. by eexists.
Defined.

Lemma event_delete_cascades_rsvps_witness :
  ids_unique demo_world ∧
  ∃ w', event_delete demo_interaction 1 demo_world = (Ok (EventDeleted 1), w') ∧
    event_rsvps w' = [] ∧
    _set_status 5 1 demo_interaction "going" w' = (Raise IntegrityError, w').
Proof.
  split; [exact ids_unique_demo_world|].
  destruct (event_delete_cascades_rsvps 5 demo_interaction 1 demo_world
              (demo_event 1 (Some 3600000000) None (Some "60,10")) demo_interaction "going"
              ids_unique_demo_world)
    as (w' & Hrun & Hrsvps & Hvote); [by left|done|done|].
  exists w'. split; [exact Hrun|]. split; [rewrite Hrsvps; reflexivity|exact Hvote].
Defined.

Lemma reconcile_twice_witness :
  ids_unique demo_world ∧ leads_in_range demo_world ∧ 0 ≤ 10 ∧
  ∃ w1 w2,
    schedule_loaded_jobs (demo_collaborators true) 0 demo_world = (Ok tt, w1) ∧
    schedule_loaded_jobs (demo_collaborators true) 10 w1 = (Ok tt, w2) ∧
    jobs w2 = jobs w1.
Proof.
  split; [exact ids_unique_demo_world|]. split; [exact leads_in_range_demo_world|].
  split; [done|].
  destruct (reconcile_twice (demo_collaborators true) 0 10 demo_world
              ids_unique_demo_world leads_in_range_demo_world)
    as (w1 & w2 & H1 & H2 & Hjobs & _); [done|].
  by exists w1, w2.
Defined.

Lemma reconcile_from_empty_witness :
  ids_unique demo_world ∧ leads_in_range demo_world ∧ jobs demo_world = ∅ ∧
  ∃ w', schedule_loaded_jobs (demo_collaborators true) 100 demo_world = (Ok tt, w') ∧
    jobs w' !! reminder_job_id 1 = None ∧
    reminders w' = reminders demo_world.
Proof.
  split; [exact ids_unique_demo_world|]. split; [exact leads_in_range_demo_world|].
  split; [done|].
  destruct (reconcile_from_empty (demo_collaborators true) 100 demo_world
              ids_unique_demo_world leads_in_range_demo_world eq_refl)
    as (w' & Hrun & Hrem & Hjob & _).
  exists w'. split; [exact Hrun|]. split; [|exact Hrem].
  apply (Hjob (ReminderRow 1 (Some 7) (Some 5) (Some 42) "tea" 100 None 0)). by left.
Defined.

Lemma fire_event_job_keeps_rows_witness :
  jobs scheduled_world !! event_job_id 1
  = Some (Job (DateTrigger 3600000000) (send_event_task 7 5 "standup" None)) ∧
  ∃ res w', fire (demo_collaborators true) (event_job_id 1) scheduled_world = Some (res, w') ∧
    events w' = events scheduled_world ∧
    jobs w' !! event_job_id 1 = None.
Proof.
  split; [reflexivity|].
  destruct (fire_event_job_keeps_rows (demo_collaborators true) (event_job_id 1)
              (DateTrigger 3600000000) 7 5 "standup" None scheduled_world eq_refl)
    as (res & w' & Hfire & Hd & Hjobs & _).
  exists res, w'. split; [exact Hfire|]. split; [by injection Hd|].
  rewrite Hjobs. apply lookup_delete_eq.
Defined.

Lemma timezone_set_then_user_timezone_witness :
  demo_known_timezone "Europe/London" = true ∧
  user_timezone 42 demo_world = (Ok "America/Chicago", demo_world) ∧
  ∃ w', timezone_set demo_known_timezone demo_interaction "Europe/London" demo_world
        = (Ok (TimezoneSet "Europe/London"), w') ∧
    user_timezone 42 w' = (Ok "Europe/London", w') ∧
    timezone_set demo_known_timezone demo_interaction "Mars/Olympus" w'
    = (Ok UnknownTimezone, w').
Proof.
  split; [reflexivity|].
  pose proof (timezone_set_then_user_timezone demo_known_timezone demo_interaction
                "Europe/London" demo_world) as (Hdefault & _ & Hset).
  split; [apply Hdefault, not_elem_of_nil|].
  destruct (Hset eq_refl) as (w' & Hrun & Hread & _).
  exists w'. split; [exact Hrun|]. split; [exact Hread|].
  apply (timezone_set_then_user_timezone demo_known_timezone demo_interaction
           "Mars/Olympus" w'). reflexivity.
Defined.

Lemma vote_then_count_witness :
  rsvp_keys_unique demo_world ∧ (∃ r, r ∈ events demo_world ∧ ev_id r = 1) ∧
  ∃ w' counts,
    _set_status 5 1 demo_interaction "going" demo_world = (Raise TypeError, w') ∧
    compute_rsvp_counts 1 w' = (Ok counts, w') ∧
    42 ∈ default [] (counts !! "going") ∧ 42 ∉ default [] (counts !! "maybe").
Proof.
  assert (rsvp_keys_unique demo_world) as Hk by (unfold rsvp_keys_unique; by_decide).
  assert (∃ r, r ∈ events demo_world ∧ ev_id r = 1) as Hev.
  { eexists. split; [by left|done]. }
  split; [exact Hk|]. split; [exact Hev|].
  destruct (vote_then_count 5 1 demo_interaction "going" demo_world Hk Hev)
    as (w' & counts & Hvote & Hcount & Hin & Hout).
  exists w', counts. split; [exact Hvote|]. split; [exact Hcount|]. split; [exact Hin|].
  by apply Hout.
Defined.

Lemma event_list_spec_witness :
  (∀ r t, r ∈ filter (λ r, i_guild_id demo_interaction = Some (ev_guild_id r)) (events demo_world) →
          ev_when_utc r = Some t →
          is_Some (demo_fmt t (timezone_of demo_world (i_user_id demo_interaction)))) ∧
  ∃ lines, event_list demo_fmt demo_interaction demo_world = (Ok (EventLines lines), demo_world) ∧
    el_id <$> lines = [4; 1; 2; 3].
Proof.
  assert (∀ r t, r ∈ filter (λ r, i_guild_id demo_interaction = Some (ev_guild_id r))
                        (events demo_world) →
                 ev_when_utc r = Some t →
                 is_Some (demo_fmt t (timezone_of demo_world (i_user_id demo_interaction))))
    as Hfmt by (intros r t _ _; by eexists).
  split; [exact Hfmt|].
  destruct (event_list_spec demo_fmt demo_interaction demo_world Hfmt)
    as (rep & Hrun & _ & _).
  assert (rep = EventLines (default [] (mapM (event_line_of demo_fmt "America/Chicago")
                                          (listed_events demo_interaction demo_world)))) as ->.
  { assert (Ok rep = (event_list demo_fmt demo_interaction demo_world).1) as Heq
      by by rewrite Hrun.
    vm_compute in Heq. injection Heq as ->. vm_compute. reflexivity. }
  eexists. split; [exact Hrun|]. vm_compute. reflexivity.
Defined.

Lemma remind_list_spec_witness :
  (∀ r, r ∈ filter (λ r, rem_user_id r = Some (i_user_id demo_interaction)) (reminders demo_world) →
        is_Some (demo_fmt (rem_when_utc r)
                   (timezone_of demo_world (i_user_id demo_interaction)))) ∧
  ∃ lines, remind_list demo_fmt demo_interaction demo_world
           = (Ok (ReminderLines lines), demo_world) ∧
    rl_id <$> lines = [1].
Proof.
  assert (∀ r, r ∈ filter (λ r, rem_user_id r = Some (i_user_id demo_interaction))
                      (reminders demo_world) →
               is_Some (demo_fmt (rem_when_utc r)
                          (timezone_of demo_world (i_user_id demo_interaction))))
    as Hfmt by (intros r _; by eexists).
  split; [exact Hfmt|].
  destruct (remind_list_spec demo_fmt demo_interaction demo_world Hfmt)
    as (rep & Hrun & _ & _).
  assert (rep = ReminderLines (default [] (mapM (reminder_line_of demo_fmt "America/Chicago")
                                 (listed_reminders demo_interaction demo_world)))) as ->.
  { assert (Ok rep = (remind_list demo_fmt demo_interaction demo_world).1) as Heq
      by by rewrite Hrun.
    vm_compute in Heq. injection Heq as ->. vm_compute. reflexivity. }
  eexists. split; [exact Hrun|]. vm_compute. reflexivity.
Defined.

Lemma event_announce_scope_checked_witness :
  (∀ r, r ∈ events demo_world → ev_id r = 1 →
        i_guild_id other_guild_interaction ≠ Some (ev_guild_id r)) ∧
  event_announce (demo_collaborators true) demo_fmt other_guild_interaction 1
    (Some (Channel 6 true)) demo_world
  = (Ok AnnounceEventNotFound, demo_world).
Proof.
  assert (∀ r, r ∈ events demo_world → ev_id r = 1 →
               i_guild_id other_guild_interaction ≠ Some (ev_guild_id r)) as Hscope.
  { intros r Hr _. each_elem Hr; discriminate. }
  split; [exact Hscope|].
  destruct (event_announce_scope_checked (demo_collaborators true) demo_fmt
              other_guild_interaction 1 (Some (Channel 6 true)) demo_world Hscope)
    as (rep & Hrun & _ & Hrep).
  rewrite Hrun. by rewrite (Hrep (Channel 6 true)).
Defined.

Lemma event_announce_spec_witness :
  ids_unique demo_world ∧
  ∃ w', event_announce (demo_collaborators true) demo_fmt demo_interaction 1
          (Some (Channel 5 true)) demo_world = (Ok (Announced 5), w') ∧
    discord_calls w' = [channel_send_embed 5 1 "standup"] ∧
    ev_message_id <$> events w' = [Some 1000; None; None; None].
Proof.
  split; [exact ids_unique_demo_world|].
  destruct (event_announce_spec (demo_collaborators true) demo_fmt demo_interaction 1
              (Channel 5 true) demo_world
              (demo_event 1 (Some 3600000000) None (Some "60,10")) ids_unique_demo_world)
    as (res & w' & Hrun & _ & Hcalls & _ & Hok & _);
    [by left|done|done|done|by intros t _; eexists|].
  destruct (Hok eq_refl) as [-> Hev].
  exists w'. split; [exact Hrun|]. split; [exact Hcalls|]. rewrite Hev. reflexivity.
Defined.

Example init_db_new_file :
  init_db ∅
  = (true,
     <["event_rsvps" := ["event_id"; "user_id"; "status"; "updated_at"]]>
     (<["events" := ["id"; "guild_id"; "channel_id"; "title"; "when_utc"; "cron";
                     "mention_role_id"; "created_by"; "created_at"; "lead_minutes";
                     "message_id"]]>
     (<["reminders" := ["id"; "guild_id"; "channel_id"; "user_id"; "message"; "when_utc";
                        "mention_role_id"; "created_at"]]>
     (<["user_prefs" := ["user_id"; "tz"]]> ∅)))).
Proof. vm_compute. reflexivity. Qed.

(** A database of an earlier version, whose [events] has no [lead_minutes]
    and whose column [message_id] was created in capitals. *)
Example init_db_other_spelling :
  init_db (<["events" := ["id"; "title"; "MESSAGE_ID"]]> ∅)
  = (false,
     <["reminders" := ["id"; "guild_id"; "channel_id"; "user_id"; "message"; "when_utc";
                       "mention_role_id"; "created_at"]]>
     (<["user_prefs" := ["user_id"; "tz"]]>
     (<["events" := ["id"; "title"; "MESSAGE_ID"; "lead_minutes"]]> ∅))).
Proof. vm_compute. reflexivity. Qed.

Lemma init_db_spec_witness :
  init_db (<["events" := ["id"; "title"; "message_id"]]> ∅)
  = (true, (init_db (<["events" := ["id"; "title"; "message_id"]]> ∅)).2) ∧
  (init_db (<["events" := ["id"; "title"; "message_id"]]> ∅)).2 !! "events"
  = Some ["id"; "title"; "message_id"; "lead_minutes"] ∧
  init_db (init_db (<["events" := ["id"; "title"; "message_id"]]> ∅)).2
  = (true, (init_db (<["events" := ["id"; "title"; "message_id"]]> ∅)).2).
Proof.
  assert (init_db (<["events" := ["id"; "title"; "message_id"]]> ∅)
          = (true, (init_db (<["events" := ["id"; "title"; "message_id"]]> ∅)).2)) as Hrun
    by (vm_compute; reflexivity).
  split; [exact Hrun|]. split; [vm_compute; reflexivity|].
  exact (proj2 (proj2 (proj2 (init_db_spec _ _ Hrun)))).
Defined.

Lemma on_ready_reconciles_once_witness :
  (init_db (db_schema (Process ∅ false demo_world))).1 = true ∧
  running (on_ready (demo_collaborators true) 0 true (Process ∅ false demo_world)).2 = true ∧
  store (on_ready (demo_collaborators true) 0 true (Process ∅ false demo_world)).2
  = scheduled_world ∧
  on_ready (demo_collaborators true) 10 true
    (on_ready (demo_collaborators true) 0 true (Process ∅ false demo_world)).2
  = (Started, (on_ready (demo_collaborators true) 0 true (Process ∅ false demo_world)).2).
Proof.
  assert ((init_db (db_schema (Process ∅ false demo_world))).1 = true) as Hinit
    by (vm_compute; reflexivity).
  split; [exact Hinit|].
  destruct (on_ready_reconciles_once (demo_collaborators true) 0 10
              (Process ∅ false demo_world) Hinit) as (Hrun & Hstore & _ & Hagain & _).
  split; [exact Hrun|]. split; [exact Hstore|exact Hagain].
Defined.

Lemma event_create_recurring_witness :
  cron_trigger_of (demo_collaborators true) "0 19 * * TUE"
  = Some (CronTrigger "0" "19" "*" "*" "TUE") ∧
  ∃ w',
    event_create (demo_collaborators true) 0 demo_interaction "standup" None
      (Some (Channel 5 true)) None (Some "0 19 * * TUE") (Some "60,10") fresh_world
    = (Ok (RecurringEventCreated "standup" "0 19 * * TUE"), w') ∧
    jobs w' !! event_job_id 1
    = Some (Job (CronTrigger "0" "19" "*" "*" "TUE") (send_event_task 7 5 "standup" None)) ∧
    jobs w' !! lead_job_id 1 10 = None ∧
    discord_calls w' = [].
Proof.
  split; [reflexivity|].
  destruct (event_create_recurring (demo_collaborators true) 0 demo_interaction "standup" None
              (Channel 5 true) None "0 19 * * TUE" (Some "60,10") [60; 10]
              (CronTrigger "0" "19" "*" "*" "TUE") 7 fresh_world
              eq_refl eq_refl eq_refl eq_refl eq_refl)
    as (w' & Hrun & _ & Hjobs & Hleads & Hcalls & _).
  exists w'. split; [exact Hrun|]. split; [rewrite Hjobs; apply lookup_insert_eq|].
  split; [rewrite Hleads; reflexivity|exact Hcalls].
Defined.


Example compute_rsvp_counts_ex :
  (compute_rsvp_counts 1
     (World [] 0 [] 0
        [RsvpRow 1 42 "going" 0; RsvpRow 2 42 "not" 0; RsvpRow 1 43 "maybe" 0;
         RsvpRow 1 44 "going" 0] [] ∅ [] [])).1
  = Ok (<["going" := [42; 44]]> (<["maybe" := [43]]> (<["not" := []]> ∅))).
Proof. vm_compute. reflexivity. Qed.

(** ** Reconciliation of a store with a lead offset out of range *)

Example overflow_world_rows :
  (λ r, (ev_id r, ev_when_utc r, ev_cron r, ev_lead_minutes r)) <$> events overflow_world
  = [(1, Some 3600000000, None, Some "6000000000");
     (2, None, Some "* * * *", None);
     (3, None, Some "0 19 * * TUE", None)] ∧
  (λ r, (rem_id r, rem_when_utc r)) <$> reminders overflow_world = [(1, 100)].
Proof. split; vm_compute; reflexivity. Qed.

Lemma overflow_commands_reachable :
  reachable (demo_collaborators true)
    (foldl (λ w a, run_action (demo_collaborators true) a w) fresh_world overflow_commands).
Proof.
  unfold overflow_commands. cbn [foldl]. repeat apply reachable_step. apply reachable_fresh.
Qed.

Lemma reconcile_overflow_skips_cron_rows_witness :
  ¬ leads_in_range overflow_world ∧
  cron_trigger_of (demo_collaborators true) "* * * *" = None ∧
  ∃ w', schedule_loaded_jobs (demo_collaborators true) 0 overflow_world
        = (Raise OverflowError, w') ∧
    log w' = [] ∧
    jobs w' !! event_job_id 2 = None ∧
    jobs w' !! event_job_id 3 = None ∧
    jobs w' !! reminder_job_id 1 = None.
Proof.
  assert (¬ leads_in_range overflow_world) as H by by_decide.
  split; [exact H|]. split; [reflexivity|].
  destruct (reconcile_overflow_skips_cron_rows (demo_collaborators true) 0 overflow_world H)
    as (w' & Hrun & Hlog & Hev & Hrem).
  assert (∀ a, a ≠ 1 → ∀ r, r ∈ events overflow_world → ev_id r = a → ev_when_utc r = None)
    as Hcron.
  { intros a Ha r Hr Hid.
    assert (Forall (λ r, ev_id r = 1 ∨ ev_when_utc r = None) (events overflow_world)) as Hall
      by by_decide.
    rewrite Forall_forall in Hall. destruct (Hall r Hr) as [H1|Hnone]; [congruence|done]. }
  exists w'. split; [exact Hrun|]. split; [exact Hlog|].
  split; [exact (Hev 2 (Hcron 2 ltac:(done)))|].
  split; [exact (Hev 3 (Hcron 3 ltac:(done)))|exact (Hrem 1)].
Defined.
